(** * MD2PDF: the Markdown renderer and the batch conversion pipeline

    A shallow embedding of [markdown_to_html] and of the batch pipeline
    ([convert_to_pdf], [convert_next_file], [on_html_loaded], [generate_pdf],
    [check_pdf_generation], [check_pdf_generation_final],
    [on_single_conversion_finished], [on_all_conversions_finished]) of
    [MD2PDF.py], class [MarkdownToPdfConverter], followed by the file list and
    the preview of the same window ([add_files], [clear_files],
    [remove_single_file], [select_file_item], [load_markdown_file],
    [prev_page], [next_page], [browse_output_folder], [dropEvent]).

    Python [str] values are [string]s holding the UTF-8 bytes of the text.
    Substring search and replacement on valid UTF-8 agree with the same
    operations on code points, because no encoded character starts inside
    another one.

    The collaborators the program drives are kept abstract: the Markdown
    library (an instance type with its constructor and [convert]), [pathlib],
    the file system, the user answering dialogs, and the Qt event loop
    delivering [loadFinished] signals and single-shot timers. *)

From Stdlib Require Import String Ascii List ZArith Lia Bool Arith Sorted
  DecimalString.
Import ListNotations.
Open Scope string_scope.

(** ** Python string operations *)

Module PyStr.

(** [strip_prefix p s] is [Some rest] exactly when [s = p ++ rest]. *)
Fixpoint strip_prefix (p s : string) : option string :=
  match p with
  | EmptyString => Some s
  | String a p' =>
      match s with
      | EmptyString => None
      | String b s' => if Ascii.eqb a b then strip_prefix p' s' else None
      end
  end.

(** [s.replace("", new)]: [new] before every character and at the end. *)
Fixpoint interleave (new s : string) : string :=
  match s with
  | EmptyString => new
  | String c s' => new ++ String c (interleave new s')
  end.

(** The left-to-right scan of [s.replace(old, new)] for a non-empty [old]:
    at a position where [old] starts, emit [new] and jump past the match,
    otherwise copy one character.  [fuel] bounds the number of positions;
    the length of [s] is enough. *)
Fixpoint replace_from (fuel : nat) (old new s : string) : string :=
  match fuel with
  | 0 => s
  | S fuel' =>
      match strip_prefix old s with
      | Some rest => new ++ replace_from fuel' old new rest
      | None =>
          match s with
          | EmptyString => EmptyString
          | String c s' => String c (replace_from fuel' old new s')
          end
      end
  end.

(** [s.replace(old, new)]. *)
Definition str_replace (s old new : string) : string :=
  match old with
  | EmptyString => interleave new s
  | _ => replace_from (String.length s) old new s
  end.

Fixpoint count_from (fuel : nat) (sub s : string) : nat :=
  match fuel with
  | 0 => 0
  | S fuel' =>
      match strip_prefix sub s with
      | Some rest => S (count_from fuel' sub rest)
      | None =>
          match s with
          | EmptyString => 0
          | String _ s' => count_from fuel' sub s'
          end
      end
  end.

(** [s.count(sub)]: the number of non-overlapping occurrences. *)
Definition str_count (s sub : string) : nat :=
  match sub with
  | EmptyString => S (String.length s)
  | _ => count_from (String.length s) sub s
  end.

(** The number of positions of [s] at which [sub] starts (occurrences may
    overlap). *)
Fixpoint occurrences (sub s : string) : nat :=
  (match strip_prefix sub s with Some _ => 1 | None => 0 end) +
  match s with
  | EmptyString => 0
  | String _ s' => occurrences sub s'
  end.

(** [sub in s]. *)
Definition contains (sub s : string) : bool :=
  negb (Nat.eqb (occurrences sub s) 0).

Definition cons_head (c : ascii) (l : list string) : list string :=
  match l with
  | [] => [String c EmptyString]
  | x :: xs => String c x :: xs
  end.

Fixpoint split_from (fuel : nat) (sep s : string) : list string :=
  match fuel with
  | 0 => [s]
  | S fuel' =>
      match strip_prefix sep s with
      | Some rest => EmptyString :: split_from fuel' sep rest
      | None =>
          match s with
          | EmptyString => [EmptyString]
          | String c s' => cons_head c (split_from fuel' sep s')
          end
      end
  end.

(** [s.split(sep)] for a non-empty [sep]. *)
Definition str_split (s sep : string) : list string :=
  split_from (String.length s) sep s.

(** The characters a string literal cannot hold directly. *)
Definition dq : string := String (ascii_of_nat 34) EmptyString.
Definition nl : string := String (ascii_of_nat 10) EmptyString.

(** [x or y] on strings: the empty string is the only falsy one. *)
Definition py_or (x y : string) : string :=
  match x with
  | EmptyString => y
  | _ => x
  end.

End PyStr.

(** ** The converter window and its environment *)

Module Gui.
Import PyStr.

(** The three buttons of the overwrite prompt
    ([QMessageBox.Yes | QMessageBox.No | QMessageBox.Cancel]). *)
Inductive Reply : Set := Yes | No | Cancel.

(** What a verification step finds at the output path:
    [os.path.exists] false, or true with [os.path.getsize] returning a size
    or raising. *)
Inductive Probe : Set :=
| Missing
| Size (bytes : N)
| StatError (detail : string).

(** The result of opening and reading a source file. *)
Inductive Read : Set :=
| Content (text : string)
| ReadError (detail : string).

(** The callbacks handed to [QTimer.singleShot]. *)
Inductive Callback : Set :=
| GeneratePdf
| CheckPdf (output_path : string)
| CheckPdfFinal (output_path : string)
| HideProgress.

Record Timer : Set := { delay_ms : Z; callback : Callback }.

(** The dialog shown by [on_all_conversions_finished]: either every file is
    reported converted, or the counts with the first five error lines and,
    when there are more, how many were left out. *)
Inductive Summary : Set :=
| AllDone (success_count : Z)
| WithErrors (success_count failure_count : Z) (shown : list string)
             (more : option Z).

(** Observations, in the order they happen.  The program does not keep this
    history; the handlers below only append to it, so that properties of a
    whole run can be stated. *)
Inductive Obs : Set :=
| ObsProgress (value : Z)
| ObsPrompt (idx : nat) (reply : Reply)
| ObsSetHtml (idx : nat) (html base_url : string)
| ObsEmit (success : bool)
| ObsHandler (idx : nat) (success : bool)
| ObsError (idx : nat) (entry : string)
| ObsPrint (idx : nat) (output_path : string)
| ObsFinished (idx : nat) (summary : Summary)
| ObsUncaught (exn : string).

(** The attributes of [self] that the renderer and the pipeline use, the
    state Qt keeps for them (receivers connected to [web_view.loadFinished],
    page loads and single-shot timers still to be answered), and the
    history. *)
Record Converter : Set := {
  pagebreak_input : string;
  include_toc : bool;
  confirm_overwrite : bool;
  output_folder : string;
  current_files : list string;
  current_conversion_index : nat;
  total_files : nat;
  conversion_errors : list string;
  current_output_path : string;
  progress_bar : Z;
  progress_visible : bool;
  convert_btn_enabled : bool;
  connections : nat;
  loads : nat;
  timers : list Timer;
  crashed : bool;
  log : list Obs
}.

(** The window as [__init__] leaves it once the user has chosen files,
    an output folder and the options. *)
Definition window (marker : string) (toc confirm : bool) (folder : string)
    (files : list string) : Converter :=
  {| pagebreak_input := marker; include_toc := toc;
     confirm_overwrite := confirm; output_folder := folder;
     current_files := files; current_conversion_index := 0; total_files := 0;
     conversion_errors := []; current_output_path := EmptyString;
     progress_bar := 0; progress_visible := false;
     convert_btn_enabled := true; connections := 0; loads := 0; timers := [];
     crashed := false; log := [] |}.

Definition set_pagebreak_input (v : string) (s : Converter) : Converter :=
  {| pagebreak_input := v; include_toc := include_toc s;
     confirm_overwrite := confirm_overwrite s;
     output_folder := output_folder s; current_files := current_files s;
     current_conversion_index := current_conversion_index s;
     total_files := total_files s; conversion_errors := conversion_errors s;
     current_output_path := current_output_path s;
     progress_bar := progress_bar s; progress_visible := progress_visible s;
     convert_btn_enabled := convert_btn_enabled s;
     connections := connections s; loads := loads s; timers := timers s;
     crashed := crashed s; log := log s |}.

Definition set_index (v : nat) (s : Converter) : Converter :=
  {| pagebreak_input := pagebreak_input s; include_toc := include_toc s;
     confirm_overwrite := confirm_overwrite s;
     output_folder := output_folder s; current_files := current_files s;
     current_conversion_index := v;
     total_files := total_files s; conversion_errors := conversion_errors s;
     current_output_path := current_output_path s;
     progress_bar := progress_bar s; progress_visible := progress_visible s;
     convert_btn_enabled := convert_btn_enabled s;
     connections := connections s; loads := loads s; timers := timers s;
     crashed := crashed s; log := log s |}.

Definition set_total (v : nat) (s : Converter) : Converter :=
  {| pagebreak_input := pagebreak_input s; include_toc := include_toc s;
     confirm_overwrite := confirm_overwrite s;
     output_folder := output_folder s; current_files := current_files s;
     current_conversion_index := current_conversion_index s;
     total_files := v; conversion_errors := conversion_errors s;
     current_output_path := current_output_path s;
     progress_bar := progress_bar s; progress_visible := progress_visible s;
     convert_btn_enabled := convert_btn_enabled s;
     connections := connections s; loads := loads s; timers := timers s;
     crashed := crashed s; log := log s |}.

Definition set_errors (v : list string) (s : Converter) : Converter :=
  {| pagebreak_input := pagebreak_input s; include_toc := include_toc s;
     confirm_overwrite := confirm_overwrite s;
     output_folder := output_folder s; current_files := current_files s;
     current_conversion_index := current_conversion_index s;
     total_files := total_files s; conversion_errors := v;
     current_output_path := current_output_path s;
     progress_bar := progress_bar s; progress_visible := progress_visible s;
     convert_btn_enabled := convert_btn_enabled s;
     connections := connections s; loads := loads s; timers := timers s;
     crashed := crashed s; log := log s |}.

Definition set_output_path (v : string) (s : Converter) : Converter :=
  {| pagebreak_input := pagebreak_input s; include_toc := include_toc s;
     confirm_overwrite := confirm_overwrite s;
     output_folder := output_folder s; current_files := current_files s;
     current_conversion_index := current_conversion_index s;
     total_files := total_files s; conversion_errors := conversion_errors s;
     current_output_path := v;
     progress_bar := progress_bar s; progress_visible := progress_visible s;
     convert_btn_enabled := convert_btn_enabled s;
     connections := connections s; loads := loads s; timers := timers s;
     crashed := crashed s; log := log s |}.

Definition set_progress_bar (v : Z) (s : Converter) : Converter :=
  {| pagebreak_input := pagebreak_input s; include_toc := include_toc s;
     confirm_overwrite := confirm_overwrite s;
     output_folder := output_folder s; current_files := current_files s;
     current_conversion_index := current_conversion_index s;
     total_files := total_files s; conversion_errors := conversion_errors s;
     current_output_path := current_output_path s;
     progress_bar := v; progress_visible := progress_visible s;
     convert_btn_enabled := convert_btn_enabled s;
     connections := connections s; loads := loads s; timers := timers s;
     crashed := crashed s; log := log s |}.

Definition set_visible (v : bool) (s : Converter) : Converter :=
  {| pagebreak_input := pagebreak_input s; include_toc := include_toc s;
     confirm_overwrite := confirm_overwrite s;
     output_folder := output_folder s; current_files := current_files s;
     current_conversion_index := current_conversion_index s;
     total_files := total_files s; conversion_errors := conversion_errors s;
     current_output_path := current_output_path s;
     progress_bar := progress_bar s; progress_visible := v;
     convert_btn_enabled := convert_btn_enabled s;
     connections := connections s; loads := loads s; timers := timers s;
     crashed := crashed s; log := log s |}.

Definition set_convert_btn (v : bool) (s : Converter) : Converter :=
  {| pagebreak_input := pagebreak_input s; include_toc := include_toc s;
     confirm_overwrite := confirm_overwrite s;
     output_folder := output_folder s; current_files := current_files s;
     current_conversion_index := current_conversion_index s;
     total_files := total_files s; conversion_errors := conversion_errors s;
     current_output_path := current_output_path s;
     progress_bar := progress_bar s; progress_visible := progress_visible s;
     convert_btn_enabled := v;
     connections := connections s; loads := loads s; timers := timers s;
     crashed := crashed s; log := log s |}.

Definition set_connections (v : nat) (s : Converter) : Converter :=
  {| pagebreak_input := pagebreak_input s; include_toc := include_toc s;
     confirm_overwrite := confirm_overwrite s;
     output_folder := output_folder s; current_files := current_files s;
     current_conversion_index := current_conversion_index s;
     total_files := total_files s; conversion_errors := conversion_errors s;
     current_output_path := current_output_path s;
     progress_bar := progress_bar s; progress_visible := progress_visible s;
     convert_btn_enabled := convert_btn_enabled s;
     connections := v; loads := loads s; timers := timers s;
     crashed := crashed s; log := log s |}.

Definition set_loads (v : nat) (s : Converter) : Converter :=
  {| pagebreak_input := pagebreak_input s; include_toc := include_toc s;
     confirm_overwrite := confirm_overwrite s;
     output_folder := output_folder s; current_files := current_files s;
     current_conversion_index := current_conversion_index s;
     total_files := total_files s; conversion_errors := conversion_errors s;
     current_output_path := current_output_path s;
     progress_bar := progress_bar s; progress_visible := progress_visible s;
     convert_btn_enabled := convert_btn_enabled s;
     connections := connections s; loads := v; timers := timers s;
     crashed := crashed s; log := log s |}.

Definition set_timers (v : list Timer) (s : Converter) : Converter :=
  {| pagebreak_input := pagebreak_input s; include_toc := include_toc s;
     confirm_overwrite := confirm_overwrite s;
     output_folder := output_folder s; current_files := current_files s;
     current_conversion_index := current_conversion_index s;
     total_files := total_files s; conversion_errors := conversion_errors s;
     current_output_path := current_output_path s;
     progress_bar := progress_bar s; progress_visible := progress_visible s;
     convert_btn_enabled := convert_btn_enabled s;
     connections := connections s; loads := loads s; timers := v;
     crashed := crashed s; log := log s |}.

Definition set_crashed (v : bool) (s : Converter) : Converter :=
  {| pagebreak_input := pagebreak_input s; include_toc := include_toc s;
     confirm_overwrite := confirm_overwrite s;
     output_folder := output_folder s; current_files := current_files s;
     current_conversion_index := current_conversion_index s;
     total_files := total_files s; conversion_errors := conversion_errors s;
     current_output_path := current_output_path s;
     progress_bar := progress_bar s; progress_visible := progress_visible s;
     convert_btn_enabled := convert_btn_enabled s;
     connections := connections s; loads := loads s; timers := timers s;
     crashed := v; log := log s |}.

Definition set_log (v : list Obs) (s : Converter) : Converter :=
  {| pagebreak_input := pagebreak_input s; include_toc := include_toc s;
     confirm_overwrite := confirm_overwrite s;
     output_folder := output_folder s; current_files := current_files s;
     current_conversion_index := current_conversion_index s;
     total_files := total_files s; conversion_errors := conversion_errors s;
     current_output_path := current_output_path s;
     progress_bar := progress_bar s; progress_visible := progress_visible s;
     convert_btn_enabled := convert_btn_enabled s;
     connections := connections s; loads := loads s; timers := timers s;
     crashed := crashed s; log := v |}.

Definition observe (o : Obs) (s : Converter) : Converter :=
  set_log (log s ++ [o])%list s.

End Gui.

(** ** The renderer: [markdown_to_html] *)

Module Renderer.
Import PyStr Gui.

(** [self.page_break_marker], set once by [__init__]. *)
Definition page_break_marker : string := "<!-- pagebreak -->".

(** The element every marker is replaced with. *)
Definition page_break_div : string :=
  "<div class=" ++ dq ++ "page-break" ++ dq ++ " style=" ++ dq
  ++ "page-break-after: always;" ++ dq ++ "></div>".

(** The extension list, with the falsy entry of an unchecked box filtered
    out. *)
Definition extensions (self : Converter) : list string :=
  flat_map (fun ext : option string =>
              match ext with
              | Some e => match e with EmptyString => [] | _ => [e] end
              | None => []
              end)
    [ Some "fenced_code"; Some "tables";
      (if include_toc self then Some "toc" else None);
      Some "nl2br"; Some "sane_lists"; Some "codehilite"; Some "attr_list";
      Some "def_list"; Some "footnotes"; Some "md_in_html"; Some "meta" ].

(** The text of the f-string before and after [{body_html}], line by line. *)
Definition template_head_lines : list string :=
  [ "";
  "<!DOCTYPE html>";
  "<html lang=" ++ dq ++ "ja" ++ dq ++ ">";
  "<head>";
  "    <meta charset=" ++ dq ++ "utf-8" ++ dq ++ ">";
  "    <meta name=" ++ dq ++ "viewport" ++ dq ++ " content=" ++ dq ++ "width=device-width, initial-scale=1.0" ++ dq ++ ">";
  "    <meta name=" ++ dq ++ "color-scheme" ++ dq ++ " content=" ++ dq ++ "light" ++ dq ++ ">";
  "    <meta name=" ++ dq ++ "print-color-adjust" ++ dq ++ " content=" ++ dq ++ "exact" ++ dq ++ ">";
  "    <style>";
  "        body {";
  "            font-family: -apple-system, BlinkMacSystemFont, 'Segoe UI', 'Helvetica Neue', 'Hiragino Sans', Arial, 'Meiryo', sans-serif;";
  "            line-height: 1.6;";
  "            color: #333;";
  "            max-width: 900px;";
  "            margin: 20px auto;";
  "            padding: 20px;";
  "            background: white;";
  "            box-shadow: 0 0 10px rgba(0,0,0,0.1);";
  "            border-radius: 4px;";
  "        }";
  "        h1, h2, h3, h4, h5, h6 {";
  "            margin-top: 24px;";
  "            margin-bottom: 16px;";
  "            font-weight: 600;";
  "            line-height: 1.25;";
  "        }";
  "        h1 { font-size: 2em; border-bottom: 1px solid #eaecef; padding-bottom: .3em; }";
  "        h2 { font-size: 1.5em; border-bottom: 1px solid #eaecef; padding-bottom: .3em; }";
  "        h3 { font-size: 1.25em; }";
  "        code {";
  "            background-color: rgba(27,31,35,.05);";
  "            border-radius: 3px;";
  "            font-family: 'SFMono-Regular', Consolas, 'Liberation Mono', Menlo, monospace;";
  "            font-size: 85%;";
  "            margin: 0;";
  "            padding: .2em .4em;";
  "        }";
  "        pre {";
  "            background-color: #f6f8fa;";
  "            border-radius: 3px;";
  "            font-size: 85%;";
  "            line-height: 1.45;";
  "            overflow: auto;";
  "            padding: 16px;";
  "        }";
  "        pre code {";
  "            background-color: transparent;";
  "            border: 0;";
  "            display: inline;";
  "            line-height: inherit;";
  "            margin: 0;";
  "            overflow: visible;";
  "            padding: 0;";
  "            word-wrap: normal;";
  "        }";
  "        table {";
  "            border-collapse: collapse;";
  "            margin: 16px 0;";
  "            width: 100%;";
  "            display: table;";
  "        }";
  "        table th, table td {";
  "            border: 1px solid #dfe2e5;";
  "            padding: 6px 13px;";
  "        }";
  "        table th {";
  "            background-color: #f6f8fa;";
  "            font-weight: 600;";
  "        }";
  "        blockquote {";
  "            border-left: 4px solid #dfe2e5;";
  "            color: #6a737d;";
  "            padding-left: 16px;";
  "            margin: 16px 0;";
  "        }";
  "        img {";
  "            max-width: 100%;";
  "            height: auto;";
  "            -webkit-print-color-adjust: exact !important;";
  "            print-color-adjust: exact !important;";
  "        }";
  "        .mermaid {";
  "            text-align: center;";
  "            margin: 16px 0;";
  "            padding: 16px;";
  "            background-color: #f8f9fa;";
  "            border: 1px solid #e9ecef;";
  "            border-radius: 4px;";
  "        }";
  "        /* 印刷用スタイル */";
  "        @media print {";
  "            body {";
  "                margin: 0;";
  "                padding: 10mm;";
  "                font-size: 10pt;";
  "                color: #333 !important;";
  "                -webkit-print-color-adjust: exact !important;";
  "                print-color-adjust: exact !important;";
  "            }";
  "            .page-break {";
  "                page-break-after: always;";
  "                break-after: page;";
  "            }";
  "            h1, h2, h3 {";
  "                page-break-after: avoid;";
  "                color: #333 !important;";
  "            }";
  "            pre, table, blockquote {";
  "                page-break-inside: avoid;";
  "            }";
  "            code {";
  "                background-color: rgba(27,31,35,.05) !important;";
  "                -webkit-print-color-adjust: exact !important;";
  "                print-color-adjust: exact !important;";
  "            }";
  "            pre {";
  "                background-color: #f6f8fa !important;";
  "                -webkit-print-color-adjust: exact !important;";
  "                print-color-adjust: exact !important;";
  "            }";
  "            table th {";
  "                background-color: #f6f8fa !important;";
  "                -webkit-print-color-adjust: exact !important;";
  "                print-color-adjust: exact !important;";
  "            }";
  "            blockquote {";
  "                border-left: 4px solid #dfe2e5 !important;";
  "                color: #6a737d !important;";
  "                -webkit-print-color-adjust: exact !important;";
  "                print-color-adjust: exact !important;";
  "            }";
  "            .mermaid {";
  "                background-color: #f8f9fa !important;";
  "                border: 1px solid #e9ecef !important;";
  "                -webkit-print-color-adjust: exact !important;";
  "                print-color-adjust: exact !important;";
  "            }";
  "            img {";
  "                -webkit-print-color-adjust: exact !important;";
  "                print-color-adjust: exact !important;";
  "                color-adjust: exact !important;";
  "            }";
  "            * {";
  "                -webkit-print-color-adjust: exact !important;";
  "                print-color-adjust: exact !important;";
  "            }";
  "        }";
  "    </style>";
  "</head>";
  "<body>";
  "    " ].

Definition template_tail_lines : list string :=
  [ "";
  "    <script>";
  "        // Mermaidコードブロックを処理（エラーハンドリング付き）";
  "        try {";
  "            if (typeof document !== 'undefined' && document.querySelectorAll) {";
  "                document.querySelectorAll('pre code.language-mermaid').forEach(function(element) {";
  "                    try {";
  "                        const mermaidCode = element.textContent;";
  "                        const mermaidDiv = document.createElement('div');";
  "                        mermaidDiv.className = 'mermaid';";
  "                        mermaidDiv.innerHTML = '<pre style=" ++ dq ++ "text-align: left; background: #f8f9fa; padding: 10px; border-radius: 4px;" ++ dq ++ "><code>' + ";
  "                                              mermaidCode.replace(/</g, '&lt;').replace(/>/g, '&gt;') + '</code></pre>';";
  "                        if (element.parentNode && element.parentNode.parentNode) {";
  "                            element.parentNode.parentNode.replaceChild(mermaidDiv, element.parentNode);";
  "                        }";
  "                    } catch (e) {";
  "                        console.log('Mermaid processing error:', e);";
  "                    }";
  "                });";
  "            }";
  "        } catch (e) {";
  "            console.log('Document processing error:', e);";
  "        }";
  "    </script>";
  "</body>";
  "</html>";
  "" ].

Definition template_head : string := String.concat nl template_head_lines.
Definition template_tail : string := String.concat nl template_tail_lines.

Definition html_template (body_html : string) : string :=
  template_head ++ body_html ++ template_tail.

Section Markdown.

(** The Markdown library: [Markdown extensions] builds an instance and
    [convert md text] returns the HTML fragment together with the instance
    as the call leaves it (an instance keeps state between conversions). *)
Variable Md : Type.
Variable Markdown : list string -> Md.
Variable convert : Md -> string -> string * Md.

Definition markdown_to_html (self : Converter) (markdown_content : string)
  : string :=
  let page_break_marker := py_or (pagebreak_input self) page_break_marker in
  let markdown_content :=
    str_replace markdown_content page_break_marker page_break_div in
  let md := Markdown (extensions self) in
  let body_html := fst (convert md markdown_content) in
  html_template body_html.

End Markdown.

End Renderer.

(** ** The batch pipeline *)

Module Pipeline.
Import PyStr Gui.
Local Open Scope nat_scope.

(** Everything the handlers ask of their environment.  Answers that depend
    on the moment are indexed by the cursor at the time of the question:
    the cursor never goes back, and every question is asked at most once
    per cursor value. *)
Record World : Type := {
  stem : string -> string;                  (* Path(p).stem *)
  parent : string -> string;                (* str(Path(p).parent) *)
  joinpath : string -> string -> string;    (* str(Path(d) / name) *)
  render : Converter -> string -> string;   (* self.markdown_to_html *)
  output_exists : nat -> bool;              (* output_path.exists() *)
  overwrite_reply : nat -> Reply;           (* the button pressed *)
  read_file : nat -> Read;                  (* open(...).read() *)
  print_to_pdf : nat -> option string;      (* Some e: printToPdf raises e *)
  probe_first : nat -> Probe;               (* the check after 10 s *)
  probe_final : nat -> Probe;               (* the check 5 s later *)
  disconnect_error : string                 (* str of the TypeError raised by
                                               disconnect() with no receiver *)
}.

(** [int((index * 100) / total_files)].  Python divides as floats and
    truncates; on the non-negative integers involved this is the floor of
    the quotient.  A job has at least one file, so the division by zero
    that Python would raise does not arise. *)
Definition file_progress (index total : nat) : Z :=
  (Z.of_nat index * 100) / Z.of_nat total.

(** [int(share / total_files)]. *)
Definition step_progress (share : Z) (total : nat) : Z :=
  share / Z.of_nat total.

(** [progress_bar.setValue(v)]: the bar (range 0 to 100, never changed)
    ignores a value outside its range. *)
Definition setValue (v : Z) (s : Converter) : Converter :=
  let s := if ((0 <=? v) && (v <=? 100))%Z then set_progress_bar v s else s in
  observe (ObsProgress (progress_bar s)) s.

(** [QTimer.singleShot(ms, cb)]. *)
Definition singleShot (ms : Z) (cb : Callback) (s : Converter) : Converter :=
  set_timers (timers s ++ [{| delay_ms := ms; callback := cb |}])%list s.

(** [web_view.loadFinished.connect(self.on_html_loaded)]: one more receiver,
    whether or not the slot is connected already. *)
Definition connect (s : Converter) : Converter :=
  set_connections (S (connections s)) s.

(** [web_view.loadFinished.disconnect()]: every receiver is removed. *)
Definition disconnect (s : Converter) : Converter := set_connections 0 s.

(** [web_view.setHtml(html, base_url)]: the page starts loading and will
    report the end of the load. *)
Definition setHtml (index : nat) (html base_url : string) (s : Converter)
  : Converter :=
  set_loads (S (loads s)) (observe (ObsSetHtml index html base_url) s).

(** [self.conversion_errors.append(entry)]. *)
Definition record_error (entry : string) (s : Converter) : Converter :=
  observe (ObsError (current_conversion_index s) entry)
    (set_errors (conversion_errors s ++ [entry])%list s).

(** [self.current_conversion_index += 1]. *)
Definition advance (s : Converter) : Converter :=
  set_index (S (current_conversion_index s)) s.

(** An exception that no handler catches leaves the slot; PyQt5 then aborts
    the process. *)
Definition uncaught (exn : string) (s : Converter) : Converter :=
  set_crashed true (observe (ObsUncaught exn) s).

Definition summary_of (total : nat) (errors : list string) : Summary :=
  let failures := Z.of_nat (List.length errors) in
  let success_count := (Z.of_nat total - failures)%Z in
  if (failures =? 0)%Z then AllDone success_count
  else WithErrors success_count failures (firstn 5 errors)
         (if (5 <? failures)%Z then Some (failures - 5)%Z else None).

Definition on_all_conversions_finished (s : Converter) : Converter :=
  let s := setValue 100 s in
  let s := set_convert_btn true s in
  let s := observe (ObsFinished (current_conversion_index s)
                      (summary_of (total_files s) (conversion_errors s))) s in
  singleShot 2000 HideProgress s.

Section Handlers.

Variable w : World.

(** [convert_next_file].  The method calls itself after a skipped or
    unreadable file; [fuel] counts the files that remain, so the recursion
    is structural.  With [fuel = total_files - index] the guard of the first
    line holds whenever the fuel is used up. *)
Fixpoint convert_next_file_from (fuel : nat) (s : Converter) : Converter :=
  if total_files s <=? current_conversion_index s then
    on_all_conversions_finished s
  else
    match fuel with
    | 0 => s
    | S fuel' =>
        match nth_error (current_files s) (current_conversion_index s) with
        | None => uncaught "IndexError" s
        | Some current_file =>
            let index := current_conversion_index s in
            let file_name := stem w current_file in
            let s := setValue (file_progress index (total_files s)) s in
            let output_path :=
              joinpath w (output_folder s) (file_name ++ ".pdf") in
            let convert (s : Converter) : Converter :=
              match read_file w index with
              | ReadError e =>
                  let s := record_error (file_name ++ ".md: " ++ e) s in
                  convert_next_file_from fuel' (advance s)
              | Content content =>
                  let html_content := render w s content in
                  let s :=
                    setValue (file_progress index (total_files s)
                              + step_progress 20 (total_files s)) s in
                  let base_url := parent w current_file ++ "/" in
                  let s := set_output_path output_path s in
                  let s := connect s in
                  setHtml index html_content base_url s
              end in
            if output_exists w index && confirm_overwrite s then
              let reply := overwrite_reply w index in
              let s := observe (ObsPrompt index reply) s in
              match reply with
              | Cancel => on_all_conversions_finished s
              | No => convert_next_file_from fuel' (advance s)
              | Yes => convert s
              end
            else convert s
        end
    end.

Definition convert_next_file (s : Converter) : Converter :=
  convert_next_file_from (total_files s - current_conversion_index s) s.

(** The pattern every failure branch ends with: look the current file up,
    append the error, advance, continue.  The lookup sits in an [except]
    clause (or outside any [try]), so an index past the list escapes. *)
Definition fail_current (reason : string) (s : Converter) : Converter :=
  match nth_error (current_files s) (current_conversion_index s) with
  | None => uncaught "IndexError" s
  | Some current_file =>
      let s := record_error (stem w current_file ++ ".md: " ++ reason) s in
      convert_next_file (advance s)
  end.

Definition on_single_conversion_finished (success : bool)
    (output_path : string) (s : Converter) : Converter :=
  let continue (s : Converter) : Converter :=
    let s :=
      setValue (file_progress (S (current_conversion_index s)) (total_files s))
        s in
    convert_next_file (advance s) in
  if success then continue s
  else
    match nth_error (current_files s) (current_conversion_index s) with
    | None => uncaught "IndexError" s
    | Some current_file =>
        continue
          (record_error (stem w current_file ++ ".md: 変換に失敗しました") s)
    end.

Definition on_html_loaded (success : bool) (s : Converter) : Converter :=
  let s := observe (ObsHandler (current_conversion_index s) success) s in
  if negb success then fail_current "HTMLのロードに失敗しました" s
  else
    match connections s with
    | 0 => fail_current (disconnect_error w) s
    | S _ =>
        let s := disconnect s in
        let s :=
          setValue (file_progress (current_conversion_index s) (total_files s)
                    + step_progress 40 (total_files s)) s in
        singleShot 3000 GeneratePdf s
    end.

Definition generate_pdf (s : Converter) : Converter :=
  let s :=
    setValue (file_progress (current_conversion_index s) (total_files s)
              + step_progress 60 (total_files s)) s in
  let output_path := current_output_path s in
  match print_to_pdf w (current_conversion_index s) with
  | None =>
      let s := observe (ObsPrint (current_conversion_index s) output_path) s in
      singleShot 10000 (CheckPdf output_path) s
  | Some pdf_error => fail_current ("PDF生成エラー - " ++ pdf_error) s
  end.

Definition check_pdf_generation (output_path : string) (s : Converter)
  : Converter :=
  match probe_first w (current_conversion_index s) with
  | Size file_size =>
      if (1024 <? file_size)%N then
        on_single_conversion_finished true output_path s
      else singleShot 5000 (CheckPdfFinal output_path) s
  | Missing => singleShot 5000 (CheckPdfFinal output_path) s
  | StatError e => fail_current ("PDF生成チェックエラー - " ++ e) s
  end.

Definition check_pdf_generation_final (output_path : string) (s : Converter)
  : Converter :=
  match probe_final w (current_conversion_index s) with
  | Size file_size =>
      if (0 <? file_size)%N then
        match nth_error (current_files s) (current_conversion_index s) with
        | None => uncaught "IndexError" s
        | Some _ => on_single_conversion_finished true output_path s
        end
      else fail_current "PDFファイルが空です（0バイト）" s
  | Missing => fail_current "PDFファイルが生成されませんでした" s
  | StatError e => fail_current ("PDF生成最終チェックエラー - " ++ e) s
  end.

(** [convert_to_pdf]: the button's slot. *)
Definition convert_to_pdf (s : Converter) : Converter :=
  match current_files s, output_folder s with
  | [], _ => s
  | _, EmptyString => s
  | _, _ =>
      let s := set_index 0 s in
      let s := set_total (List.length (current_files s)) s in
      let s := set_errors [] s in
      let s := set_visible true s in
      let s := setValue 0 s in
      let s := set_convert_btn false s in
      convert_next_file s
  end.

(** *** The Qt event loop *)

(** What the event loop delivers: the page reports the end of a load, or the
    pending single-shot timer number [i] expires. *)
Inductive Event : Set :=
| LoadFinished (success : bool)
| Timeout (i : nat).

(** Emission of [loadFinished(success)] to [n] receivers connected when the
    emission starts.  Every [connect] call adds a receiver, also of the same
    slot, and each one is called; a receiver disconnected while the emission
    runs is not called any more, and one connected meanwhile has to wait for
    the next emission.  The only [disconnect()] in the program removes all
    receivers without connecting a new one, so "no receiver left" tells that
    the remaining ones were removed. *)
Fixpoint deliver (n : nat) (success : bool) (s : Converter) : Converter :=
  match n with
  | 0 => s
  | S n' =>
      if crashed s then s
      else if connections s =? 0 then s
      else deliver n' success (on_html_loaded success s)
  end.

Definition emit_loadFinished (success : bool) (s : Converter) : Converter :=
  match loads s with
  | 0 => s
  | S pending =>
      let s := set_loads pending s in
      let s := observe (ObsEmit success) s in
      deliver (connections s) success s
  end.

Fixpoint remove_nth {A : Type} (i : nat) (l : list A) : list A :=
  match l, i with
  | [], _ => []
  | _ :: l', 0 => l'
  | x :: l', S i' => x :: remove_nth i' l'
  end.

Definition run_callback (cb : Callback) (s : Converter) : Converter :=
  match cb with
  | GeneratePdf => generate_pdf s
  | CheckPdf output_path => check_pdf_generation output_path s
  | CheckPdfFinal output_path => check_pdf_generation_final output_path s
  | HideProgress => set_visible false s
  end.

Definition fire_timer (i : nat) (s : Converter) : Converter :=
  match nth_error (timers s) i with
  | None => s
  | Some t => run_callback (callback t) (set_timers (remove_nth i (timers s)) s)
  end.

Definition step (e : Event) (s : Converter) : Converter :=
  if crashed s then s
  else
    match e with
    | LoadFinished success => emit_loadFinished success s
    | Timeout i => fire_timer i s
    end.

(** A run: the events in the order the loop delivers them. *)
Definition exec (events : list Event) (s : Converter) : Converter :=
  fold_left (fun s e => step e s) events s.

(** An event the loop can deliver in state [s]. *)
Definition enabled (e : Event) (s : Converter) : bool :=
  negb (crashed s) &&
  match e with
  | LoadFinished _ => negb (loads s =? 0)
  | Timeout i => i <? List.length (timers s)
  end.

End Handlers.

End Pipeline.

(** ** Facts about the string operations *)

Module PyStrFacts.
Import PyStr.

(** *** Prefix matching *)

Lemma strip_prefix_app (p r : string) : strip_prefix p (p ++ r) = Some r.
Proof.
induction p as [|a p IH]; simpl; [reflexivity|].
now rewrite Ascii.eqb_refl.
Qed.

Lemma strip_prefix_Some (p s r : string) :
strip_prefix p s = Some r -> s = p ++ r.
Proof.
revert s; induction p as [|a p IH]; simpl; intros s H.
- now inversion H.
- destruct s as [|b s]; [discriminate|].
  destruct (Ascii.eqb_spec a b) as [->|]; [|discriminate].
  now rewrite (IH _ H).
Qed.

Lemma append_assoc (s t u : string) : (s ++ t) ++ u = s ++ (t ++ u).
Proof. induction s; simpl; congruence. Qed.

Lemma append_nil_r (s : string) : s ++ EmptyString = s.
Proof. induction s; simpl; congruence. Qed.

Lemma strip_prefix_extend (p u r t : string) :
strip_prefix p u = Some r -> strip_prefix p (u ++ t) = Some (r ++ t).
Proof.
intros H. apply strip_prefix_Some in H. subst u.
rewrite append_assoc. apply strip_prefix_app.
Qed.

Lemma append_length (s t : string) :
String.length (s ++ t) = String.length s + String.length t.
Proof. induction s; simpl; congruence. Qed.

(** *** The scan underlying [replace], [count] and [split] *)

Section Scan.
Variables (a : ascii) (p : string).
Local Abbreviation old := (String a p).

Lemma strip_shorter (s r : string) :
  strip_prefix old s = Some r -> String.length r < String.length s.
Proof.
  intros H. apply strip_prefix_Some in H. subst s.
  simpl. rewrite append_length. lia.
Qed.

Lemma scan_ind (P : string -> Prop) :
  P EmptyString ->
  (forall rest, P rest -> P (old ++ rest)) ->
  (forall c s, strip_prefix old (String c s) = None -> P s -> P (String c s)) ->
  forall s, P s.
Proof.
  intros H0 Hm Hs s.
  remember (String.length s) as n eqn:Hn.
  revert s Hn. induction n as [n IH] using lt_wf_ind. intros s Hn.
  destruct (strip_prefix old s) as [r|] eqn:E.
  - pose proof (strip_shorter _ _ E) as Hlt.
    apply strip_prefix_Some in E. subst s.
    apply Hm. apply (IH (String.length r)); [lia | reflexivity].
  - destruct s as [|c s]; [exact H0|].
    apply Hs; [exact E|]. apply (IH (String.length s)); [simpl in Hn; lia | reflexivity].
Qed.

Variable new : string.

Lemma replace_from_fuel (n : nat) :
  forall f1 f2 s, String.length s <= n -> String.length s <= f1 -> String.length s <= f2 ->
    replace_from f1 old new s = replace_from f2 old new s.
Proof.
  induction n as [|n IH]; intros f1 f2 s Hn H1 H2.
  - destruct s; [|simpl in Hn; lia]. destruct f1, f2; reflexivity.
  - destruct f1 as [|f1], f2 as [|f2].
    + reflexivity.
    + destruct s; [reflexivity | simpl in H1; lia].
    + destruct s; [reflexivity | simpl in H2; lia].
    + cbn [replace_from].
      destruct (strip_prefix old s) as [r|] eqn:E.
      * pose proof (strip_shorter _ _ E). f_equal. apply IH; lia.
      * destruct s as [|c s]; [reflexivity|]. simpl in *. f_equal. apply IH; lia.
Qed.

Lemma str_replace_nil : str_replace EmptyString old new = EmptyString.
Proof. reflexivity. Qed.

Lemma str_replace_match (rest : string) :
  str_replace (old ++ rest) old new = new ++ str_replace rest old new.
Proof.
  unfold str_replace.
  change (String a p ++ rest) with (String a (p ++ rest)).
  cbn [String.length replace_from].
  change (String a (p ++ rest)) with (old ++ rest).
  rewrite strip_prefix_app. f_equal.
  apply (replace_from_fuel (String.length (p ++ rest))); rewrite ?append_length; lia.
Qed.

Lemma str_replace_skip (c : ascii) (s : string) :
  strip_prefix old (String c s) = None ->
  str_replace (String c s) old new = String c (str_replace s old new).
Proof.
  intros E. unfold str_replace. cbn [String.length replace_from].
  rewrite E. reflexivity.
Qed.

Lemma count_from_fuel (n : nat) :
  forall f1 f2 s, String.length s <= n -> String.length s <= f1 -> String.length s <= f2 ->
    count_from f1 old s = count_from f2 old s.
Proof.
  induction n as [|n IH]; intros f1 f2 s Hn H1 H2.
  - destruct s; [|simpl in Hn; lia]. destruct f1, f2; reflexivity.
  - destruct f1 as [|f1], f2 as [|f2].
    + reflexivity.
    + destruct s; [reflexivity | simpl in H1; lia].
    + destruct s; [reflexivity | simpl in H2; lia].
    + cbn [count_from].
      destruct (strip_prefix old s) as [r|] eqn:E.
      * pose proof (strip_shorter _ _ E). f_equal. apply IH; lia.
      * destruct s as [|c s]; [reflexivity|]. simpl in *. apply IH; lia.
Qed.

Lemma str_count_nil : str_count EmptyString old = 0.
Proof. reflexivity. Qed.

Lemma str_count_match (rest : string) :
  str_count (old ++ rest) old = S (str_count rest old).
Proof.
  unfold str_count.
  change (String a p ++ rest) with (String a (p ++ rest)).
  cbn [String.length count_from].
  change (String a (p ++ rest)) with (old ++ rest).
  rewrite strip_prefix_app. f_equal.
  apply (count_from_fuel (String.length (p ++ rest))); rewrite ?append_length; lia.
Qed.

Lemma str_count_skip (c : ascii) (s : string) :
  strip_prefix old (String c s) = None ->
  str_count (String c s) old = str_count s old.
Proof.
  intros E. unfold str_count. cbn [String.length count_from].
  rewrite E. reflexivity.
Qed.

Lemma split_from_fuel (n : nat) :
  forall f1 f2 s, String.length s <= n -> String.length s <= f1 -> String.length s <= f2 ->
    split_from f1 old s = split_from f2 old s.
Proof.
  induction n as [|n IH]; intros f1 f2 s Hn H1 H2.
  - destruct s; [|simpl in Hn; lia]. destruct f1, f2; reflexivity.
  - destruct f1 as [|f1], f2 as [|f2].
    + reflexivity.
    + destruct s; [reflexivity | simpl in H1; lia].
    + destruct s; [reflexivity | simpl in H2; lia].
    + cbn [split_from].
      destruct (strip_prefix old s) as [r|] eqn:E.
      * pose proof (strip_shorter _ _ E). f_equal. apply IH; lia.
      * destruct s as [|c s]; [reflexivity|]. simpl in *. f_equal. apply IH; lia.
Qed.

Lemma str_split_nil : str_split EmptyString old = [EmptyString].
Proof. reflexivity. Qed.

Lemma str_split_match (rest : string) :
  str_split (old ++ rest) old = EmptyString :: str_split rest old.
Proof.
  unfold str_split.
  change (String a p ++ rest) with (String a (p ++ rest)).
  cbn [String.length split_from].
  change (String a (p ++ rest)) with (old ++ rest).
  rewrite strip_prefix_app. f_equal.
  apply (split_from_fuel (String.length (p ++ rest))); rewrite ?append_length; lia.
Qed.

Lemma str_split_skip (c : ascii) (s : string) :
  strip_prefix old (String c s) = None ->
  str_split (String c s) old = cons_head c (str_split s old).
Proof.
  intros E. unfold str_split. cbn [String.length split_from].
  rewrite E. reflexivity.
Qed.

Lemma str_split_cons (s : string) : exists x xs, str_split s old = x :: xs.
Proof.
  induction s as [|rest IH|c s E IH] using scan_ind.
  - now exists EmptyString, [].
  - rewrite str_split_match. eauto.
  - rewrite (str_split_skip _ _ E). destruct IH as (x & xs & ->). simpl. eauto.
Qed.

(** [s.replace(old, new) == new.join(s.split(old))], and
    [old.join(s.split(old)) == s]. *)
Lemma concat_cons_head (sep : string) (c : ascii) (x : string) (xs : list string) :
  String.concat sep (cons_head c (x :: xs)) = String c (String.concat sep (x :: xs)).
Proof. destruct xs; reflexivity. Qed.

Lemma concat_nil_head (sep : string) (x : string) (xs : list string) :
  String.concat sep (EmptyString :: x :: xs) = sep ++ String.concat sep (x :: xs).
Proof. reflexivity. Qed.

Lemma join_split (s : string) : String.concat old (str_split s old) = s.
Proof.
  induction s as [|rest IH|c s E IH] using scan_ind.
  - reflexivity.
  - rewrite str_split_match. destruct (str_split_cons rest) as (x & xs & Hx).
    rewrite Hx in *. rewrite concat_nil_head. now rewrite IH.
  - rewrite (str_split_skip _ _ E). destruct (str_split_cons s) as (x & xs & Hx).
    rewrite Hx in *. rewrite concat_cons_head. now rewrite IH.
Qed.

Lemma replace_join_split (s : string) :
  str_replace s old new = String.concat new (str_split s old).
Proof.
  induction s as [|rest IH|c s E IH] using scan_ind.
  - reflexivity.
  - rewrite str_replace_match, str_split_match.
    destruct (str_split_cons rest) as (x & xs & Hx).
    rewrite Hx in *. rewrite concat_nil_head. now rewrite IH.
  - rewrite (str_replace_skip _ _ E), (str_split_skip _ _ E).
    destruct (str_split_cons s) as (x & xs & Hx).
    rewrite Hx in *. rewrite concat_cons_head. now rewrite IH.
Qed.

Lemma split_length_count (s : string) :
  List.length (str_split s old) = S (str_count s old).
Proof.
  induction s as [|rest IH|c s E IH] using scan_ind.
  - reflexivity.
  - rewrite str_split_match, str_count_match. simpl. now rewrite IH.
  - rewrite (str_split_skip _ _ E), (str_count_skip _ _ E).
    destruct (str_split_cons s) as (x & xs & Hx). rewrite Hx in *. exact IH.
Qed.

(** Occurrences (possibly overlapping) and the segments of a split. *)
Lemma occurrences_short (s : string) :
  String.length s < String.length old -> occurrences old s = 0.
Proof.
  induction s as [|c s IH]; intros Hlt.
  - reflexivity.
  - cbn [occurrences].
    destruct (strip_prefix old (String c s)) as [r|] eqn:E.
    + apply strip_prefix_Some in E. apply (f_equal String.length) in E.
      rewrite append_length in E. simpl in *. lia.
    + rewrite IH; [reflexivity | simpl in *; lia].
Qed.

Lemma occurrences_self : occurrences old old = 1.
Proof.
  cbn [occurrences].
  replace old with (old ++ EmptyString) at 2 by apply append_nil_r.
  rewrite strip_prefix_app, occurrences_short; [reflexivity | simpl; lia].
Qed.

Lemma split_unfold (s : string) :
  (occurrences old s = 0 /\ str_split s old = [s]) \/
  (exists x s', s = x ++ old ++ s' /\ occurrences old (x ++ old) = 1 /\
                str_split s old = x :: str_split s' old).
Proof.
  induction s as [|rest IH|c s E IH] using scan_ind.
  - left. split; reflexivity.
  - right. exists EmptyString, rest. repeat split.
    + apply occurrences_self.
    + apply str_split_match.
  - rewrite (str_split_skip _ _ E).
    destruct IH as [[H0 Hs] | (x & s' & -> & H1 & Hs)].
    + left. rewrite Hs. split; [|reflexivity].
      cbn [occurrences]. now rewrite E, H0.
    + right. exists (String c x), s'. rewrite Hs. repeat split.
      change (String c x ++ old) with (String c (x ++ old)).
      cbn [occurrences]. rewrite H1.
      destruct (strip_prefix old (String c (x ++ old))) as [r|] eqn:E'; [|reflexivity].
      apply (strip_prefix_extend _ _ _ s') in E'.
      change (String c (x ++ old) ++ s') with (String c ((x ++ old) ++ s')) in E'.
      rewrite append_assoc in E'. congruence.
Qed.

End Scan.

Lemma occurrences_app_ge (m x t : string) :
m <> EmptyString ->
occurrences m x + occurrences m t <= occurrences m (x ++ t).
Proof.
intros Hm. induction x as [|c x IH].
- destruct m; [congruence|]. simpl. lia.
- change (String c x ++ t) with (String c (x ++ t)).
  cbn [occurrences].
  destruct (strip_prefix m (String c x)) as [r|] eqn:E.
  + apply (strip_prefix_extend _ _ _ t) in E.
    change (String c x ++ t) with (String c (x ++ t)) in E. rewrite E. lia.
  + destruct (strip_prefix m (String c (x ++ t))); lia.
Qed.

Lemma contains_app_l (m x t : string) :
m <> EmptyString -> contains m x = true -> contains m (x ++ t) = true.
Proof.
unfold contains. intros Hm H. pose proof (occurrences_app_ge m x t Hm) as Hge.
rewrite negb_true_iff, Nat.eqb_neq in *. lia.
Qed.

Lemma contains_app_r (m x t : string) :
m <> EmptyString -> contains m t = true -> contains m (x ++ t) = true.
Proof.
unfold contains. intros Hm H. pose proof (occurrences_app_ge m x t Hm) as Hge.
rewrite negb_true_iff, Nat.eqb_neq in *. lia.
Qed.

Lemma split_segments_clean (old s : string) :
old <> EmptyString ->
Forall (fun x => contains old x = false) (str_split s old).
Proof.
intros Hne. destruct old as [|a p]; [congruence|].
remember (String.length s) as n eqn:Hn. revert s Hn.
induction n as [n IH] using lt_wf_ind. intros s Hn.
destruct (split_unfold a p s) as [[H0 ->] | (x & s' & -> & H1 & ->)].
- constructor; [|constructor]. unfold contains. now rewrite H0.
- constructor.
  + pose proof (occurrences_app_ge (String a p) x (String a p) Hne) as Hge.
    rewrite occurrences_self in Hge.
    unfold contains. rewrite negb_false_iff, Nat.eqb_eq. lia.
  + apply (IH (String.length s')); [|reflexivity].
    subst n. rewrite !append_length. simpl. lia.
Qed.

End PyStrFacts.

(** ** The renderer's contract *)

Module RendererSpec.
Import PyStr PyStrFacts Gui Renderer.

Lemma py_or_nonempty (x y : string) :
  y <> EmptyString -> py_or x y <> EmptyString.
Proof. destruct x; simpl; [auto | discriminate]. Qed.

Lemma effective_marker_nonempty (self : Converter) :
  py_or (pagebreak_input self) page_break_marker <> EmptyString.
Proof. apply py_or_nonempty. discriminate. Qed.

Lemma template_tail_has_div : contains "div" template_tail = true.
Proof. vm_compute. reflexivity. Qed.

Section Markdown.

Variable Md : Type.
Variable Markdown : list string -> Md.
Variable convert : Md -> string -> string * Md.

Local Abbreviation markdown_to_html := (markdown_to_html Md Markdown convert).

(** The HTML is the template around what the converter returns for the
    text after replacement. *)
Lemma markdown_to_html_unfold (self : Converter) (text : string) :
  markdown_to_html self text
  = template_head
    ++ fst (convert (Markdown (extensions self))
              (str_replace text
                 (py_or (pagebreak_input self) page_break_marker)
                 page_break_div))
    ++ template_tail.
Proof. reflexivity. Qed.

(** C1, as amended.  Whatever the input text and the configured marker (an
    empty one stands for the default), the replacement is made on the raw
    Markdown, before conversion, and it is Python's left-to-right
    replacement of non-overlapping occurrences: the text splits into
    segments none of which holds the marker, separated by the marker; the
    converter receives the same segments separated by the page-break
    element, so one element is inserted for each of the [str.count]
    occurrences; and the converter's answer is embedded unchanged in the
    fixed template. *)
Theorem page_breaks_replace_markers (self : Converter) (text : string) :
  let marker := py_or (pagebreak_input self) page_break_marker in
  let segments := str_split text marker in
  text = String.concat marker segments /\
  Forall (fun segment => contains marker segment = false) segments /\
  List.length segments = S (str_count text marker) /\
  markdown_to_html self text
  = template_head
    ++ fst (convert (Markdown (extensions self))
              (String.concat page_break_div segments))
    ++ template_tail.
Proof.
  intros marker segments.
  pose proof (effective_marker_nonempty self) as Hne.
  fold marker in Hne. subst segments.
  rewrite markdown_to_html_unfold. fold marker.
  destruct marker as [|a p]; [congruence|].
  repeat split.
  - symmetry. apply join_split.
  - apply split_segments_clean. discriminate.
  - apply split_length_count.
  - now rewrite replace_join_split.
Qed.


(** C10.  With an empty marker field the marker in effect is the default
    one, and the document is the one the default marker gives: the default
    marker is what gets replaced in the text. *)
Theorem empty_marker_is_default (self : Converter) (text : string) :
  py_or (pagebreak_input (set_pagebreak_input EmptyString self))
    page_break_marker = page_break_marker /\
  markdown_to_html (set_pagebreak_input EmptyString self) text
  = markdown_to_html (set_pagebreak_input page_break_marker self) text /\
  markdown_to_html (set_pagebreak_input EmptyString self) text
  = html_template
      (fst (convert (Markdown (extensions self))
              (str_replace text page_break_marker page_break_div))).
Proof. repeat split; reflexivity. Qed.

End Markdown.

(** A converter to run examples with: it returns its input. *)
Definition echo (_ : unit) (text : string) : string * unit := (text, tt).

(** C1 fails as stated: with the marker [div] the document always holds the
    marker, whatever the Markdown library returns, and so for every text
    (here [div] itself, which holds the marker once). *)
Lemma marker_div_survives :
  exists (self : Converter) (text : string),
    pagebreak_input self = "div" /\ occurrences "div" text = 1 /\
    forall (Md : Type) (Markdown : list string -> Md)
           (convert : Md -> string -> string * Md),
      contains "div" (Renderer.markdown_to_html Md Markdown convert self text)
      = true.
Proof.
  exists (window "div" true true "/out" ["a.md"]), "div".
  split; [reflexivity|]. split; [reflexivity|].
  intros Md Markdown convert. rewrite markdown_to_html_unfold.
  apply contains_app_r; [discriminate|].
  apply contains_app_r; [discriminate|].
  apply template_tail_has_div.
Qed.


End RendererSpec.

(** ** Properties of the batch pipeline *)

Module PipelineSpec.
Import PyStr Gui Pipeline.
Local Open Scope nat_scope.

(** *** The history of a job *)

Definition is_finished (o : Obs) : bool :=
  match o with ObsFinished _ _ => true | _ => false end.

Definition is_cancel (o : Obs) : bool :=
  match o with ObsPrompt _ Cancel => true | _ => false end.

Definition is_print (o : Obs) : bool :=
  match o with ObsPrint _ _ => true | _ => false end.

Definition is_skip_of (j : nat) (o : Obs) : bool :=
  match o with ObsPrompt i No => i =? j | _ => false end.

Definition is_load_of (j : nat) (o : Obs) : bool :=
  match o with ObsSetHtml i _ _ => i =? j | _ => false end.

(** The file an observation is about. *)
Definition index_of (o : Obs) : option nat :=
  match o with
  | ObsPrompt j _ | ObsSetHtml j _ _ | ObsError j _ | ObsPrint j _ => Some j
  | _ => None
  end.

Definition is_below (limit : nat) (o : Obs) : bool :=
  match index_of o with Some j => j <? limit | None => true end.

(** The job has been finalized: [on_all_conversions_finished] has run. *)
Definition finished (s : Converter) : bool := existsb is_finished (log s).

(** The history up to and including the first finalization. *)
Fixpoint job_log (l : list Obs) : list Obs :=
  match l with
  | [] => []
  | o :: l' => if is_finished o then [o] else o :: job_log l'
  end.

Definition progress_values (l : list Obs) : list Z :=
  flat_map (fun o => match o with ObsProgress v => [v] | _ => [] end) l.

Definition error_entries (l : list Obs) : list string :=
  flat_map (fun o => match o with ObsError _ e => [e] | _ => [] end) l.

Definition count_prints (l : list Obs) : nat :=
  List.length (filter is_print l).

Definition nondecreasing (vs : list Z) : Prop := StronglySorted Z.le vs.

(** What holds of the history while the job runs: no finalization and no
    Cancel yet; every file it mentions lies below [limit]; at most [prints]
    print calls; the progress values never went down and are between 0 and
    the bar's value [bar]; and a file skipped at the prompt was never
    loaded. *)
Record LogOk (limit prints : nat) (bar : Z) (l : list Obs) : Prop := {
  ok_unfinished : forallb (fun o => negb (is_finished o)) l = true;
  ok_no_cancel : forallb (fun o => negb (is_cancel o)) l = true;
  ok_below : forallb (is_below limit) l = true;
  ok_prints : count_prints l <= prints;
  ok_sorted : nondecreasing (progress_values l);
  ok_range : Forall (fun v => (0 <= v <= bar)%Z) (progress_values l);
  ok_skips : forall j, existsb (is_skip_of j) l = true ->
                       existsb (is_load_of j) l = false
}.

(** The phases of one file, between two events. *)
Inductive Phase : Set :=
| Loading
| Settling
| Verifying (output_path : string)
| VerifyingFinal (output_path : string).

Definition phase_timers (ph : Phase) : list Timer :=
  match ph with
  | Loading => []
  | Settling => [{| delay_ms := 3000; callback := GeneratePdf |}]
  | Verifying p => [{| delay_ms := 10000; callback := CheckPdf p |}]
  | VerifyingFinal p => [{| delay_ms := 5000; callback := CheckPdfFinal p |}]
  end.

(** The share of a file's slice the bar shows in each phase. *)
Definition phase_share (ph : Phase) : Z :=
  match ph with
  | Loading => 20
  | Settling => 40
  | Verifying _ | VerifyingFinal _ => 60
  end.

Definition phase_prints (ph : Phase) : nat :=
  match ph with
  | Loading | Settling => 0
  | Verifying _ | VerifyingFinal _ => 1
  end.

(** A job under way, waiting for the event of phase [ph]. *)
Record Running (s : Converter) (ph : Phase) : Prop := {
  run_total : total_files s = List.length (current_files s);
  run_index : current_conversion_index s < total_files s;
  run_alive : crashed s = false;
  run_timers : timers s = phase_timers ph;
  run_receivers :
    match ph with
    | Loading => 1 <= connections s /\ 1 <= loads s
    | _ => connections s = 0
    end;
  run_progress :
    progress_bar s
    = (file_progress (current_conversion_index s) (total_files s)
       + step_progress (phase_share ph) (total_files s))%Z;
  run_errors : conversion_errors s = error_entries (log s);
  run_log :
    LogOk (S (current_conversion_index s))
      (current_conversion_index s + phase_prints ph) (progress_bar s) (log s)
}.

(** The state in which [convert_next_file] is entered. *)
Record Entry (s : Converter) : Prop := {
  entry_total : total_files s = List.length (current_files s);
  entry_files : 1 <= total_files s;
  entry_index : current_conversion_index s <= total_files s;
  entry_alive : crashed s = false;
  entry_timers : timers s = [];
  entry_progress :
    (progress_bar s
     <= file_progress (current_conversion_index s) (total_files s))%Z;
  entry_errors : conversion_errors s = error_entries (log s);
  entry_log :
    LogOk (current_conversion_index s) (current_conversion_index s)
      (progress_bar s) (log s)
}.

(** The way a job ends: after a history [before] of a job under way, the
    cursor being at [k], either the user pressed Cancel at the prompt for
    file [k], or [k] is the number of files; then the bar goes to 100 and
    the summary is shown.  What follows the summary is [after]. *)
Definition ending (cancelled : bool) (k total : nat) (errors : list string)
  : list Obs :=
  ((if cancelled then [ObsPrompt k Cancel] else [])
   ++ [ObsProgress 100; ObsFinished k (summary_of total errors)])%list.

Definition Done (total : nat) (l : list Obs) : Prop :=
  exists (before after : list Obs) (k : nat) (cancelled : bool) (bar : Z),
    l = (before ++ ending cancelled k total (error_entries before) ++ after)%list
    /\ LogOk k k bar before /\ (bar <= 100)%Z
    /\ (if cancelled then k < total else k = total).


(** *** Arithmetic of the progress values *)

Lemma file_progress_nonneg (i t : nat) : (0 <= file_progress i t)%Z.
Proof. unfold file_progress. apply Z_div_nonneg_nonneg; lia. Qed.

Lemma step_progress_nonneg (share : Z) (t : nat) :
  (0 <= share)%Z -> (0 <= step_progress share t)%Z.
Proof. intros. unfold step_progress. apply Z_div_nonneg_nonneg; lia. Qed.

Lemma step_progress_mono (a b : Z) (t : nat) :
  (a <= b)%Z -> (step_progress a t <= step_progress b t)%Z.
Proof.
  intros. unfold step_progress.
  destruct t as [|t]; [simpl; rewrite !Z.div_0_r; lia|].
  apply Z.div_le_mono; lia.
Qed.

Lemma file_progress_mono (i j t : nat) :
  i <= j -> (file_progress i t <= file_progress j t)%Z.
Proof.
  intros. unfold file_progress.
  destruct t as [|t]; [simpl; rewrite !Z.div_0_r; lia|].
  apply Z.div_le_mono; lia.
Qed.

Lemma file_progress_total (t : nat) : 1 <= t -> file_progress t t = 100%Z.
Proof.
  intros. unfold file_progress. rewrite Z.mul_comm.
  apply Z.div_mul. lia.
Qed.

Lemma file_progress_step (i t : nat) (share : Z) :
  1 <= t -> (0 <= share <= 100)%Z ->
  (file_progress i t + step_progress share t <= file_progress (S i) t)%Z.
Proof.
  intros Ht Hs. unfold file_progress, step_progress.
  assert (Hpos : (0 < Z.of_nat t)%Z) by lia.
  transitivity ((Z.of_nat i * 100 + share) / Z.of_nat t)%Z.
  - pose proof (Z.div_mod (Z.of_nat i * 100) (Z.of_nat t) ltac:(lia)) as E1.
    pose proof (Z.div_mod share (Z.of_nat t) ltac:(lia)) as E2.
    pose proof (Z.mod_pos_bound (Z.of_nat i * 100) (Z.of_nat t) Hpos).
    pose proof (Z.mod_pos_bound share (Z.of_nat t) Hpos).
    apply Z.div_le_lower_bound; [lia|]. nia.
  - apply Z.div_le_mono; lia.
Qed.

Lemma file_progress_le_100 (i t : nat) : i <= t -> (file_progress i t <= 100)%Z.
Proof.
  intros. destruct t as [|t].
  - unfold file_progress. simpl. rewrite Z.div_0_r. lia.
  - rewrite <- (file_progress_total (S t)) by lia. now apply file_progress_mono.
Qed.

Lemma phase_value_range (i t : nat) (share : Z) :
  i < t -> (0 <= share <= 100)%Z ->
  (0 <= file_progress i t + step_progress share t <= 100)%Z.
Proof.
  intros Hi Hs. split.
  - pose proof (file_progress_nonneg i t). pose proof (step_progress_nonneg share t). lia.
  - etransitivity; [apply file_progress_step; lia|]. apply file_progress_le_100. lia.
Qed.

(** *** Extending a history *)

Lemma nondecreasing_snoc (vs : list Z) (v : Z) :
  nondecreasing vs -> Forall (fun x => (x <= v)%Z) vs ->
  nondecreasing (vs ++ [v]).
Proof.
  unfold nondecreasing. induction 1 as [|x vs Hs IH Hx]; intros Hall; simpl.
  - repeat constructor.
  - inversion Hall; subst. constructor; [auto|].
    apply Forall_app. split; [exact Hx | now constructor].
Qed.

Lemma is_below_mono (a b : nat) (o : Obs) :
  a <= b -> is_below a o = true -> is_below b o = true.
Proof.
  unfold is_below. destruct (index_of o); [|reflexivity].
  rewrite !Nat.ltb_lt. lia.
Qed.

Lemma below_mono (a b : nat) (l : list Obs) :
  a <= b -> forallb (is_below a) l = true -> forallb (is_below b) l = true.
Proof.
  intros Hab. rewrite !forallb_forall. intros H o Ho.
  eapply is_below_mono; eauto.
Qed.

Lemma below_no_load (j : nat) (l : list Obs) :
  forallb (is_below j) l = true -> existsb (is_load_of j) l = false.
Proof.
  induction l as [|o l IH]; simpl; [reflexivity|].
  rewrite andb_true_iff. intros [Ho Hl]. rewrite (IH Hl), orb_false_r.
  destruct o; try reflexivity. unfold is_below in Ho. simpl in *.
  rewrite Nat.ltb_lt in Ho. apply Nat.eqb_neq. lia.
Qed.

Lemma below_no_skip (j : nat) (l : list Obs) :
  forallb (is_below j) l = true -> existsb (is_skip_of j) l = false.
Proof.
  induction l as [|o l IH]; simpl; [reflexivity|].
  rewrite andb_true_iff. intros [Ho Hl]. rewrite (IH Hl), orb_false_r.
  destruct o as [| i [] | | | | | | |]; try reflexivity.
  unfold is_below in Ho. simpl in *.
  rewrite Nat.ltb_lt in Ho. apply Nat.eqb_neq. lia.
Qed.

Lemma logok_nil (limit prints : nat) (bar : Z) : LogOk limit prints bar [].
Proof.
  constructor.
  - reflexivity.
  - reflexivity.
  - reflexivity.
  - unfold count_prints. simpl. lia.
  - constructor.
  - constructor.
  - simpl. intros. discriminate.
Qed.

Lemma logok_weaken (a a' p p' : nat) (b b' : Z) (l : list Obs) :
  LogOk a p b l -> a <= a' -> p <= p' -> (b <= b')%Z -> LogOk a' p' b' l.
Proof.
  intros [] Ha Hp Hb. constructor; auto.
  - eapply below_mono; eauto.
  - lia.
  - eapply Forall_impl; [|eassumption]. simpl. intros. lia.
Qed.

Lemma progress_values_app (l l' : list Obs) :
  progress_values (l ++ l') = (progress_values l ++ progress_values l')%list.
Proof. apply flat_map_app. Qed.

Lemma error_entries_app (l l' : list Obs) :
  error_entries (l ++ l') = (error_entries l ++ error_entries l')%list.
Proof. apply flat_map_app. Qed.

Lemma count_prints_app (l l' : list Obs) :
  count_prints (l ++ l') = count_prints l + count_prints l'.
Proof. unfold count_prints. now rewrite filter_app, length_app. Qed.

(** A new bar value, not below the previous one. *)
Lemma logok_progress (a p : nat) (b v : Z) (l : list Obs) :
  LogOk a p b l -> (0 <= v)%Z -> (b <= v)%Z ->
  LogOk a p v (l ++ [ObsProgress v]).
Proof.
  intros [] H0 Hb. constructor.
  - rewrite forallb_app, ok_unfinished0. reflexivity.
  - rewrite forallb_app, ok_no_cancel0. reflexivity.
  - rewrite forallb_app, ok_below0. reflexivity.
  - rewrite count_prints_app. unfold count_prints in *. simpl. lia.
  - rewrite progress_values_app. simpl. apply nondecreasing_snoc; auto.
    eapply Forall_impl; [|eassumption]. simpl. intros. lia.
  - rewrite progress_values_app. apply Forall_app. split.
    + eapply Forall_impl; [|eassumption]. simpl. intros. lia.
    + repeat constructor; lia.
  - intros j. rewrite !existsb_app. simpl. rewrite !orb_false_r. auto.
Qed.

(** Any other observation that neither finalizes nor cancels. *)
Lemma logok_obs (a p p' : nat) (b : Z) (l : list Obs) (o : Obs) :
  LogOk a p b l ->
  progress_values [o] = [] -> is_finished o = false -> is_cancel o = false ->
  is_below a o = true ->
  p + count_prints [o] <= p' ->
  (forall j, is_skip_of j o = true -> existsb (is_load_of j) l = false) ->
  (forall j, is_load_of j o = true -> existsb (is_skip_of j) l = false) ->
  LogOk a p' b (l ++ [o]).
Proof.
  intros [] Hv Hf Hc Hb Hp Hskip Hload. constructor.
  - rewrite forallb_app, ok_unfinished0. simpl. now rewrite Hf.
  - rewrite forallb_app, ok_no_cancel0. simpl. now rewrite Hc.
  - rewrite forallb_app, ok_below0. simpl. now rewrite Hb.
  - rewrite count_prints_app. lia.
  - rewrite progress_values_app, Hv, app_nil_r. assumption.
  - rewrite progress_values_app, Hv, app_nil_r. assumption.
  - intros j. rewrite !existsb_app. simpl. rewrite !orb_false_r.
    rewrite orb_true_iff, orb_false_iff. intros [Hj | Hj].
    + split; [auto|].
      destruct (is_load_of j o) eqn:E; [|reflexivity].
      rewrite (Hload j E) in Hj. discriminate.
    + split; [auto|].
      destruct o as [| i [] | | | | | | |]; try discriminate; reflexivity.
Qed.

Ltac below_tac := unfold is_below; simpl; apply Nat.ltb_lt; lia.
Ltac prints_tac := unfold count_prints; simpl; lia.

(** *** States inside a handler *)

Arguments file_progress : simpl never.
Arguments step_progress : simpl never.
Arguments summary_of : simpl never.

Ltac state_simpl :=
  cbn [pagebreak_input include_toc confirm_overwrite output_folder
       current_files current_conversion_index total_files conversion_errors
       current_output_path progress_bar progress_visible convert_btn_enabled
       connections loads timers crashed log
       set_pagebreak_input set_index set_total set_errors set_output_path
       set_progress_bar set_visible set_convert_btn set_connections set_loads
       set_timers set_crashed set_log observe record_error advance singleShot
       uncaught connect disconnect setHtml] in *.

Lemma setValue_in_range (v : Z) (s : Converter) :
  (0 <= v <= 100)%Z ->
  setValue v s = observe (ObsProgress v) (set_progress_bar v s).
Proof.
  intros [H0 H1]. unfold setValue.
  apply Z.leb_le in H0. apply Z.leb_le in H1. now rewrite H0, H1.
Qed.

(** Between the first [setValue] of an iteration of [convert_next_file] and
    its decision: the bar shows the file's base value, and the file has
    been neither skipped nor loaded. *)
Record Mid (s : Converter) : Prop := {
  mid_total : total_files s = List.length (current_files s);
  mid_index : current_conversion_index s < total_files s;
  mid_alive : crashed s = false;
  mid_timers : timers s = [];
  mid_progress :
    progress_bar s
    = file_progress (current_conversion_index s) (total_files s);
  mid_errors : conversion_errors s = error_entries (log s);
  mid_log :
    LogOk (S (current_conversion_index s)) (current_conversion_index s)
      (progress_bar s) (log s);
  mid_unskipped :
    existsb (is_skip_of (current_conversion_index s)) (log s) = false;
  mid_unloaded :
    existsb (is_load_of (current_conversion_index s)) (log s) = false
}.

(** A handler at work on the current file, about to leave it. *)
Record Busy (s : Converter) : Prop := {
  busy_total : total_files s = List.length (current_files s);
  busy_index : current_conversion_index s < total_files s;
  busy_alive : crashed s = false;
  busy_timers : timers s = [];
  busy_progress :
    (progress_bar s
     <= file_progress (S (current_conversion_index s)) (total_files s))%Z;
  busy_errors : conversion_errors s = error_entries (log s);
  busy_log :
    LogOk (S (current_conversion_index s)) (S (current_conversion_index s))
      (progress_bar s) (log s)
}.

Lemma mid_of_entry (s : Converter) :
  Entry s -> current_conversion_index s < total_files s ->
  Mid (setValue (file_progress (current_conversion_index s) (total_files s)) s).
Proof.
  intros [] Hlt.
  pose proof (file_progress_nonneg (current_conversion_index s) (total_files s)).
  pose proof (file_progress_le_100 (current_conversion_index s) (total_files s)
                ltac:(lia)).
  rewrite setValue_in_range by lia.
  assert (Hlog : LogOk (current_conversion_index s) (current_conversion_index s)
                   (file_progress (current_conversion_index s) (total_files s))
                   (log s ++ [ObsProgress (file_progress (current_conversion_index s) (total_files s))]))
    by (apply (logok_progress _ _ (progress_bar s)); auto).
  constructor; state_simpl; auto.
  - rewrite error_entries_app. simpl. now rewrite app_nil_r.
  - eapply logok_weaken; eauto. lia.
  - apply below_no_skip. apply (ok_below _ _ _ _ Hlog).
  - apply below_no_load. apply (ok_below _ _ _ _ Hlog).
Qed.

Lemma mid_prompt_yes (s : Converter) :
  Mid s -> Mid (observe (ObsPrompt (current_conversion_index s) Yes) s).
Proof.
  intros []. constructor; state_simpl; auto.
  - rewrite error_entries_app. simpl. now rewrite app_nil_r.
  - eapply logok_obs; [eassumption | reflexivity | reflexivity | reflexivity
                      | below_tac | prints_tac | discriminate | discriminate].
  - rewrite existsb_app. simpl. now rewrite mid_unskipped0.
  - rewrite existsb_app. simpl. now rewrite mid_unloaded0.
Qed.

Lemma mid_skip (s : Converter) :
  Mid s -> Entry (advance (observe (ObsPrompt (current_conversion_index s) No) s)).
Proof.
  intros []. constructor; state_simpl; auto; try lia.
  - rewrite mid_progress0. apply file_progress_mono. lia.
  - rewrite error_entries_app. simpl. now rewrite app_nil_r.
  - eapply logok_obs; [eassumption | reflexivity | reflexivity | reflexivity
                      | below_tac | prints_tac | | discriminate].
    simpl. intros j Hj. apply Nat.eqb_eq in Hj. now subst j.
Qed.

Lemma busy_of_mid (s : Converter) : Mid s -> Busy s.
Proof.
  intros []. constructor; auto.
  - rewrite mid_progress0. apply file_progress_mono. lia.
  - eapply logok_weaken; eauto. lia.
Qed.

Lemma busy_fail (entry : string) (s : Converter) :
  Busy s -> Entry (advance (record_error entry s)).
Proof.
  intros []. constructor; state_simpl; auto; try lia.
  - rewrite error_entries_app. simpl. now rewrite busy_errors0.
  - eapply logok_obs; [eassumption | reflexivity | reflexivity | reflexivity
                      | below_tac | prints_tac | discriminate | discriminate].
Qed.

Lemma busy_done (s : Converter) :
  Busy s ->
  Entry (advance
           (setValue (file_progress (S (current_conversion_index s)) (total_files s)) s)).
Proof.
  intros [].
  pose proof (file_progress_nonneg (S (current_conversion_index s)) (total_files s)).
  pose proof (file_progress_le_100 (S (current_conversion_index s)) (total_files s)
                ltac:(lia)).
  rewrite setValue_in_range by lia.
  constructor; state_simpl; auto; try lia.
  - rewrite error_entries_app. simpl. now rewrite app_nil_r.
  - apply (logok_progress _ _ (progress_bar s)); auto.
Qed.

(** [setValue] touches the bar and the history only. *)
Lemma setValue_frame (v : Z) (s : Converter) :
  current_files (setValue v s) = current_files s
  /\ total_files (setValue v s) = total_files s
  /\ current_conversion_index (setValue v s) = current_conversion_index s
  /\ conversion_errors (setValue v s) = conversion_errors s
  /\ connections (setValue v s) = connections s
  /\ loads (setValue v s) = loads s
  /\ timers (setValue v s) = timers s
  /\ crashed (setValue v s) = crashed s
  /\ confirm_overwrite (setValue v s) = confirm_overwrite s
  /\ output_folder (setValue v s) = output_folder s
  /\ current_output_path (setValue v s) = current_output_path s.
Proof. unfold setValue. destruct (_ && _)%bool; repeat split. Qed.

(** The summary leaves the job in a finished history. *)
Lemma finished_log (s : Converter) :
  log (on_all_conversions_finished s)
  = (log s ++ [ObsProgress 100;
               ObsFinished (current_conversion_index s)
                 (summary_of (total_files s) (conversion_errors s))])%list.
Proof.
  unfold on_all_conversions_finished. rewrite setValue_in_range by lia.
  state_simpl. now rewrite <- app_assoc.
Qed.

Lemma done_at_end (s : Converter) :
  Entry s -> current_conversion_index s = total_files s ->
  Done (total_files s) (log (on_all_conversions_finished s)).
Proof.
  intros [] Hk. rewrite finished_log.
  exists (log s), [], (current_conversion_index s), false, (progress_bar s).
  split; [|split; [|split]]; auto.
  - unfold ending. simpl. now rewrite entry_errors0.
  - etransitivity; [eassumption|]. apply file_progress_le_100. lia.
Qed.

Lemma done_by_cancel (s : Converter) :
  Entry s -> current_conversion_index s < total_files s ->
  Done (total_files s)
    (log (on_all_conversions_finished
            (observe (ObsPrompt (current_conversion_index s) Cancel)
               (setValue
                  (file_progress (current_conversion_index s) (total_files s))
                  s)))).
Proof.
  intros [] Hlt.
  pose proof (file_progress_nonneg (current_conversion_index s) (total_files s)).
  pose proof (file_progress_le_100 (current_conversion_index s) (total_files s)
                ltac:(lia)).
  rewrite finished_log. rewrite setValue_in_range by lia. state_simpl.
  exists (log s ++ [ObsProgress (file_progress (current_conversion_index s) (total_files s))])%list,
    [], (current_conversion_index s), true,
    (file_progress (current_conversion_index s) (total_files s)).
  split; [|split; [|split]]; auto.
  - unfold ending. rewrite <- !app_assoc. simpl.
    rewrite error_entries_app. simpl. now rewrite app_nil_r, entry_errors0.
  - apply (logok_progress _ _ (progress_bar s)); auto.
Qed.

Section Handlers.

Variable w : World.

(** The [try] block of [convert_next_file]; [next] is the call the method
    makes to itself. *)
Definition try_block (next : Converter -> Converter)
    (current_file output_path : string) (index : nat) (s : Converter)
  : Converter :=
  match read_file w index with
  | ReadError e =>
      next (advance (record_error (stem w current_file ++ ".md: " ++ e) s))
  | Content content =>
      setHtml index (render w s content) (parent w current_file ++ "/")
        (connect
           (set_output_path output_path
              (setValue (file_progress index (total_files s)
                         + step_progress 20 (total_files s)) s)))
  end.

Lemma convert_next_file_from_unfold (fuel : nat) (s : Converter) :
  convert_next_file_from w (S fuel) s
  = if total_files s <=? current_conversion_index s then
      on_all_conversions_finished s
    else
      match nth_error (current_files s) (current_conversion_index s) with
      | None => uncaught "IndexError" s
      | Some current_file =>
          let index := current_conversion_index s in
          let s1 := setValue (file_progress index (total_files s)) s in
          let output_path :=
            joinpath w (output_folder s1) (stem w current_file ++ ".pdf") in
          if output_exists w index && confirm_overwrite s1 then
            match overwrite_reply w index with
            | Cancel =>
                on_all_conversions_finished (observe (ObsPrompt index Cancel) s1)
            | No =>
                convert_next_file_from w fuel
                  (advance (observe (ObsPrompt index No) s1))
            | Yes =>
                try_block (convert_next_file_from w fuel) current_file
                  output_path index (observe (ObsPrompt index Yes) s1)
            end
          else
            try_block (convert_next_file_from w fuel) current_file output_path
              index s1
      end.
Proof.
  cbn [convert_next_file_from].
  destruct (total_files s <=? current_conversion_index s); [reflexivity|].
  destruct (nth_error _ _); [|reflexivity].
  cbv zeta.
  destruct (output_exists w _ && _)%bool.
  - destruct (overwrite_reply w _); reflexivity.
  - reflexivity.
Qed.

(** The file at the cursor has been handed to the page. *)
Definition Loaded (s s' : Converter) : Prop :=
  Running s' Loading
  /\ total_files s' = total_files s
  /\ current_conversion_index s <= current_conversion_index s'
  /\ loads s' = S (loads s)
  /\ connections s' = S (connections s).

Lemma mid_load (html base_url output_path : string) (s : Converter) :
  Mid s ->
  Loaded s
    (setHtml (current_conversion_index s) html base_url
       (connect
          (set_output_path output_path
             (setValue
                (file_progress (current_conversion_index s) (total_files s)
                 + step_progress 20 (total_files s)) s)))).
Proof.
  intros [].
  pose proof (phase_value_range (current_conversion_index s) (total_files s) 20
                mid_index0 ltac:(lia)) as Hrange.
  pose proof (step_progress_nonneg 20 (total_files s) ltac:(lia)).
  rewrite setValue_in_range by lia.
  split; [|state_simpl; split; [|split; [|split]]; auto].
  constructor; state_simpl; auto; try lia.
  - rewrite !error_entries_app. simpl. now rewrite !app_nil_r.
  - eapply logok_obs;
      [ apply (logok_progress _ _ (progress_bar s)); [eassumption | lia | lia]
      | reflexivity | reflexivity | reflexivity | below_tac | prints_tac
      | discriminate | ].
    simpl. intros j Hj. apply Nat.eqb_eq in Hj. subst j.
    rewrite existsb_app. simpl. now rewrite mid_unskipped0.
Qed.

Definition Outcome (s s' : Converter) : Prop :=
  Loaded s s' \/ Done (total_files s) (log s').

Lemma outcome_after (s s1 s' : Converter) :
  total_files s1 = total_files s ->
  current_conversion_index s <= current_conversion_index s1 ->
  loads s1 = loads s -> connections s1 = connections s ->
  Outcome s1 s' -> Outcome s s'.
Proof.
  intros Ht Hi Hl Hc [(Hrun & Ht' & Hi' & Hl' & Hc') | Hdone].
  - left. split; [exact Hrun|]. split; [congruence|]. split; [lia|].
    split; congruence.
  - right. now rewrite <- Ht.
Qed.

Lemma try_block_spec (next : Converter -> Converter)
    (current_file output_path : string) (s : Converter) :
  Mid s ->
  (forall s2, Entry s2 ->
     total_files s2 - current_conversion_index s2
     = total_files s - S (current_conversion_index s) ->
     Outcome s2 (next s2)) ->
  Outcome s (try_block next current_file output_path (current_conversion_index s) s).
Proof.
  intros Hmid IH. unfold try_block.
  destruct (read_file w (current_conversion_index s)) as [content | e].
  - left. now apply mid_load.
  - eapply outcome_after; [ | | | | apply IH].
    + reflexivity.
    + state_simpl. lia.
    + reflexivity.
    + reflexivity.
    + apply busy_fail. now apply busy_of_mid.
    + state_simpl. lia.
Qed.

Lemma convert_next_file_from_spec (fuel : nat) :
  forall s, Entry s ->
    fuel = total_files s - current_conversion_index s ->
    Outcome s (convert_next_file_from w fuel s).
Proof.
  induction fuel as [|fuel IH]; intros s HE Hfuel.
  - pose proof (entry_index s HE). cbn [convert_next_file_from].
    assert (Hk : current_conversion_index s = total_files s) by lia.
    destruct (Nat.leb_spec (total_files s) (current_conversion_index s)); [|lia].
    right. now apply done_at_end.
  - rewrite convert_next_file_from_unfold.
    destruct (Nat.leb_spec (total_files s) (current_conversion_index s)) as [Hge|Hlt];
      [lia|].
    destruct (nth_error (current_files s) (current_conversion_index s))
      as [current_file|] eqn:Hfile.
    2:{ apply nth_error_None in Hfile. rewrite <- (entry_total s HE) in Hfile. lia. }
    cbv zeta.
    pose proof (mid_of_entry s HE Hlt) as Hmid.
    destruct (setValue_frame
                (file_progress (current_conversion_index s) (total_files s)) s)
      as (_ & Ht & Hi & _ & Hc & Hl & _).
    set (s1 := setValue _ s) in *.
    assert (Hnext : forall s2, Entry s2 ->
              total_files s2 - current_conversion_index s2
              = total_files s1 - S (current_conversion_index s1) ->
              Outcome s2 (convert_next_file_from w fuel s2)).
    { intros s2 HE2 Heq. apply IH; auto. lia. }
    assert (Hyes : Outcome s
              (try_block (convert_next_file_from w fuel) current_file
                 (joinpath w (output_folder s1) (stem w current_file ++ ".pdf"))
                 (current_conversion_index s)
                 (observe (ObsPrompt (current_conversion_index s) Yes) s1))).
    { rewrite <- Hi.
      apply (outcome_after s (observe (ObsPrompt (current_conversion_index s1) Yes) s1));
        [exact Ht | state_simpl; lia | exact Hl | exact Hc | ].
      exact (try_block_spec (convert_next_file_from w fuel) current_file
               (joinpath w (output_folder s1) (stem w current_file ++ ".pdf"))
               (observe (ObsPrompt (current_conversion_index s1) Yes) s1)
               (mid_prompt_yes _ Hmid) Hnext). }
    assert (Hplain : Outcome s
              (try_block (convert_next_file_from w fuel) current_file
                 (joinpath w (output_folder s1) (stem w current_file ++ ".pdf"))
                 (current_conversion_index s) s1)).
    { rewrite <- Hi.
      apply (outcome_after s s1); [exact Ht | lia | exact Hl | exact Hc | ].
      apply try_block_spec; auto. }
    destruct (output_exists w _ && _)%bool; [|exact Hplain].
    destruct (overwrite_reply w (current_conversion_index s)).
    + exact Hyes.
    + rewrite <- Hi.
      apply (outcome_after s (advance (observe (ObsPrompt (current_conversion_index s1) No) s1)));
        [exact Ht | state_simpl; lia | exact Hl | exact Hc | ].
      apply IH; [now apply mid_skip | state_simpl; lia].
    + right. subst s1. now apply done_by_cancel.
Qed.

Lemma convert_next_file_spec (s : Converter) :
  Entry s -> Outcome s (convert_next_file w s).
Proof. intros. now apply convert_next_file_from_spec. Qed.


(** *** Handlers only add to the history *)

Definition Extends (s s' : Converter) : Prop :=
  exists more, log s' = (log s ++ more)%list.

Lemma extends_refl (s s' : Converter) : log s' = log s -> Extends s s'.
Proof. intros H. exists []. now rewrite app_nil_r. Qed.

Lemma extends_trans (s1 s2 s3 : Converter) :
  Extends s1 s2 -> Extends s2 s3 -> Extends s1 s3.
Proof.
  intros [m1 H1] [m2 H2]. exists (m1 ++ m2)%list.
  now rewrite H2, H1, app_assoc.
Qed.

Lemma extends_observe (o : Obs) (s : Converter) : Extends s (observe o s).
Proof. now exists [o]. Qed.

Lemma extends_setValue (v : Z) (s : Converter) : Extends s (setValue v s).
Proof.
  unfold setValue. destruct (_ && _)%bool.
  - now exists [ObsProgress v].
  - now exists [ObsProgress (progress_bar s)].
Qed.

Lemma extends_finished (s : Converter) :
  Extends s (on_all_conversions_finished s).
Proof. eexists. apply finished_log. Qed.

Lemma extends_record_error (e : string) (s : Converter) :
  Extends s (record_error e s).
Proof. now exists [ObsError (current_conversion_index s) e]. Qed.

Lemma extends_uncaught (e : string) (s : Converter) : Extends s (uncaught e s).
Proof. now exists [ObsUncaught e]. Qed.

Ltac extends_tac :=
  repeat first
    [ apply extends_refl; reflexivity
    | eapply extends_trans; [|apply extends_finished]
    | eapply extends_trans; [|apply extends_uncaught]
    | eapply extends_trans; [|apply extends_record_error]
    | eapply extends_trans; [|apply extends_observe]
    | eapply extends_trans; [|apply extends_setValue] ].

Lemma extends_try_block (next : Converter -> Converter)
    (current_file output_path : string) (index : nat) (s : Converter) :
  (forall s2, Extends s2 (next s2)) ->
  Extends s (try_block next current_file output_path index s).
Proof.
  intros Hnext. unfold try_block. destruct (read_file w index).
  - eapply extends_trans; [apply extends_setValue|].
    eapply extends_trans; [|apply extends_refl; reflexivity].
    unfold setHtml, connect. eapply extends_trans; [|apply extends_observe].
    apply extends_refl. reflexivity.
  - eapply extends_trans; [|apply Hnext].
    eapply extends_trans; [apply extends_record_error|].
    apply extends_refl. reflexivity.
Qed.

Lemma extends_convert_next_file_from (fuel : nat) :
  forall s, Extends s (convert_next_file_from w fuel s).
Proof.
  induction fuel as [|fuel IH]; intros s.
  - cbn [convert_next_file_from].
    destruct (_ <=? _); [apply extends_finished | now apply extends_refl].
  - rewrite convert_next_file_from_unfold.
    destruct (_ <=? _); [apply extends_finished|].
    destruct (nth_error _ _); [|apply extends_uncaught].
    cbv zeta.
    eapply extends_trans; [apply extends_setValue|].
    destruct (_ && _)%bool; [|now apply extends_try_block].
    destruct (overwrite_reply w _).
    + eapply extends_trans; [apply extends_observe|]. now apply extends_try_block.
    + eapply extends_trans; [apply extends_observe|].
      eapply extends_trans; [|apply IH]. now apply extends_refl.
    + eapply extends_trans; [apply extends_observe|]. apply extends_finished.
Qed.

Lemma extends_convert_next_file (s : Converter) :
  Extends s (convert_next_file w s).
Proof. apply extends_convert_next_file_from. Qed.

Lemma extends_advance_next (s : Converter) :
  Extends s (convert_next_file w (advance s)).
Proof.
  eapply extends_trans; [|apply extends_convert_next_file].
  now apply extends_refl.
Qed.

Lemma extends_fail_current (reason : string) (s : Converter) :
  Extends s (fail_current w reason s).
Proof.
  unfold fail_current. destruct (nth_error _ _); [|apply extends_uncaught].
  eapply extends_trans; [apply extends_record_error|].
  apply extends_advance_next.
Qed.

Lemma extends_single (success : bool) (output_path : string) (s : Converter) :
  Extends s (on_single_conversion_finished w success output_path s).
Proof.
  unfold on_single_conversion_finished. destruct success.
  - eapply extends_trans; [apply extends_setValue|]. apply extends_advance_next.
  - destruct (nth_error _ _); [|apply extends_uncaught].
    eapply extends_trans; [apply extends_record_error|].
    eapply extends_trans; [apply extends_setValue|]. apply extends_advance_next.
Qed.

Lemma extends_on_html_loaded (success : bool) (s : Converter) :
  Extends s (on_html_loaded w success s).
Proof.
  unfold on_html_loaded.
  eapply extends_trans; [apply extends_observe|].
  destruct (negb success); [apply extends_fail_current|].
  destruct (connections _); [apply extends_fail_current|].
  unfold singleShot, disconnect.
  eapply extends_trans; [|apply extends_refl; reflexivity].
  eapply extends_trans; [|apply extends_setValue]. now apply extends_refl.
Qed.

Lemma extends_generate_pdf (s : Converter) : Extends s (generate_pdf w s).
Proof.
  unfold generate_pdf.
  eapply extends_trans; [apply extends_setValue|].
  destruct (print_to_pdf w _); [apply extends_fail_current|].
  unfold singleShot. eapply extends_trans; [apply extends_observe|].
  now apply extends_refl.
Qed.

Lemma extends_check (output_path : string) (s : Converter) :
  Extends s (check_pdf_generation w output_path s).
Proof.
  unfold check_pdf_generation.
  destruct (probe_first w _) as [|n|e].
  - now apply extends_refl.
  - destruct (1024 <? n)%N; [apply extends_single | now apply extends_refl].
  - apply extends_fail_current.
Qed.

Lemma extends_check_final (output_path : string) (s : Converter) :
  Extends s (check_pdf_generation_final w output_path s).
Proof.
  unfold check_pdf_generation_final.
  destruct (probe_final w _) as [|n|e].
  - apply extends_fail_current.
  - destruct (0 <? n)%N; [|apply extends_fail_current].
    destruct (nth_error _ _); [apply extends_single | apply extends_uncaught].
  - apply extends_fail_current.
Qed.

Lemma extends_deliver (n : nat) (success : bool) :
  forall s, Extends s (deliver w n success s).
Proof.
  induction n as [|n IH]; intros s; simpl; [now apply extends_refl|].
  destruct (crashed s); [now apply extends_refl|].
  destruct (connections s =? 0); [now apply extends_refl|].
  eapply extends_trans; [apply extends_on_html_loaded | apply IH].
Qed.

Lemma extends_step (e : Event) (s : Converter) : Extends s (step w e s).
Proof.
  unfold step. destruct (crashed s); [now apply extends_refl|].
  destruct e as [success | i].
  - unfold emit_loadFinished. destruct (loads s); [now apply extends_refl|].
    eapply extends_trans; [|apply extends_deliver].
    eapply extends_trans; [|apply extends_observe]. now apply extends_refl.
  - unfold fire_timer. destruct (nth_error _ _) as [t|]; [|now apply extends_refl].
    apply (extends_trans s (set_timers (remove_nth i (timers s)) s));
      [now apply extends_refl|].
    destruct (callback t); simpl.
    + apply extends_generate_pdf.
    + apply extends_check.
    + apply extends_check_final.
    + now apply extends_refl.
Qed.

Lemma done_extends (total : nat) (s s' : Converter) :
  Done total (log s) -> Extends s s' -> Done total (log s').
Proof.
  intros (before & after & k & c & bar & Hl & Hok & Hbar & Hk) [more Hm].
  exists before, (after ++ more)%list, k, c, bar.
  split; [|auto]. rewrite Hm, Hl. now rewrite <- !app_assoc.
Qed.


(** *** One event of a job under way *)

(** The share of the current file is over: either the job is finalized, or
    a later file has been handed to the page. *)
Definition potential (total : nat) (s : Converter) : nat :=
  5 * (total - current_conversion_index s) + loads s.

Definition Next (total : nat) (s s' : Converter) : Prop :=
  Done total (log s')
  \/ (Running s' Loading /\ total_files s' = total
      /\ current_conversion_index s < current_conversion_index s'
      /\ potential total s' + 4 <= potential total s).

Lemma next_of_entry (total : nat) (s s1 : Converter) :
  Entry s1 -> total_files s1 = total ->
  current_conversion_index s1 = S (current_conversion_index s) ->
  loads s1 = loads s ->
  Next total s (convert_next_file w s1).
Proof.
  intros HE Ht Hi Hl.
  destruct (convert_next_file_spec s1 HE) as [(Hrun & Ht' & Hi' & Hl' & _) | Hdone].
  - right. split; [exact Hrun|]. split; [congruence|]. split; [lia|].
    pose proof (run_index _ _ Hrun). unfold potential. lia.
  - left. now rewrite <- Ht.
Qed.

Lemma busy_fail_current (reason : string) (s : Converter) :
  Busy s -> Next (total_files s) s (fail_current w reason s).
Proof.
  intros HB. unfold fail_current.
  destruct (nth_error (current_files s) (current_conversion_index s))
    as [current_file|] eqn:Hfile.
  2:{ apply nth_error_None in Hfile.
      pose proof (busy_total s HB). pose proof (busy_index s HB). lia. }
  apply next_of_entry; [now apply busy_fail | reflexivity..].
Qed.

Lemma busy_single (output_path : string) (s : Converter) :
  Busy s ->
  Next (total_files s) s (on_single_conversion_finished w true output_path s).
Proof.
  intros HB. unfold on_single_conversion_finished.
  destruct (setValue_frame
              (file_progress (S (current_conversion_index s)) (total_files s)) s)
    as (_ & Ht & Hi & _ & _ & Hl & _).
  apply next_of_entry; [now apply busy_done | state_simpl; congruence..].
Qed.

Lemma busy_of_running (s : Converter) (ph : Phase) :
  Running s ph -> Busy (set_timers [] s).
Proof.
  intros []. constructor; state_simpl; auto.
  - rewrite run_progress0. apply file_progress_step; [lia|].
    destruct ph; simpl; lia.
  - eapply logok_weaken; eauto; [destruct ph; simpl; lia | lia].
Qed.

Lemma busy_set_loads (n : nat) (s : Converter) : Busy s -> Busy (set_loads n s).
Proof. intros []. constructor; auto. Qed.

Lemma busy_plain (o : Obs) (s : Converter) :
  Busy s -> index_of o = None -> progress_values [o] = [] ->
  is_finished o = false -> error_entries [o] = [] ->
  Busy (observe o s).
Proof.
  intros [] Hi Hv Hf He. constructor; state_simpl; auto.
  - rewrite error_entries_app, He. now rewrite app_nil_r.
  - eapply logok_obs; [eassumption | assumption | assumption | | | | |].
    + destruct o; try reflexivity; discriminate.
    + unfold is_below. now rewrite Hi.
    + destruct o; try discriminate; prints_tac.
    + destruct o; try discriminate; simpl; intros; discriminate.
    + destruct o; try discriminate; simpl; intros; discriminate.
Qed.

Lemma busy_setValue (v : Z) (s : Converter) :
  Busy s -> (progress_bar s <= v)%Z -> (0 <= v)%Z ->
  (v <= file_progress (S (current_conversion_index s)) (total_files s))%Z ->
  Busy (setValue v s).
Proof.
  intros [] Hle H0 Hv.
  pose proof (file_progress_le_100 (S (current_conversion_index s)) (total_files s)
                ltac:(lia)).
  rewrite setValue_in_range by lia.
  constructor; state_simpl; auto.
  - rewrite error_entries_app. simpl. now rewrite app_nil_r.
  - apply (logok_progress _ _ (progress_bar s)); auto.
Qed.


Lemma busy_of_loading (s : Converter) : Running s Loading -> Busy s.
Proof.
  intros []. constructor; auto.
  - rewrite run_progress0. apply file_progress_step; simpl; lia.
  - eapply logok_weaken; eauto; simpl; lia.
Qed.

Lemma next_trans (total : nat) (s1 s2 s3 : Converter) :
  current_conversion_index s1 <= current_conversion_index s2 ->
  potential total s2 <= potential total s1 ->
  Next total s2 s3 -> Next total s1 s3.
Proof.
  intros Hi Hp [Hdone | (Hrun & Ht & Hi' & Hp')]; [now left | right].
  split; [exact Hrun|]. split; [exact Ht|]. split; lia.
Qed.

Lemma next_on_html_loaded_failed (s : Converter) :
  Busy s -> Next (total_files s) s (on_html_loaded w false s).
Proof.
  intros HB. unfold on_html_loaded. cbn [negb].
  apply (next_trans _ s (observe (ObsHandler (current_conversion_index s) false) s));
    [reflexivity | reflexivity |].
  change (total_files s)
    with (total_files (observe (ObsHandler (current_conversion_index s) false) s)).
  apply busy_fail_current.
  now apply busy_plain.
Qed.

Lemma deliver_disconnected (n : nat) (success : bool) (s : Converter) :
  connections s = 0 -> deliver w n success s = s.
Proof.
  intros Hc. destruct n; simpl; [reflexivity|].
  destruct (crashed s); [reflexivity|]. now rewrite Hc.
Qed.

Lemma deliver_failed_next (total : nat) (n : nat) :
  forall s0 s, Next total s0 s -> Next total s0 (deliver w n false s).
Proof.
  induction n as [|n IH]; intros s0 s HN; simpl; [exact HN|].
  destruct HN as [Hdone | (Hrun & Ht & Hi & Hp)].
  - left. eapply done_extends; [exact Hdone|].
    apply (extends_deliver (S n) false s).
  - rewrite (run_alive _ _ Hrun).
    destruct (run_receivers _ _ Hrun) as [Hc _].
    destruct (Nat.eqb_spec (connections s) 0) as [E|_]; [lia|].
    apply IH. apply (next_trans _ s0 s); [lia | lia |].
    rewrite <- Ht. apply next_on_html_loaded_failed. now apply busy_of_loading.
Qed.

Lemma logok_emit (a p : nat) (b : Z) (l : list Obs) (success : bool) :
  LogOk a p b l -> LogOk a p b (l ++ [ObsEmit success]).
Proof.
  intros H. eapply logok_obs;
    [ exact H | reflexivity | reflexivity | reflexivity | reflexivity
    | prints_tac | discriminate | discriminate ].
Qed.

Lemma logok_handler (a p : nat) (b : Z) (l : list Obs) (i : nat)
    (success : bool) :
  LogOk a p b l -> LogOk a p b (l ++ [ObsHandler i success]).
Proof.
  intros H. eapply logok_obs;
    [ exact H | reflexivity | reflexivity | reflexivity | reflexivity
    | prints_tac | discriminate | discriminate ].
Qed.

(** The load succeeded: the receivers are gone, the bar moves on, and the
    settle timer is armed. *)
Lemma loaded_settles (pending : nat) (s : Converter) :
  Running s Loading -> loads s = S pending ->
  let s' :=
    on_html_loaded w true (observe (ObsEmit true) (set_loads pending s)) in
  Running s' Settling
  /\ total_files s' = total_files s
  /\ current_conversion_index s' = current_conversion_index s
  /\ loads s' = pending.
Proof.
  intros [] Hl. destruct run_receivers0 as [Hc _].
  unfold on_html_loaded. cbn [negb]. state_simpl.
  destruct (connections s) as [|c] eqn:Ec; [lia|].
  pose proof (phase_value_range (current_conversion_index s) (total_files s) 40
                run_index0 ltac:(lia)) as Hrange.
  state_simpl. rewrite setValue_in_range by (state_simpl; lia).
  pose proof (step_progress_mono 20 40 (total_files s) ltac:(lia)).
  split; [|state_simpl; repeat split].
  constructor; state_simpl; auto.
  - now rewrite run_timers0.
  - rewrite !error_entries_app. simpl. now rewrite !app_nil_r.
  - simpl in *. rewrite Nat.add_0_r in *.
    apply (logok_progress _ _ (progress_bar s)); [|lia|lia].
    now apply logok_handler, logok_emit.
Qed.

(** A load ends while no receiver is connected: nothing happens. *)
Lemma running_ignores_load (success : bool) (pending : nat) (s : Converter)
    (ph : Phase) :
  Running s ph -> connections s = 0 ->
  Running (observe (ObsEmit success) (set_loads pending s)) ph.
Proof.
  intros [] Hc. constructor; state_simpl; auto.
  - destruct ph; auto. lia.
  - rewrite error_entries_app. simpl. now rewrite app_nil_r.
  - now apply logok_emit.
Qed.

(** The settle timer: the print call. *)
Lemma settled_prints (s : Converter) :
  Running s Settling -> print_to_pdf w (current_conversion_index s) = None ->
  let s' := generate_pdf w (set_timers [] s) in
  Running s' (Verifying (current_output_path s))
  /\ total_files s' = total_files s
  /\ current_conversion_index s' = current_conversion_index s
  /\ loads s' = loads s.
Proof.
  intros [] Hp. unfold generate_pdf. simpl in run_receivers0.
  pose proof (phase_value_range (current_conversion_index s) (total_files s) 60
                run_index0 ltac:(lia)) as Hrange.
  pose proof (step_progress_mono 40 60 (total_files s) ltac:(lia)).
  state_simpl. rewrite setValue_in_range by (state_simpl; lia).
  state_simpl. rewrite Hp.
  split; [|state_simpl; repeat split].
  constructor; state_simpl; auto.
  - rewrite !error_entries_app. simpl. now rewrite !app_nil_r.
  - simpl in *. rewrite Nat.add_0_r in *.
    eapply logok_obs;
      [ apply (logok_progress _ _ (progress_bar s)); [eassumption | lia | lia]
      | reflexivity | reflexivity | reflexivity | below_tac | prints_tac
      | discriminate | discriminate ].
Qed.

Lemma settled_fails (e : string) (s : Converter) :
  Running s Settling -> print_to_pdf w (current_conversion_index s) = Some e ->
  Next (total_files s) s (generate_pdf w (set_timers [] s)).
Proof.
  intros Hrun Hp. unfold generate_pdf. state_simpl.
  destruct (setValue_frame
              (file_progress (current_conversion_index s) (total_files s)
               + step_progress 60 (total_files s)) (set_timers [] s))
    as (_ & Ht & Hi & _ & _ & Hl & _).
  state_simpl. rewrite Hi, Hp.
  set (s1 := setValue _ _) in *.
  apply (next_trans _ s s1); [lia | unfold potential; lia |].
  rewrite <- Ht. apply busy_fail_current. subst s1.
  pose proof (phase_value_range (current_conversion_index s) (total_files s) 60
                (run_index _ _ Hrun) ltac:(lia)) as Hrange.
  pose proof (step_progress_mono 40 60 (total_files s) ltac:(lia)).
  pose proof (run_progress _ _ Hrun) as Hbar. simpl in Hbar.
  apply busy_setValue; state_simpl.
  - eapply busy_of_running; eauto.
  - lia.
  - lia.
  - apply file_progress_step; [pose proof (run_index _ _ Hrun); lia | lia].
Qed.

Lemma next_of_busy_timers (total : nat) (s s' : Converter) :
  Next total (set_timers [] s) s' -> Next total s s'.
Proof. apply next_trans; reflexivity. Qed.

(** The first check: success above 1024 bytes, otherwise the grace timer. *)
Lemma checked (output_path : string) (s : Converter) :
  Running s (Verifying output_path) ->
  let s' := check_pdf_generation w output_path (set_timers [] s) in
  Next (total_files s) s s'
  \/ (Running s' (VerifyingFinal output_path)
      /\ total_files s' = total_files s
      /\ current_conversion_index s' = current_conversion_index s
      /\ loads s' = loads s).
Proof.
  intros Hrun s'. subst s'. unfold check_pdf_generation. state_simpl.
  pose proof (busy_of_running _ _ Hrun) as HB.
  assert (Hdefer :
            Running (singleShot 5000 (CheckPdfFinal output_path) (set_timers [] s))
              (VerifyingFinal output_path)).
  { destruct Hrun. constructor; state_simpl; auto. }
  destruct (probe_first w (current_conversion_index s)) as [|n|e].
  - right. split; [exact Hdefer | repeat split].
  - destruct (1024 <? n)%N.
    + left. apply next_of_busy_timers. exact (busy_single output_path _ HB).
    + right. split; [exact Hdefer | repeat split].
  - left. apply next_of_busy_timers. exact (busy_fail_current _ _ HB).
Qed.

(** The final check: an error for a missing or empty file, success
    otherwise; either way the file is left. *)
Lemma checked_final (output_path : string) (s : Converter) :
  Running s (VerifyingFinal output_path) ->
  Next (total_files s) s
    (check_pdf_generation_final w output_path (set_timers [] s)).
Proof.
  intros Hrun. unfold check_pdf_generation_final. state_simpl.
  pose proof (busy_of_running _ _ Hrun) as HB.
  apply next_of_busy_timers.
  destruct (probe_final w (current_conversion_index s)) as [|n|e].
  - exact (busy_fail_current _ _ HB).
  - destruct (0 <? n)%N; [|exact (busy_fail_current _ _ HB)].
    state_simpl.
    destruct (nth_error (current_files s) (current_conversion_index s)) eqn:Hfile.
    + exact (busy_single output_path _ HB).
    + apply nth_error_None in Hfile.
      pose proof (run_total _ _ Hrun). pose proof (run_index _ _ Hrun). lia.
  - exact (busy_fail_current _ _ HB).
Qed.

(** *** Runs *)

Definition rank (ph : Phase) : nat :=
  match ph with
  | Loading | Settling => 2
  | Verifying _ => 1
  | VerifyingFinal _ => 0
  end.

(** A bound on the number of events the job can still take before it is
    finalized. *)
Definition budget (total : nat) (s : Converter) (ph : Phase) : nat :=
  potential total s + rank ph.

(** What an event makes of a job under way. *)
Definition Stepped (total : nat) (s : Converter) (ph : Phase) (s' : Converter)
  : Prop :=
  Done total (log s')
  \/ exists ph', Running s' ph' /\ total_files s' = total
                 /\ current_conversion_index s <= current_conversion_index s'
                 /\ budget total s' ph' < budget total s ph.

Lemma stepped_of_next (total : nat) (s s1 s' : Converter) (ph : Phase) :
  current_conversion_index s <= current_conversion_index s1 ->
  potential total s1 <= S (potential total s) ->
  Next total s1 s' -> Stepped total s ph s'.
Proof.
  intros Hi Hp [Hdone | (Hrun & Ht & Hi' & Hp')]; [now left | right].
  exists Loading. split; [exact Hrun|]. split; [exact Ht|]. split; [lia|].
  unfold budget. simpl. lia.
Qed.

Lemma step_running (total : nat) (e : Event) (s : Converter) (ph : Phase) :
  Running s ph -> total_files s = total -> enabled e s = true ->
  Stepped total s ph (step w e s).
Proof.
  intros Hrun Ht Hen. unfold enabled in Hen. unfold step.
  rewrite (run_alive _ _ Hrun) in *. simpl in Hen.
  destruct e as [success | i].
  - (* the page reports the end of a load *)
    unfold emit_loadFinished.
    destruct (loads s) as [|pending] eqn:Hl; [discriminate|].
    state_simpl.
    destruct ph.
    + (* a receiver is waiting *)
      destruct (run_receivers _ _ Hrun) as [Hc _].
      destruct (connections s) as [|c] eqn:Ec; [lia|].
      cbn [deliver]. state_simpl. rewrite (run_alive _ _ Hrun), Ec. cbn [Nat.eqb].
      destruct success.
      * destruct (loaded_settles pending s Hrun Hl) as (Hs & Ht' & Hi' & Hl').
        rewrite deliver_disconnected by apply (run_receivers _ _ Hs).
        right. exists Settling. split; [exact Hs|].
        unfold budget, potential. rewrite Ht', Hi', Hl', Hl. simpl.
        repeat split; lia.
      * apply (stepped_of_next _ _ (observe (ObsEmit false) (set_loads pending s)));
          [reflexivity | unfold potential; state_simpl; lia |].
        apply deliver_failed_next.
        replace total
          with (total_files (observe (ObsEmit false) (set_loads pending s)))
          by exact Ht.
        apply next_on_html_loaded_failed.
        apply busy_plain; try reflexivity.
        apply busy_set_loads. now apply busy_of_loading.
    + rewrite deliver_disconnected by (state_simpl; apply (run_receivers _ _ Hrun)).
      right. exists Settling.
      split; [apply running_ignores_load; [exact Hrun | apply (run_receivers _ _ Hrun)]|].
      unfold budget, potential. state_simpl. rewrite Hl. repeat split; auto; lia.
    + rewrite deliver_disconnected by (state_simpl; apply (run_receivers _ _ Hrun)).
      right. exists (Verifying output_path).
      split; [apply running_ignores_load; [exact Hrun | apply (run_receivers _ _ Hrun)]|].
      unfold budget, potential. state_simpl. rewrite Hl. repeat split; auto; lia.
    + rewrite deliver_disconnected by (state_simpl; apply (run_receivers _ _ Hrun)).
      right. exists (VerifyingFinal output_path).
      split; [apply running_ignores_load; [exact Hrun | apply (run_receivers _ _ Hrun)]|].
      unfold budget, potential. state_simpl. rewrite Hl. repeat split; auto; lia.
  - (* a timer expires *)
    unfold fire_timer. rewrite (run_timers _ _ Hrun) in *.
    destruct ph; simpl in Hen; [discriminate| | |];
      (destruct i as [|i]; [|apply Nat.ltb_lt in Hen; simpl in Hen; lia]);
      cbn [nth_error phase_timers remove_nth callback run_callback].
    + destruct (print_to_pdf w (current_conversion_index s)) as [err|] eqn:Hp.
      * apply (stepped_of_next _ _ s); [lia | lia |].
        rewrite <- Ht. eapply settled_fails; eauto.
      * destruct (settled_prints s Hrun Hp) as (Hs & Ht' & Hi' & Hl').
        right. exists (Verifying (current_output_path s)). split; [exact Hs|].
        unfold budget, potential. rewrite Ht', Hi', Hl'. simpl.
        repeat split; auto; lia.
    + destruct (checked output_path s Hrun) as [HN | (Hr & Ht' & Hi' & Hl')].
      * apply (stepped_of_next _ _ s); [lia | lia | now rewrite <- Ht].
      * right. exists (VerifyingFinal output_path). split; [exact Hr|].
        unfold budget, potential. rewrite Hi', Hl'. simpl.
        repeat split; auto; lia || congruence.
    + apply (stepped_of_next _ _ s); [lia | lia |].
      rewrite <- Ht. now apply checked_final.
Qed.


(** No job: nothing in the history and nothing pending. *)
Definition Idle (s : Converter) : Prop :=
  log s = [] /\ loads s = 0 /\ timers s = [] /\ crashed s = false.

(** The states a run goes through. *)
Inductive Status (total : nat) (s : Converter) : Prop :=
| StIdle : Idle s -> Status total s
| StRunning (ph : Phase) :
    Running s ph -> total_files s = total -> Status total s
| StDone : Done total (log s) -> Status total s.

Lemma step_disabled (e : Event) (s : Converter) :
  enabled e s = false -> step w e s = s.
Proof.
  unfold enabled, step. destruct (crashed s); [reflexivity|]. simpl.
  destruct e as [success | i].
  - unfold emit_loadFinished. destruct (loads s); [reflexivity | discriminate].
  - unfold fire_timer. rewrite Nat.ltb_ge. intros H.
    apply nth_error_None in H. now rewrite H.
Qed.

Lemma idle_disabled (e : Event) (s : Converter) : Idle s -> enabled e s = false.
Proof.
  intros (_ & Hl & Ht & Hc). unfold enabled. rewrite Hc, Hl, Ht.
  destruct e; reflexivity.
Qed.

Lemma status_step (total : nat) (e : Event) (s : Converter) :
  Status total s -> Status total (step w e s).
Proof.
  intros [Hidle | ph Hrun Ht | Hdone].
  - rewrite step_disabled by now apply idle_disabled. now apply StIdle.
  - destruct (enabled e s) eqn:Hen.
    + destruct (step_running total e s ph Hrun Ht Hen)
        as [Hdone | (ph' & Hrun' & Ht' & _)].
      * now apply StDone.
      * now apply (StRunning _ _ ph').
    + rewrite step_disabled by assumption. now apply (StRunning _ _ ph).
  - apply StDone. eapply done_extends; [exact Hdone | apply extends_step].
Qed.

Lemma status_exec (total : nat) (events : list Event) :
  forall s, Status total s -> Status total (exec w events s).
Proof.
  induction events as [|e events IH]; intros s Hs; simpl; [exact Hs|].
  apply IH. now apply status_step.
Qed.

Lemma extends_exec_log (events : list Event) :
  forall s, Extends s (exec w events s).
Proof.
  induction events as [|e events IH]; intros s; simpl; [now apply extends_refl|].
  eapply extends_trans; [apply extends_step | apply IH].
Qed.

Lemma entry_of_window (marker : string) (toc confirm : bool) (folder : string)
    (files : list string) :
  files <> [] ->
  Entry
    (set_convert_btn false
       (setValue 0
          (set_visible true
             (set_errors []
                (set_total (List.length files)
                   (set_index 0 (window marker toc confirm folder files))))))).
Proof.
  intros Hne. rewrite setValue_in_range by lia.
  assert (1 <= List.length files) by (destruct files; [congruence | simpl; lia]).
  constructor; state_simpl; simpl; auto; try lia.
  - apply file_progress_nonneg.
  - apply (logok_progress 0 0 0%Z 0%Z []); [apply logok_nil | lia | lia].
Qed.

(** The state [convert_to_pdf] leaves. *)
Lemma status_start (marker : string) (toc confirm : bool) (folder : string)
    (files : list string) :
  let s0 := convert_to_pdf w (window marker toc confirm folder files) in
  (Idle s0 /\ (files = [] \/ folder = EmptyString))
  \/ Done (List.length files) (log s0)
  \/ (Running s0 Loading /\ total_files s0 = List.length files
      /\ budget (List.length files) s0 Loading <= 5 * List.length files + 3).
Proof.
  intros s0. subst s0.
  destruct files as [|file files]; [left; repeat split; now left|].
  destruct folder as [|c folder]; [left; repeat split; now right|].
  right.
  pose proof (entry_of_window marker toc confirm (String c folder) (cons file files)
                ltac:(discriminate)) as HE.
  change (convert_to_pdf w (window marker toc confirm (String c folder) (cons file files)))
    with (convert_next_file w
      (set_convert_btn false
      (setValue 0
      (set_visible true
      (set_errors []
      (set_total (List.length (cons file files))
      (set_index 0
      (window marker toc confirm (String c folder) (cons file files))))))))).
  destruct (convert_next_file_spec _ HE) as [(Hrun & Ht & Hi & Hl & _) | Hdone].
  - right. split; [exact Hrun|]. split; [exact Ht|].
    unfold budget, potential. rewrite Hl.
    rewrite setValue_in_range by lia. state_simpl. simpl rank. simpl loads. lia.
  - left. exact Hdone.
Qed.

Lemma status_of_start (marker : string) (toc confirm : bool) (folder : string)
    (files : list string) :
  Status (List.length files)
    (convert_to_pdf w (window marker toc confirm folder files)).
Proof.
  destruct (status_start marker toc confirm folder files)
    as [[Hidle _] | [Hdone | (Hrun & Ht & _)]].
  - now apply StIdle.
  - now apply StDone.
  - now apply (StRunning _ _ Loading).
Qed.


(** [convert_next_file] as the method reads: the call to itself stands
    where the source has it. *)
Lemma convert_next_file_eq (s : Converter) :
  convert_next_file w s
  = if total_files s <=? current_conversion_index s then
      on_all_conversions_finished s
    else
      match nth_error (current_files s) (current_conversion_index s) with
      | None => uncaught "IndexError" s
      | Some current_file =>
          let index := current_conversion_index s in
          let s1 := setValue (file_progress index (total_files s)) s in
          let output_path :=
            joinpath w (output_folder s1) (stem w current_file ++ ".pdf") in
          if output_exists w index && confirm_overwrite s1 then
            match overwrite_reply w index with
            | Cancel =>
                on_all_conversions_finished (observe (ObsPrompt index Cancel) s1)
            | No => convert_next_file w (advance (observe (ObsPrompt index No) s1))
            | Yes =>
                try_block (convert_next_file w) current_file output_path index
                  (observe (ObsPrompt index Yes) s1)
            end
          else try_block (convert_next_file w) current_file output_path index s1
      end.
Proof.
  unfold convert_next_file at 1.
  destruct (Nat.leb_spec (total_files s) (current_conversion_index s)) as [Hge|Hlt].
  - replace (total_files s - current_conversion_index s) with 0 by lia.
    cbn [convert_next_file_from].
    destruct (Nat.leb_spec (total_files s) (current_conversion_index s)); [reflexivity | lia].
  - replace (total_files s - current_conversion_index s)
      with (S (total_files s - S (current_conversion_index s))) by lia.
    rewrite convert_next_file_from_unfold.
    destruct (Nat.leb_spec (total_files s) (current_conversion_index s)); [lia|].
    destruct (nth_error _ _) as [current_file|]; [|reflexivity].
    cbv zeta.
    destruct (setValue_frame
                (file_progress (current_conversion_index s) (total_files s)) s)
      as (_ & Ht & Hi & _).
    set (s1 := setValue _ s) in *.
    assert (Htry : forall output_path s2,
              total_files s2 = total_files s ->
              current_conversion_index s2 = current_conversion_index s ->
              try_block
                (convert_next_file_from w
                   (total_files s - S (current_conversion_index s)))
                current_file output_path (current_conversion_index s) s2
              = try_block (convert_next_file w) current_file output_path
                  (current_conversion_index s) s2).
    { intros output_path s2 Ht2 Hi2. unfold try_block.
      destruct (read_file w _); [reflexivity|].
      unfold convert_next_file. state_simpl. now rewrite Ht2, Hi2. }
    destruct (_ && _)%bool; [|now apply Htry].
    destruct (overwrite_reply w _).
    + now apply Htry.
    + unfold convert_next_file. state_simpl. now rewrite Ht, Hi.
    + reflexivity.
Qed.

(** *** Histories of finished and unfinished jobs *)

Lemma job_log_unfinished (l : list Obs) :
  forallb (fun o => negb (is_finished o)) l = true -> job_log l = l.
Proof.
  induction l as [|o l IH]; simpl; [reflexivity|].
  rewrite andb_true_iff. intros [Ho Hl].
  destruct (is_finished o); [discriminate|]. now rewrite IH.
Qed.

Lemma job_log_finished (before after : list Obs) (o : Obs) :
  forallb (fun o => negb (is_finished o)) before = true ->
  is_finished o = true ->
  job_log (before ++ o :: after) = (before ++ [o])%list.
Proof.
  intros Hb Ho. induction before as [|x before IH]; simpl in *.
  - now rewrite Ho.
  - rewrite andb_true_iff in Hb. destruct Hb as [Hx Hb].
    destruct (is_finished x); [discriminate|]. now rewrite IH.
Qed.

Lemma job_log_done (total : nat) (l : list Obs) :
  Done total l ->
  exists (before : list Obs) (k : nat) (cancelled : bool) (bar : Z),
    job_log l = (before ++ ending cancelled k total (error_entries before))%list
    /\ LogOk k k bar before /\ (bar <= 100)%Z
    /\ (if cancelled then k < total else k = total).
Proof.
  intros (before & after & k & c & bar & Hl & Hok & Hbar & Hk).
  exists before, k, c, bar. split; [|auto]. subst l.
  pose proof (ok_unfinished _ _ _ _ Hok) as Hu.
  unfold ending. destruct c; simpl.
  - replace (before ++ ObsPrompt k Cancel :: ObsProgress 100
               :: ObsFinished k (summary_of total (error_entries before)) :: after)%list
      with ((before ++ [ObsPrompt k Cancel; ObsProgress 100])
              ++ ObsFinished k (summary_of total (error_entries before)) :: after)%list
      by (now rewrite <- app_assoc).
    rewrite job_log_finished; [now rewrite <- app_assoc | | reflexivity].
    rewrite forallb_app, Hu. reflexivity.
  - replace (before ++ ObsProgress 100
               :: ObsFinished k (summary_of total (error_entries before)) :: after)%list
      with ((before ++ [ObsProgress 100])
              ++ ObsFinished k (summary_of total (error_entries before)) :: after)%list
      by (now rewrite <- app_assoc).
    rewrite job_log_finished; [now rewrite <- app_assoc | | reflexivity].
    rewrite forallb_app, Hu. reflexivity.
Qed.

Lemma no_cancel_split (l before after : list Obs) (k : nat) :
  forallb (fun o => negb (is_cancel o)) l = true ->
  l = (before ++ ObsPrompt k Cancel :: after)%list -> False.
Proof.
  intros Hl ->. rewrite forallb_app in Hl. simpl in Hl.
  rewrite andb_false_r in Hl. discriminate.
Qed.

Lemma cancel_split_unique (before x : list Obs) :
  forall (after y : list Obs) (k j : nat),
    forallb (fun o => negb (is_cancel o)) before = true ->
    forallb (fun o => negb (is_cancel o)) after = true ->
    (before ++ ObsPrompt k Cancel :: after)%list
    = (x ++ ObsPrompt j Cancel :: y)%list ->
    x = before /\ j = k /\ y = after.
Proof.
  revert x. induction before as [|o before IH]; intros x after y k j Hb Ha E.
  - destruct x as [|o' x]; simpl in E.
    + inversion E. auto.
    + inversion E; subst. exfalso. eapply no_cancel_split; [exact Ha | reflexivity].
  - simpl in Hb. rewrite andb_true_iff in Hb. destruct Hb as [Ho Hb].
    destruct x as [|o' x]; simpl in E.
    + inversion E; subst. discriminate.
    + inversion E; subst. destruct (IH x after y k j Hb Ha H1) as (-> & -> & ->).
      auto.
Qed.


(** A run in which every event is one the loop can deliver. *)
Fixpoint valid_run (s : Converter) (events : list Event) : Prop :=
  match events with
  | [] => True
  | e :: events' => enabled e s = true /\ valid_run (step w e s) events'
  end.

Lemma done_finished (total : nat) (s : Converter) :
  Done total (log s) -> finished s = true.
Proof.
  intros (before & after & k & c & bar & Hl & _). unfold finished.
  rewrite Hl, existsb_app. unfold ending. rewrite existsb_app.
  simpl. destruct c; simpl; now rewrite !orb_true_r.
Qed.

Lemma unfinished_log (l : list Obs) :
  forallb (fun o => negb (is_finished o)) l = true ->
  existsb is_finished l = false.
Proof.
  induction l as [|o l IH]; simpl; [reflexivity|].
  rewrite andb_true_iff. intros [Ho Hl]. rewrite (IH Hl).
  now destruct (is_finished o).
Qed.

Lemma running_unfinished (s : Converter) (ph : Phase) :
  Running s ph -> finished s = false.
Proof.
  intros Hrun. apply unfinished_log.
  apply (ok_unfinished _ _ _ _ (run_log _ _ Hrun)).
Qed.

Lemma running_enabled (s : Converter) (ph : Phase) :
  Running s ph -> exists e, enabled e s = true.
Proof.
  intros Hrun. unfold enabled. rewrite (run_alive _ _ Hrun).
  destruct ph.
  - exists (LoadFinished true). destruct (run_receivers _ _ Hrun) as [_ Hl].
    simpl. destruct (loads s); [lia | reflexivity].
  - exists (Timeout 0). now rewrite (run_timers _ _ Hrun).
  - exists (Timeout 0). now rewrite (run_timers _ _ Hrun).
  - exists (Timeout 0). now rewrite (run_timers _ _ Hrun).
Qed.

(** Every event of a valid run uses up some of the budget. *)
Lemma run_bounded (total : nat) (events : list Event) :
  forall (s : Converter) (ph : Phase),
    Running s ph -> total_files s = total -> valid_run s events ->
    Done total (log (exec w events s))
    \/ exists ph', Running (exec w events s) ph'
                   /\ total_files (exec w events s) = total
                   /\ List.length events + budget total (exec w events s) ph'
                      <= budget total s ph.
Proof.
  induction events as [|e events IH]; intros s ph Hrun Ht Hvalid.
  - right. exists ph. simpl. auto.
  - destruct Hvalid as [Hen Hvalid]. simpl.
    destruct (step_running total e s ph Hrun Ht Hen)
      as [Hdone | (ph' & Hrun' & Ht' & _ & Hb)].
    + left. eapply done_extends; [exact Hdone | apply extends_exec_log].
    + destruct (IH _ _ Hrun' Ht' Hvalid) as [Hdone | (ph'' & Hrun'' & Ht'' & Hb'')].
      * now left.
      * right. exists ph''. split; [exact Hrun''|]. split; [exact Ht''|]. lia.
Qed.


(** *** What every run satisfies *)

Lemma in_unfinished (l : list Obs) (k : nat) (summary : Summary) :
  forallb (fun o => negb (is_finished o)) l = true ->
  In (ObsFinished k summary) l -> False.
Proof.
  rewrite forallb_forall. intros H Hin. specialize (H _ Hin). discriminate.
Qed.

Lemma progress_values_ending (c : bool) (k total : nat) (errors : list string) :
  progress_values (ending c k total errors) = [100%Z].
Proof. now destruct c. Qed.

Lemma error_entries_ending (c : bool) (k total : nat) (errors : list string) :
  error_entries (ending c k total errors) = [].
Proof. now destruct c. Qed.

Lemma status_progress (total : nat) (s : Converter) :
  Status total s ->
  nondecreasing (progress_values (job_log (log s)))
  /\ Forall (fun v => (0 <= v <= 100)%Z) (progress_values (job_log (log s))).
Proof.
  intros [(Hl & _) | ph Hrun Ht | Hdone].
  - rewrite Hl. split; constructor.
  - pose proof (run_log _ _ Hrun) as Hok.
    rewrite (job_log_unfinished _ (ok_unfinished _ _ _ _ Hok)).
    split; [apply (ok_sorted _ _ _ _ Hok)|].
    pose proof (phase_value_range (current_conversion_index s) (total_files s)
                  (phase_share ph) (run_index _ _ Hrun)
                  ltac:(destruct ph; simpl; lia)) as Hr.
    rewrite <- (run_progress _ _ Hrun) in Hr.
    eapply Forall_impl; [|apply (ok_range _ _ _ _ Hok)]. simpl. intros. lia.
  - destruct (job_log_done _ _ Hdone) as (before & k & c & bar & -> & Hok & Hbar & _).
    rewrite progress_values_app, progress_values_ending. split.
    + apply nondecreasing_snoc; [apply (ok_sorted _ _ _ _ Hok)|].
      eapply Forall_impl; [|apply (ok_range _ _ _ _ Hok)]. simpl. intros. lia.
    + apply Forall_app. split.
      * eapply Forall_impl; [|apply (ok_range _ _ _ _ Hok)]. simpl. intros. lia.
      * repeat constructor; lia.
Qed.

Lemma status_bar (total : nat) (s : Converter) :
  Status total s ->
  log s = []
  \/ (finished s = true
      /\ exists earlier,
           progress_values (job_log (log s)) = (earlier ++ [100%Z])%list)
  \/ (finished s = false
      /\ exists ph,
           timers s = phase_timers ph
           /\ current_conversion_index s < total_files s
           /\ progress_bar s
              = (file_progress (current_conversion_index s) (total_files s)
                 + step_progress (phase_share ph) (total_files s))%Z).
Proof.
  intros [(Hl & _) | ph Hrun Ht | Hdone].
  - now left.
  - right. right. split; [eapply running_unfinished; eauto|].
    exists ph. destruct Hrun. auto.
  - right. left. split; [eapply done_finished; eauto|].
    destruct (job_log_done _ _ Hdone) as (before & k & c & bar & -> & _).
    exists (progress_values before).
    now rewrite progress_values_app, progress_values_ending.
Qed.

Lemma status_cancel (total : nat) (s : Converter) :
  Status total s ->
  forall before k after,
    job_log (log s) = (before ++ ObsPrompt k Cancel :: after)%list ->
    after = [ObsProgress 100;
             ObsFinished k (summary_of total (error_entries before))]
    /\ k < total /\ count_prints before <= k
    /\ forallb (is_below k) before = true.
Proof.
  intros [(Hl & _) | ph Hrun Ht | Hdone] before k after E.
  - rewrite Hl in E. destruct before; discriminate.
  - exfalso. pose proof (run_log _ _ Hrun) as Hok.
    rewrite (job_log_unfinished _ (ok_unfinished _ _ _ _ Hok)) in E.
    eapply no_cancel_split; [apply (ok_no_cancel _ _ _ _ Hok) | exact E].
  - destruct (job_log_done _ _ Hdone) as (b & k0 & c & bar & E0 & Hok & Hbar & Hk).
    rewrite E0 in E. unfold ending in E. destruct c; simpl in E.
    + apply cancel_split_unique in E;
        [ | apply (ok_no_cancel _ _ _ _ Hok) | reflexivity].
      destruct E as (-> & -> & <-).
      split; [reflexivity|]. split; [exact Hk|].
      split; [apply (ok_prints _ _ _ _ Hok) | apply (ok_below _ _ _ _ Hok)].
    + exfalso. eapply no_cancel_split; [|exact E].
      rewrite forallb_app, (ok_no_cancel _ _ _ _ Hok). reflexivity.
Qed.

Lemma status_skip (total : nat) (s : Converter) :
  Status total s ->
  forall k, existsb (is_skip_of k) (job_log (log s)) = true ->
            existsb (is_load_of k) (job_log (log s)) = false.
Proof.
  intros [(Hl & _) | ph Hrun Ht | Hdone] k.
  - rewrite Hl. discriminate.
  - pose proof (run_log _ _ Hrun) as Hok.
    rewrite (job_log_unfinished _ (ok_unfinished _ _ _ _ Hok)).
    apply (ok_skips _ _ _ _ Hok).
  - destruct (job_log_done _ _ Hdone) as (b & k0 & c & bar & -> & Hok & _).
    rewrite !existsb_app.
    assert (Hs : existsb (is_skip_of k) (ending c k0 total (error_entries b)) = false)
      by now destruct c.
    assert (Hl : existsb (is_load_of k) (ending c k0 total (error_entries b)) = false)
      by now destruct c.
    rewrite Hs, Hl, !orb_false_r. apply (ok_skips _ _ _ _ Hok).
Qed.

Lemma status_finalization (total : nat) (s : Converter) :
  Status total s ->
  forall k summary,
    In (ObsFinished k summary) (job_log (log s)) ->
    summary = summary_of total (error_entries (job_log (log s)))
    /\ (k = total \/ (k < total /\ In (ObsPrompt k Cancel) (job_log (log s)))).
Proof.
  intros [(Hl & _) | ph Hrun Ht | Hdone] k summary Hin.
  - rewrite Hl in Hin. destruct Hin.
  - exfalso. pose proof (run_log _ _ Hrun) as Hok.
    rewrite (job_log_unfinished _ (ok_unfinished _ _ _ _ Hok)) in Hin.
    eapply in_unfinished; [apply (ok_unfinished _ _ _ _ Hok) | exact Hin].
  - destruct (job_log_done _ _ Hdone) as (b & k0 & c & bar & E0 & Hok & Hbar & Hk).
    rewrite E0 in *. rewrite error_entries_app, error_entries_ending, app_nil_r.
    apply in_app_or in Hin. destruct Hin as [Hin | Hin].
    + exfalso. eapply in_unfinished; [apply (ok_unfinished _ _ _ _ Hok) | exact Hin].
    + unfold ending in *. destruct c; simpl in Hin.
      * destruct Hin as [|[|[Hin|[]]]]; try discriminate.
        inversion Hin; subst. split; [reflexivity|]. right. split; [exact Hk|].
        apply in_or_app. right. now left.
      * destruct Hin as [|[Hin|[]]]; try discriminate.
        inversion Hin; subst. split; [reflexivity|]. now left.
Qed.


(** *** Errors are recorded for the file at the cursor and are kept *)

(** From [s] to [s'] the cursor did not go back, the errors already
    recorded are still there, and every error added is about a file at or
    after the cursor of [s]. *)
Definition Later (s s' : Converter) : Prop :=
  current_conversion_index s <= current_conversion_index s'
  /\ (forall entry, In entry (conversion_errors s) ->
                    In entry (conversion_errors s'))
  /\ (forall j e, In (ObsError j e) (log s') ->
                  In (ObsError j e) (log s) \/ current_conversion_index s <= j).

Lemma later_same (s s' : Converter) (more : list Obs) :
  current_conversion_index s <= current_conversion_index s' ->
  conversion_errors s' = conversion_errors s ->
  log s' = (log s ++ more)%list ->
  error_entries more = [] ->
  Later s s'.
Proof.
  intros Hi He Hl Hm. split; [exact Hi|]. split; [now rewrite He|].
  intros j e Hin. left. rewrite Hl in Hin. apply in_app_or in Hin.
  destruct Hin as [|Hin]; [assumption|]. exfalso.
  clear - Hm Hin. induction more as [|o more IH]; [destruct Hin|].
  destruct Hin as [-> | Hin]; [discriminate|].
  apply IH; [|exact Hin].
  change (error_entries ([o] ++ more) = []) in Hm.
  rewrite error_entries_app in Hm. now apply app_eq_nil in Hm.
Qed.

Lemma later_trans (s1 s2 s3 : Converter) :
  Later s1 s2 -> Later s2 s3 -> Later s1 s3.
Proof.
  intros (Hi & He & Hl) (Hi' & He' & Hl'). split; [lia|]. split; [auto|].
  intros j e Hin. destruct (Hl' j e Hin) as [H | H]; [auto | right; lia].
Qed.

Lemma later_setValue (v : Z) (s : Converter) : Later s (setValue v s).
Proof.
  destruct (setValue_frame v s) as (_ & _ & Hi & He & _).
  destruct (extends_setValue v s) as [more Hm].
  apply (later_same _ _ more); [lia | exact He | exact Hm |].
  revert Hm. unfold setValue. destruct (_ && _)%bool; state_simpl; intros Hm;
    apply app_inv_head in Hm; now subst more.
Qed.

Lemma later_finished (s : Converter) : Later s (on_all_conversions_finished s).
Proof.
  unfold on_all_conversions_finished. rewrite setValue_in_range by lia.
  eapply later_same; state_simpl; [reflexivity | reflexivity | | ].
  - rewrite <- app_assoc. reflexivity.
  - reflexivity.
Qed.

Lemma later_uncaught (e : string) (s : Converter) : Later s (uncaught e s).
Proof. now apply (later_same _ _ [ObsUncaught e]). Qed.

Lemma later_observe (o : Obs) (s : Converter) :
  error_entries [o] = [] -> Later s (observe o s).
Proof. intros. now apply (later_same _ _ [o]). Qed.

Lemma later_failed (entry : string) (s : Converter) :
  Later s (advance (record_error entry s)).
Proof.
  split; [state_simpl; lia|]. split.
  - state_simpl. intros e He. apply in_or_app. now left.
  - state_simpl. intros j e Hin. apply in_app_or in Hin.
    destruct Hin as [Hin | [Hin | []]]; [now left | right].
    inversion Hin. lia.
Qed.

Lemma later_try_block (next : Converter -> Converter)
    (current_file output_path : string) (index : nat) (s : Converter) :
  (forall s2, Later s2 (next s2)) ->
  Later s (try_block next current_file output_path index s).
Proof.
  intros Hnext. unfold try_block. destruct (read_file w index).
  - eapply later_trans; [apply later_setValue|].
    eapply later_same; state_simpl; try reflexivity.
  - eapply later_trans; [apply later_failed | apply Hnext].
Qed.

Lemma later_convert_next_file_from (fuel : nat) :
  forall s, Later s (convert_next_file_from w fuel s).
Proof.
  induction fuel as [|fuel IH]; intros s.
  - cbn [convert_next_file_from].
    destruct (_ <=? _); [apply later_finished|].
    apply (later_same _ _ []); auto. now rewrite app_nil_r.
  - rewrite convert_next_file_from_unfold.
    destruct (_ <=? _); [apply later_finished|].
    destruct (nth_error _ _); [|apply later_uncaught].
    cbv zeta.
    eapply later_trans; [apply later_setValue|].
    destruct (_ && _)%bool; [|now apply later_try_block].
    destruct (overwrite_reply w _).
    + eapply later_trans; [|now apply later_try_block].
      now apply later_observe.
    + eapply later_trans; [|apply IH].
      eapply (later_same _ _ [ObsPrompt _ No]); state_simpl;
        [lia | reflexivity | reflexivity | reflexivity].
    + eapply later_trans; [|apply later_finished].
      now apply later_observe.
Qed.

Lemma later_convert_next_file (s : Converter) : Later s (convert_next_file w s).
Proof. apply later_convert_next_file_from. Qed.

(** Leaving the file with success records no error for it. *)
Lemma single_records_nothing (output_path : string) (s : Converter) :
  forall e,
    In (ObsError (current_conversion_index s) e)
       (log (on_single_conversion_finished w true output_path s)) ->
    In (ObsError (current_conversion_index s) e) (log s).
Proof.
  intros e Hin. unfold on_single_conversion_finished in Hin.
  destruct (setValue_frame
              (file_progress (S (current_conversion_index s)) (total_files s)) s)
    as (_ & _ & Hi & _).
  set (s1 := setValue _ s) in *.
  destruct (later_convert_next_file (advance s1)) as (_ & _ & Hl).
  destruct (Hl _ _ Hin) as [H | H].
  - state_simpl. subst s1. unfold setValue in H.
    destruct (_ && _)%bool; state_simpl; apply in_app_or in H;
      destruct H as [H | [H | []]]; auto; discriminate.
  - state_simpl. lia.
Qed.

(** Leaving the file with a failure keeps its entry in the error list. *)
Lemma failure_is_kept (entry : string) (s : Converter) :
  In entry
    (conversion_errors (convert_next_file w (advance (record_error entry s)))).
Proof.
  destruct (later_convert_next_file (advance (record_error entry s)))
    as (_ & He & _).
  apply He. state_simpl. apply in_or_app. right. now left.
Qed.


Lemma finished_frame (s : Converter) :
  let s' := on_all_conversions_finished s in
  progress_bar s' = 100%Z
  /\ current_conversion_index s' = current_conversion_index s
  /\ conversion_errors s' = conversion_errors s
  /\ loads s' = loads s
  /\ connections s' = connections s
  /\ timers s'
     = (timers s ++ [{| delay_ms := 2000; callback := HideProgress |}])%list.
Proof.
  unfold on_all_conversions_finished. rewrite setValue_in_range by lia.
  state_simpl. repeat split.
Qed.

(** The number of successes a summary reports. *)
Definition success_count_of (summary : Summary) : Z :=
  match summary with
  | AllDone n => n
  | WithErrors n _ _ _ => n
  end.

Lemma summary_success_count (total : nat) (errors : list string) :
  success_count_of (summary_of total errors)
  = (Z.of_nat total - Z.of_nat (List.length errors))%Z.
Proof. unfold summary_of. now destruct (_ =? _)%Z. Qed.

(** *** The claims *)







(** C9.  The finalization, however it is reached, sets the bar to 100 and
    reports [total_files] minus the number of recorded errors as the number
    of successes; with no error recorded it reports all [total_files] files
    as converted.  In every run the summary that ends the job is computed
    from the errors recorded until then, also when the job was cancelled
    with the cursor before the end of the list: files skipped or never
    reached count as successes. *)
Theorem summary_counts_unrecorded_files_as_successes :
  (forall s : Converter,
     let s' := on_all_conversions_finished s in
     progress_bar s' = 100%Z
     /\ log s'
        = (log s
           ++ [ObsProgress 100;
               ObsFinished (current_conversion_index s)
                 (summary_of (total_files s) (conversion_errors s))])%list)
  /\ (forall (total : nat) (errors : list string),
        success_count_of (summary_of total errors)
        = (Z.of_nat total - Z.of_nat (List.length errors))%Z
        /\ (errors = [] -> summary_of total errors = AllDone (Z.of_nat total)))
  /\ (forall (marker : string) (toc confirm : bool) (folder : string)
             (files : list string) (events : list Event),
        let s :=
          exec w events
            (convert_to_pdf w (window marker toc confirm folder files)) in
        forall k summary,
          In (ObsFinished k summary) (job_log (log s)) ->
          summary
          = summary_of (List.length files) (error_entries (job_log (log s)))
          /\ (k = List.length files
              \/ (k < List.length files
                  /\ In (ObsPrompt k Cancel) (job_log (log s))))).
Proof.
  split; [|split].
  - intros s s'. subst s'. split; [apply finished_frame | apply finished_log].
  - intros total errors. split; [apply summary_success_count|].
    intros ->. unfold summary_of. simpl. now rewrite Z.sub_0_r.
  - intros marker toc confirm folder files events s k summary Hin.
    pose proof (status_exec (List.length files) events _
                  (status_of_start marker toc confirm folder files)) as Hst.
    exact (status_finalization _ _ Hst k summary Hin).
Qed.

End Handlers.

(** *** Concrete runs *)

(** [Path(p).stem] for a bare file name with a single dot. *)
Definition plain_stem (p : string) : string :=
  match index 0 "." p with
  | Some n => substring 0 n p
  | None => p
  end.

(** An environment given by its answers; paths are POSIX paths of files in
    the working directory, and the Markdown library is replaced by a
    converter that returns its input. *)
Definition scripted (exists_ : nat -> bool) (reply : nat -> Reply)
    (reads : nat -> Read) (prints : nat -> option string)
    (first final : nat -> Probe) : World :=
  {| stem := plain_stem;
     parent := fun _ => ".";
     joinpath := fun d n => d ++ "/" ++ n;
     render := Renderer.markdown_to_html unit (fun _ => tt) RendererSpec.echo;
     output_exists := exists_;
     overwrite_reply := reply;
     read_file := reads;
     print_to_pdf := prints;
     probe_first := first;
     probe_final := final;
     disconnect_error := "disconnect() failed" |}.

(** Every source is readable, no output exists yet, printing works and
    writes 5000 bytes at once. *)
Definition smooth : World :=
  scripted (fun _ => false) (fun _ => Yes) (fun _ => Content "# Title")
    (fun _ => None) (fun _ => Size 5000) (fun _ => Size 5000).

Definition handler_runs (l : list Obs) : list (nat * bool) :=
  flat_map (fun o => match o with ObsHandler i b => [(i, b)] | _ => [] end) l.

Definition loads_started (l : list Obs) : list nat :=
  flat_map (fun o => match o with ObsSetHtml i _ _ => [i] | _ => [] end) l.

Definition emissions (l : list Obs) : list bool :=
  flat_map (fun o => match o with ObsEmit b => [b] | _ => [] end) l.

Definition prints_made (l : list Obs) : list string :=
  flat_map (fun o => match o with ObsPrint _ p => [p] | _ => [] end) l.

(** The two end-to-end scenarios of the specification. *)
Example two_files_converted :
  let s :=
    exec smooth
      [LoadFinished true; Timeout 0; Timeout 0;
       LoadFinished true; Timeout 0; Timeout 0]
      (convert_to_pdf smooth
         (window "<!-- pagebreak -->" true false "/out" ["a.md"; "b.md"])) in
  conversion_errors s = [] /\ progress_bar s = 100%Z
  /\ prints_made (log s) = ["/out/a.pdf"; "/out/b.pdf"]
  /\ finished s = true /\ current_conversion_index s = 2.
Proof. vm_compute. repeat split. Qed.

Example second_load_fails :
  let s :=
    exec smooth
      [LoadFinished true; Timeout 0; Timeout 0; LoadFinished false]
      (convert_to_pdf smooth
         (window "<!-- pagebreak -->" true false "/out" ["a.md"; "b.md"])) in
  conversion_errors s = ["b.md: HTMLのロードに失敗しました"]
  /\ prints_made (log s) = ["/out/a.pdf"]
  /\ finished s = true /\ handler_runs (log s) = [(0, true); (1, false)].
Proof. vm_compute. repeat split. Qed.

(** C4 fails on the code.  The failure branch of [on_html_loaded] returns
    without disconnecting, so the next [connect] adds a second receiver.
    Three files, the loads of the first two fail: the second emission runs
    the handler twice, and the second run records a load failure for the
    third file, whose load has only started. *)
Theorem load_handler_fires_twice :
  let s :=
    exec smooth [LoadFinished false; LoadFinished false]
      (convert_to_pdf smooth
         (window "<!-- pagebreak -->" true false "/out"
            ["a.md"; "b.md"; "c.md"])) in
  loads_started (log s) = [0; 1; 2]
  /\ emissions (log s) = [false; false]
  /\ handler_runs (log s) = [(0, false); (1, false); (2, false)]
  /\ conversion_errors s
     = ["a.md: HTMLのロードに失敗しました"; "b.md: HTMLのロードに失敗しました";
        "c.md: HTMLのロードに失敗しました"]
  /\ connections s = 3 /\ loads s = 1 /\ finished s = true.
Proof. vm_compute. repeat split. Qed.

(** C6 fails on the code, by the same defect.  Two files whose loads both
    fail: the second emission finalizes the job in its first handler run,
    and its second run executes with the cursor at [total_files] and dies of
    the index error.  Three files, the third load succeeding after the job
    was finalized: the file is processed all the same and the cursor ends
    at 4, past [total_files = 3]. *)
Theorem cursor_passes_the_end :
  (let s :=
     exec smooth [LoadFinished false; LoadFinished false]
       (convert_to_pdf smooth
          (window "<!-- pagebreak -->" true false "/out" ["a.md"; "b.md"])) in
   total_files s = 2 /\ current_conversion_index s = 2
   /\ handler_runs (log s) = [(0, false); (1, false); (2, false)]
   /\ skipn 14 (log s)
      = [ObsFinished 2
           (WithErrors 0 2
              ["a.md: HTMLのロードに失敗しました"; "b.md: HTMLのロードに失敗しました"]
              None);
         ObsHandler 2 false; ObsUncaught "IndexError"]
   /\ crashed s = true)
  /\ (let s :=
        exec smooth
          [LoadFinished false; LoadFinished false; LoadFinished true;
           Timeout 1; Timeout 1]
          (convert_to_pdf smooth
             (window "<!-- pagebreak -->" true false "/out"
                ["a.md"; "b.md"; "c.md"])) in
      total_files s = 3 /\ current_conversion_index s = 4
      /\ handler_runs (log s)
         = [(0, false); (1, false); (2, false); (3, true)]
      /\ prints_made (log s) = ["/out/c.pdf"]).
Proof. vm_compute. repeat split. Qed.

(** What does hold of the cursor (see C6): until the job is finalized it is
    below [total_files]. *)
Lemma cursor_below_end_until_finalized (w : World) (marker : string)
    (toc confirm : bool) (folder : string) (files : list string)
    (events : list Event) :
  let s :=
    exec w events (convert_to_pdf w (window marker toc confirm folder files)) in
  log s = []
  \/ finished s = true
  \/ (total_files s = List.length files
      /\ current_conversion_index s < total_files s).
Proof.
  intros s.
  destruct (status_exec w (List.length files) events _
              (status_of_start w marker toc confirm folder files))
    as [(Hl & _) | ph Hrun Ht | Hdone].
  - now left.
  - right. right. split; [exact Ht | apply (run_index _ _ Hrun)].
  - right. left. eapply done_finished; eauto.
Qed.


(** The output of the only file never shows up. *)
Definition never_written : World :=
  scripted (fun _ => false) (fun _ => Yes) (fun _ => Content "# Title")
    (fun _ => None) (fun _ => Missing) (fun _ => Missing).


(** The output of the second file exists and the user cancels there. *)
Definition cancel_at_second : World :=
  scripted (fun i => i =? 1) (fun _ => Cancel) (fun _ => Content "# Title")
    (fun _ => None) (fun _ => Size 5000) (fun _ => Size 5000).

Local Abbreviation cancelled_history :=
  (job_log
     (log
        (exec cancel_at_second [LoadFinished true; Timeout 0; Timeout 0]
           (convert_to_pdf cancel_at_second
              (window "" true true "/out" ["a.md"; "b.md"; "c.md"]))))).

Lemma cancelled_history_split :
  cancelled_history
  = (firstn 11 cancelled_history
       ++ ObsPrompt 1 Cancel :: skipn 12 cancelled_history)%list.
Proof. vm_compute. reflexivity. Qed.


Local Abbreviation two_files :=
  (convert_to_pdf smooth (window "" true false "/out" ["a.md"; "b.md"])).

Lemma first_load_is_pending : valid_run smooth two_files [LoadFinished false].
Proof. vm_compute. split; [reflexivity | exact I]. Qed.

Lemma first_failure_leaves_job_open :
  finished (exec smooth [LoadFinished false] two_files) = false.
Proof. vm_compute. reflexivity. Qed.

Lemma two_files_nonempty : ["a.md"; "b.md"] <> [].
Proof. discriminate. Qed.

Lemma out_folder_nonempty : "/out" <> EmptyString.
Proof. discriminate. Qed.


End PipelineSpec.

(** ** The file list and the preview *)

Module FileList.
Import PyStr Gui Pipeline.
Local Open Scope nat_scope.

(** [str(n)] for a non-negative [int]. *)
Definition str_of_nat (n : nat) : string :=
  NilEmpty.string_of_uint (Nat.to_uint n).

(** [s.endswith(suffix)]. *)
Definition endswith (s suffix : string) : bool :=
  (String.length suffix <=? String.length s)
  && String.eqb
       (substring (String.length s - String.length suffix)
          (String.length suffix) s)
       suffix.

(** [l.index(x)] with the test for [x] given: the first position that
    passes it. *)
Fixpoint find_index {A : Type} (p : A -> bool) (l : list A) : option nat :=
  match l with
  | [] => None
  | x :: l' => if p x then Some 0 else option_map S (find_index p l')
  end.

(** [l.remove(x)], [l.pop(i)] for the first position that passes the
    test. *)
Fixpoint remove_first {A : Type} (p : A -> bool) (l : list A) : list A :=
  match l with
  | [] => []
  | x :: l' => if p x then l' else x :: remove_first p l'
  end.

(** A [FileItem] widget of the list.  [uid] is the identity of the Python
    object, which [list.index] compares; [file_path] never changes. *)
Record FileItem : Set := {
  uid : nat;
  file_path : string;
  selected : bool
}.

(** [item.set_selected(v)]; the style sheets it sets are left out. *)
Definition set_selected (v : bool) (item : FileItem) : FileItem :=
  {| uid := uid item; file_path := file_path item; selected := v |}.

(** The window: the attributes kept in [Converter], which the pipeline
    shares, and those only the list and the preview use.  The layout holds
    the widgets of [file_items] in the same order.  [created] counts the
    [FileItem] objects made so far, [web_view] holds the document and base
    URL last handed to the view by the functions below, and [critical] the
    texts of the error dialogs shown. *)
Record Window : Set := {
  converter : Converter;
  file_items : list FileItem;
  created : nat;
  current_file_index : nat;
  clear_files_btn_enabled : bool;
  status_label : string;
  drop_area : string;
  page_info : string;
  prev_page_btn_enabled : bool;
  next_page_btn_enabled : bool;
  web_view : option (string * string);
  critical : list string
}.

Definition set_output_folder (v : string) (s : Converter) : Converter :=
  {| pagebreak_input := pagebreak_input s; include_toc := include_toc s;
     confirm_overwrite := confirm_overwrite s;
     output_folder := v; current_files := current_files s;
     current_conversion_index := current_conversion_index s;
     total_files := total_files s; conversion_errors := conversion_errors s;
     current_output_path := current_output_path s;
     progress_bar := progress_bar s; progress_visible := progress_visible s;
     convert_btn_enabled := convert_btn_enabled s;
     connections := connections s; loads := loads s; timers := timers s;
     crashed := crashed s; log := log s |}.

Definition set_current_files (v : list string) (s : Converter) : Converter :=
  {| pagebreak_input := pagebreak_input s; include_toc := include_toc s;
     confirm_overwrite := confirm_overwrite s;
     output_folder := output_folder s; current_files := v;
     current_conversion_index := current_conversion_index s;
     total_files := total_files s; conversion_errors := conversion_errors s;
     current_output_path := current_output_path s;
     progress_bar := progress_bar s; progress_visible := progress_visible s;
     convert_btn_enabled := convert_btn_enabled s;
     connections := connections s; loads := loads s; timers := timers s;
     crashed := crashed s; log := log s |}.

Definition set_converter (v : Converter) (s : Window) : Window :=
  {| converter := v; file_items := file_items s; created := created s;
     current_file_index := current_file_index s;
     clear_files_btn_enabled := clear_files_btn_enabled s;
     status_label := status_label s; drop_area := drop_area s;
     page_info := page_info s;
     prev_page_btn_enabled := prev_page_btn_enabled s;
     next_page_btn_enabled := next_page_btn_enabled s;
     web_view := web_view s; critical := critical s |}.

Definition set_file_items (v : list FileItem) (s : Window) : Window :=
  {| converter := converter s; file_items := v; created := created s;
     current_file_index := current_file_index s;
     clear_files_btn_enabled := clear_files_btn_enabled s;
     status_label := status_label s; drop_area := drop_area s;
     page_info := page_info s;
     prev_page_btn_enabled := prev_page_btn_enabled s;
     next_page_btn_enabled := next_page_btn_enabled s;
     web_view := web_view s; critical := critical s |}.

Definition set_created (v : nat) (s : Window) : Window :=
  {| converter := converter s; file_items := file_items s; created := v;
     current_file_index := current_file_index s;
     clear_files_btn_enabled := clear_files_btn_enabled s;
     status_label := status_label s; drop_area := drop_area s;
     page_info := page_info s;
     prev_page_btn_enabled := prev_page_btn_enabled s;
     next_page_btn_enabled := next_page_btn_enabled s;
     web_view := web_view s; critical := critical s |}.

Definition set_current_file_index (v : nat) (s : Window) : Window :=
  {| converter := converter s; file_items := file_items s;
     created := created s; current_file_index := v;
     clear_files_btn_enabled := clear_files_btn_enabled s;
     status_label := status_label s; drop_area := drop_area s;
     page_info := page_info s;
     prev_page_btn_enabled := prev_page_btn_enabled s;
     next_page_btn_enabled := next_page_btn_enabled s;
     web_view := web_view s; critical := critical s |}.

Definition set_clear_files_btn (v : bool) (s : Window) : Window :=
  {| converter := converter s; file_items := file_items s;
     created := created s; current_file_index := current_file_index s;
     clear_files_btn_enabled := v;
     status_label := status_label s; drop_area := drop_area s;
     page_info := page_info s;
     prev_page_btn_enabled := prev_page_btn_enabled s;
     next_page_btn_enabled := next_page_btn_enabled s;
     web_view := web_view s; critical := critical s |}.

Definition set_status_label (v : string) (s : Window) : Window :=
  {| converter := converter s; file_items := file_items s;
     created := created s; current_file_index := current_file_index s;
     clear_files_btn_enabled := clear_files_btn_enabled s;
     status_label := v; drop_area := drop_area s;
     page_info := page_info s;
     prev_page_btn_enabled := prev_page_btn_enabled s;
     next_page_btn_enabled := next_page_btn_enabled s;
     web_view := web_view s; critical := critical s |}.

Definition set_drop_area (v : string) (s : Window) : Window :=
  {| converter := converter s; file_items := file_items s;
     created := created s; current_file_index := current_file_index s;
     clear_files_btn_enabled := clear_files_btn_enabled s;
     status_label := status_label s; drop_area := v;
     page_info := page_info s;
     prev_page_btn_enabled := prev_page_btn_enabled s;
     next_page_btn_enabled := next_page_btn_enabled s;
     web_view := web_view s; critical := critical s |}.

Definition set_page_info (v : string) (s : Window) : Window :=
  {| converter := converter s; file_items := file_items s;
     created := created s; current_file_index := current_file_index s;
     clear_files_btn_enabled := clear_files_btn_enabled s;
     status_label := status_label s; drop_area := drop_area s;
     page_info := v;
     prev_page_btn_enabled := prev_page_btn_enabled s;
     next_page_btn_enabled := next_page_btn_enabled s;
     web_view := web_view s; critical := critical s |}.

Definition set_page_btns (prev next : bool) (s : Window) : Window :=
  {| converter := converter s; file_items := file_items s;
     created := created s; current_file_index := current_file_index s;
     clear_files_btn_enabled := clear_files_btn_enabled s;
     status_label := status_label s; drop_area := drop_area s;
     page_info := page_info s;
     prev_page_btn_enabled := prev;
     next_page_btn_enabled := next;
     web_view := web_view s; critical := critical s |}.

Definition set_web_view (v : option (string * string)) (s : Window) : Window :=
  {| converter := converter s; file_items := file_items s;
     created := created s; current_file_index := current_file_index s;
     clear_files_btn_enabled := clear_files_btn_enabled s;
     status_label := status_label s; drop_area := drop_area s;
     page_info := page_info s;
     prev_page_btn_enabled := prev_page_btn_enabled s;
     next_page_btn_enabled := next_page_btn_enabled s;
     web_view := v; critical := critical s |}.

Definition set_critical (v : list string) (s : Window) : Window :=
  {| converter := converter s; file_items := file_items s;
     created := created s; current_file_index := current_file_index s;
     clear_files_btn_enabled := clear_files_btn_enabled s;
     status_label := status_label s; drop_area := drop_area s;
     page_info := page_info s;
     prev_page_btn_enabled := prev_page_btn_enabled s;
     next_page_btn_enabled := next_page_btn_enabled s;
     web_view := web_view s; critical := v |}.

(** The window as [__init__] leaves it. *)
Definition initial : Window :=
  {| converter :=
       set_convert_btn false (window Renderer.page_break_marker true true "" []);
     file_items := []; created := 0; current_file_index := 0;
     clear_files_btn_enabled := false;
     status_label := "ファイルを選択してください";
     drop_area := "📄 ここにMarkdownファイルを" ++ nl ++ "ドラッグ&ドロップ";
     page_info := "- / -";
     prev_page_btn_enabled := false; next_page_btn_enabled := false;
     web_view := None; critical := [] |}.

(** What a method leaves behind: it returns, or an exception leaves it with
    the window as changed until then. *)
Inductive Outcome : Set :=
| Returns (s : Window)
| Raises (exn : string) (s : Window).

Definition and_then (o : Outcome) (f : Window -> Outcome) : Outcome :=
  match o with
  | Returns s => f s
  | Raises exn s => Raises exn s
  end.

(** [web_view.setHtml(html, base_url)] from the list functions: the same
    view the pipeline loads its documents into, so one more load whose end
    the view will report. *)
Definition view_setHtml (html base_url : string) (s : Window) : Window :=
  let c := converter s in
  set_web_view (Some (html, base_url))
    (set_converter (set_loads (S (loads c)) c) s).

Definition update_ui_state (s : Window) : Window :=
  let total := List.length (current_files (converter s)) in
  let has_files := 0 <? total in
  let s := set_converter (set_convert_btn has_files (converter s)) s in
  let s := set_clear_files_btn has_files s in
  if has_files then
    let s :=
      set_status_label (str_of_nat total ++ "個のファイルが選択されています") s in
    set_drop_area ("📄 追加のファイルを" ++ nl ++ "ドラッグ&ドロップ") s
  else
    let s := set_status_label "ファイルを選択してください" s in
    set_drop_area ("📄 ここにMarkdownファイルを" ++ nl ++ "ドラッグ&ドロップ") s.

Definition update_page_info (s : Window) : Window :=
  match current_files (converter s) with
  | [] => set_page_btns false false (set_page_info "- / -" s)
  | _ :: _ =>
      let current_index := current_file_index s + 1 in
      let total_files := List.length (current_files (converter s)) in
      let s :=
        set_page_info (str_of_nat current_index ++ " / " ++ str_of_nat total_files)
          s in
      set_page_btns (1 <? current_index) (current_index <? total_files) s
  end.

Definition browse_output_folder (folder_path : string) (s : Window) : Window :=
  match folder_path with
  | EmptyString => s
  | _ => set_converter (set_output_folder folder_path (converter s)) s
  end.

Section Handlers.

Variable w : World.

(** [load_markdown_file(file_path)]; [r] is what opening and reading the
    file gives. *)
Definition load_markdown_file (r : Read) (file_path : string) (s : Window)
  : Window :=
  match r with
  | Content content =>
      let s :=
        match output_folder (converter s) with
        | EmptyString =>
            set_converter (set_output_folder (parent w file_path) (converter s))
              s
        | _ => s
        end in
      let html_content := render w (converter s) content in
      let base_url := parent w file_path ++ "/" in
      let s := view_setHtml html_content base_url s in
      let file_name := stem w file_path in
      let s := set_status_label ("プレビュー中: " ++ file_name ++ ".md") s in
      update_page_info s
  | ReadError e =>
      set_critical
        (critical s
         ++ [("ファイルの読み込みに失敗しました:" ++ nl ++ e)%string])%list s
  end.

(** [select_file_item(selected_item)].  The object handed in is found in the
    list by its identity; [list.index] raises when it is not there. *)
Definition select_file_item (r : Read) (selected_item : FileItem) (s : Window)
  : Outcome :=
  let s := set_file_items (map (set_selected false) (file_items s)) s in
  let s :=
    set_file_items
      (map (fun item =>
              if uid item =? uid selected_item then set_selected true item
              else item)
         (file_items s)) s in
  match find_index (fun item => uid item =? uid selected_item) (file_items s) with
  | None => Raises "ValueError" s
  | Some i =>
      let s := set_current_file_index i s in
      Returns (load_markdown_file r (file_path selected_item) s)
  end.

(** One round of the loop of [add_files]. *)
Definition add_file (s : Window) (file_path : string) : Window :=
  let files := current_files (converter s) in
  if existsb (String.eqb file_path) files then s
  else
    let s :=
      set_converter (set_current_files (files ++ [file_path])%list (converter s))
        s in
    let file_item :=
      {| uid := created s; file_path := file_path; selected := false |} in
    set_file_items (file_items s ++ [file_item])%list
      (set_created (S (created s)) s).

Definition add_files (r : Read) (file_paths : list string) (s : Window)
  : Outcome :=
  let s := fold_left add_file file_paths s in
  let s := update_ui_state s in
  match file_items s with
  | [] => Returns s
  | first :: _ => select_file_item r first s
  end.

Definition clear_files (s : Window) : Window :=
  let s := set_converter (set_current_files [] (converter s)) s in
  let s := set_file_items [] s in
  let s := set_current_file_index 0 s in
  let s := view_setHtml "" "" s in
  update_ui_state s.

Definition remove_single_file (r : Read) (file_path : string) (s : Window)
  : Outcome :=
  let files := current_files (converter s) in
  match find_index (String.eqb file_path) files with
  | None => Returns s
  | Some remove_index =>
      let s :=
        set_converter
          (set_current_files (remove_first (String.eqb file_path) files)
             (converter s)) s in
      let s :=
        set_file_items
          (remove_first
             (fun item => String.eqb (FileList.file_path item) file_path)
             (file_items s)) s in
      let s :=
        if remove_index <=? current_file_index s then
          set_current_file_index (Nat.pred (current_file_index s)) s
        else s in
      and_then
        match file_items s with
        | _ :: _ =>
            let s :=
              if List.length (file_items s) <=? current_file_index s then
                set_current_file_index (List.length (file_items s) - 1) s
              else s in
            match nth_error (file_items s) (current_file_index s) with
            | Some item => select_file_item r item s
            | None => Raises "IndexError" s
            end
        | [] => Returns (set_current_file_index 0 (view_setHtml "" "" s))
        end
        (fun s => Returns (update_ui_state s))
  end.

Definition prev_page (r : Read) (s : Window) : Outcome :=
  if 0 <? current_file_index s then
    match nth_error (file_items s) (current_file_index s - 1) with
    | Some item => select_file_item r item s
    | None => Raises "IndexError" s
    end
  else Returns s.

(** The guard is [current_file_index < len(file_items) - 1] on integers. *)
Definition next_page (r : Read) (s : Window) : Outcome :=
  if current_file_index s + 1 <? List.length (file_items s) then
    match nth_error (file_items s) (current_file_index s + 1) with
    | Some item => select_file_item r item s
    | None => Raises "IndexError" s
    end
  else Returns s.

(** [browse_input_files]; [file_paths] is what the dialog returns. *)
Definition browse_input_files (r : Read) (file_paths : list string)
    (s : Window) : Outcome :=
  match file_paths with
  | [] => Returns s
  | _ :: _ => add_files r file_paths s
  end.

Variable lower : string -> string.

(** [dropEvent]; [files] are the local paths of the dropped URLs, and
    [lower] is [str.lower].  The style sheet it resets is left out. *)
Definition dropEvent (r : Read) (files : list string) (s : Window) : Outcome :=
  let markdown_files :=
    filter (fun f => endswith (lower f) ".md" || endswith (lower f) ".markdown")
      files in
  match markdown_files with
  | [] => Returns s
  | _ :: _ => add_files r markdown_files s
  end.

(** *** What the user does *)

(** The slots of the list and of the preview, each with what the environment
    answers: the paths chosen or dropped, and the result of reading the file
    that gets previewed.  [PressItem i] and [DeleteItem i] are a press on the
    [i]-th widget of the list and on its delete button
    ([FileItem.mousePressEvent], [FileItem.delete_file]). *)
Inductive Action : Set :=
| BrowseFiles (file_paths : list string) (r : Read)
| DropFiles (files : list string) (r : Read)
| ClearFiles
| PressItem (i : nat) (r : Read)
| DeleteItem (i : nat) (r : Read)
| PrevPage (r : Read)
| NextPage (r : Read)
| BrowseFolder (folder_path : string).

Definition slot (a : Action) (s : Window) : Outcome :=
  match a with
  | BrowseFiles file_paths r => browse_input_files r file_paths s
  | DropFiles files r => dropEvent r files s
  | ClearFiles => Returns (clear_files s)
  | PressItem i r =>
      match nth_error (file_items s) i with
      | Some item => select_file_item r item s
      | None => Returns s
      end
  | DeleteItem i r =>
      match nth_error (file_items s) i with
      | Some item => remove_single_file r (file_path item) s
      | None => Returns s
      end
  | PrevPage r => prev_page r s
  | NextPage r => next_page r s
  | BrowseFolder folder_path => Returns (browse_output_folder folder_path s)
  end.

(** An exception that leaves a slot ends the program, as in the pipeline. *)
Definition act (s : Window) (a : Action) : Window :=
  if crashed (converter s) then s
  else
    match slot a s with
    | Returns s' => s'
    | Raises exn s' => set_converter (uncaught exn (converter s')) s'
    end.

Definition run (actions : list Action) (s : Window) : Window :=
  fold_left act actions s.

(** Everything that reaches the window: what the user does with the list, a
    press on Convert (the button emits [clicked] only while enabled), and
    what the event loop delivers to the pipeline. *)
Inductive Input : Set :=
| User (a : Action)
| Convert
| Loop (e : Event).

Definition react (s : Window) (i : Input) : Window :=
  match i with
  | User a => act s a
  | Convert =>
      if crashed (converter s) then s
      else if convert_btn_enabled (converter s) then
        set_converter (convert_to_pdf w (converter s)) s
      else s
  | Loop e => set_converter (step w e (converter s)) s
  end.

Definition session (inputs : list Input) (s : Window) : Window :=
  fold_left react inputs s.

End Handlers.

End FileList.

(** ** What the pipeline leaves alone *)

Module PipelineFrame.
Import PyStr Gui Pipeline PipelineSpec.
Local Open Scope nat_scope.

(** The file list and the settings of the window: what the user chose. *)
Definition options (c : Converter) :=
  (current_files c, output_folder c, pagebreak_input c, include_toc c,
   confirm_overwrite c).

Lemma options_setValue (v : Z) (s : Converter) :
  options (setValue v s) = options s.
Proof. unfold setValue. now destruct (_ && _)%bool. Qed.

Lemma options_finished (s : Converter) :
  options (on_all_conversions_finished s) = options s.
Proof.
  unfold on_all_conversions_finished, singleShot.
  change (options (setValue 100 s) = options s). apply options_setValue.
Qed.

Section Handlers.

Variable w : World.

Lemma options_try_block (next : Converter -> Converter)
    (current_file output_path : string) (index : nat) (s : Converter) :
  (forall s2, options (next s2) = options s2) ->
  options (try_block w next current_file output_path index s) = options s.
Proof.
  intros Hnext. unfold try_block. destruct (read_file w index).
  - change (options
              (setValue (file_progress index (total_files s)
                         + step_progress 20 (total_files s)) s) = options s).
    apply options_setValue.
  - now rewrite Hnext.
Qed.

Lemma options_convert_next_file_from (fuel : nat) :
  forall s, options (convert_next_file_from w fuel s) = options s.
Proof.
  induction fuel as [|fuel IH]; intros s.
  - cbn [convert_next_file_from].
    destruct (_ <=? _); [apply options_finished | reflexivity].
  - rewrite convert_next_file_from_unfold.
    destruct (_ <=? _); [apply options_finished|].
    destruct (nth_error _ _); [|reflexivity].
    cbv zeta.
    destruct (_ && _)%bool.
    + destruct (overwrite_reply w _).
      * rewrite options_try_block by exact IH.
        change (options (setValue (file_progress (current_conversion_index s)
                                     (total_files s)) s) = options s).
        apply options_setValue.
      * rewrite IH.
        change (options (setValue (file_progress (current_conversion_index s)
                                     (total_files s)) s) = options s).
        apply options_setValue.
      * rewrite options_finished.
        change (options (setValue (file_progress (current_conversion_index s)
                                     (total_files s)) s) = options s).
        apply options_setValue.
    + rewrite options_try_block by exact IH. apply options_setValue.
Qed.

Lemma options_convert_next_file (s : Converter) :
  options (convert_next_file w s) = options s.
Proof. apply options_convert_next_file_from. Qed.

Lemma options_fail_current (reason : string) (s : Converter) :
  options (fail_current w reason s) = options s.
Proof.
  unfold fail_current. destruct (nth_error _ _); [|reflexivity].
  now rewrite options_convert_next_file.
Qed.

Lemma options_single (success : bool) (output_path : string) (s : Converter) :
  options (on_single_conversion_finished w success output_path s) = options s.
Proof.
  unfold on_single_conversion_finished. destruct success.
  - rewrite options_convert_next_file.
    change (options (setValue (file_progress (S (current_conversion_index s))
                                 (total_files s)) s) = options s).
    apply options_setValue.
  - destruct (nth_error _ _); [|reflexivity].
    rewrite options_convert_next_file.
    match goal with |- options (advance (setValue ?v ?t)) = _ =>
      change (options (setValue v t) = options s) end.
    now rewrite options_setValue.
Qed.

Lemma options_on_html_loaded (success : bool) (s : Converter) :
  options (on_html_loaded w success s) = options s.
Proof.
  unfold on_html_loaded.
  destruct (negb success); [now rewrite options_fail_current|].
  destruct (connections _); [now rewrite options_fail_current|].
  unfold singleShot.
  match goal with |- options (set_timers _ (setValue ?v ?t)) = _ =>
    change (options (setValue v t) = options s) end.
  now rewrite options_setValue.
Qed.

Lemma options_generate_pdf (s : Converter) :
  options (generate_pdf w s) = options s.
Proof.
  unfold generate_pdf.
  destruct (print_to_pdf w _).
  - rewrite options_fail_current. apply options_setValue.
  - unfold singleShot.
    match goal with |- options (set_timers _ (observe _ (setValue ?v ?t))) = _ =>
      change (options (setValue v t) = options s) end.
    apply options_setValue.
Qed.

Lemma options_check (output_path : string) (s : Converter) :
  options (check_pdf_generation w output_path s) = options s.
Proof.
  unfold check_pdf_generation.
  destruct (probe_first w _) as [|n|e].
  - reflexivity.
  - destruct (1024 <? n)%N; [apply options_single | reflexivity].
  - apply options_fail_current.
Qed.

Lemma options_check_final (output_path : string) (s : Converter) :
  options (check_pdf_generation_final w output_path s) = options s.
Proof.
  unfold check_pdf_generation_final.
  destruct (probe_final w _) as [|n|e].
  - apply options_fail_current.
  - destruct (0 <? n)%N; [|apply options_fail_current].
    destruct (nth_error _ _); [apply options_single | reflexivity].
  - apply options_fail_current.
Qed.

Lemma options_deliver (n : nat) (success : bool) :
  forall s, options (deliver w n success s) = options s.
Proof.
  induction n as [|n IH]; intros s; simpl; [reflexivity|].
  destruct (crashed s); [reflexivity|].
  destruct (connections s =? 0); [reflexivity|].
  now rewrite IH, options_on_html_loaded.
Qed.

Lemma options_step (e : Event) (s : Converter) :
  options (step w e s) = options s.
Proof.
  unfold step. destruct (crashed s); [reflexivity|].
  destruct e as [success | i].
  - unfold emit_loadFinished. destruct (loads s); [reflexivity|].
    now rewrite options_deliver.
  - unfold fire_timer. destruct (nth_error _ _) as [t|]; [|reflexivity].
    destruct (callback t); simpl.
    + now rewrite options_generate_pdf.
    + now rewrite options_check.
    + now rewrite options_check_final.
    + reflexivity.
Qed.

(** The state in which the button's slot enters the first file. *)
Definition started (s : Converter) : Converter :=
  set_convert_btn false
    (setValue 0
       (set_visible true
          (set_errors []
             (set_total (List.length (current_files s)) (set_index 0 s))))).

Lemma convert_to_pdf_started (s : Converter) :
  current_files s <> [] -> output_folder s <> EmptyString ->
  convert_to_pdf w s = convert_next_file w (started s).
Proof.
  intros Hfiles Hfolder. unfold convert_to_pdf.
  destruct (current_files s) eqn:Ef; [congruence|].
  destruct (output_folder s) eqn:Ed; [congruence|]. reflexivity.
Qed.

Lemma convert_to_pdf_idle (s : Converter) :
  current_files s = [] \/ output_folder s = EmptyString ->
  convert_to_pdf w s = s.
Proof.
  unfold convert_to_pdf. intros [H | H]; rewrite H; [reflexivity|].
  now destruct (current_files s).
Qed.

Lemma options_set_convert_btn (b : bool) (s : Converter) :
  options (set_convert_btn b s) = options s.
Proof. reflexivity. Qed.

Lemma options_set_visible (b : bool) (s : Converter) :
  options (set_visible b s) = options s.
Proof. reflexivity. Qed.

Lemma options_set_errors (l : list string) (s : Converter) :
  options (set_errors l s) = options s.
Proof. reflexivity. Qed.

Lemma options_set_total (n : nat) (s : Converter) :
  options (set_total n s) = options s.
Proof. reflexivity. Qed.

Lemma options_set_index (n : nat) (s : Converter) :
  options (set_index n s) = options s.
Proof. reflexivity. Qed.

Lemma options_started (s : Converter) : options (started s) = options s.
Proof.
  unfold started.
  now rewrite options_set_convert_btn, options_setValue, options_set_visible,
    options_set_errors, options_set_total, options_set_index.
Qed.

Lemma options_convert_to_pdf (s : Converter) :
  options (convert_to_pdf w s) = options s.
Proof.
  destruct (list_eq_dec string_dec (current_files s) []) as [Ef | Ef];
    [now rewrite convert_to_pdf_idle by now left|].
  destruct (string_dec (output_folder s) EmptyString) as [Eo | Eo];
    [now rewrite convert_to_pdf_idle by now right|].
  rewrite convert_to_pdf_started by assumption.
  now rewrite options_convert_next_file, options_started.
Qed.

Lemma options_exec (events : list Event) :
  forall s, options (exec w events s) = options s.
Proof.
  induction events as [|e events IH]; intros s; [reflexivity|].
  change (exec w (e :: events) s) with (exec w events (step w e s)).
  now rewrite IH, options_step.
Qed.

(** X1.  The pipeline never writes what the user chose: whatever events a job
    meets, from its start or from any later state, the file list, the output
    folder, the marker field and the two boxes are as they were. *)
Theorem pipeline_leaves_the_choices_alone (events : list Event)
    (s : Converter) :
  let s' := exec w events (convert_to_pdf w s) in
  current_files s' = current_files s
  /\ output_folder s' = output_folder s
  /\ pagebreak_input s' = pagebreak_input s
  /\ include_toc s' = include_toc s
  /\ confirm_overwrite s' = confirm_overwrite s
  /\ options (exec w events s) = options s.
Proof.
  intros s'.
  assert (options s' = options s) as H
    by (subst s'; now rewrite options_exec, options_convert_to_pdf).
  unfold options in H. injection H as H1 H2 H3 H4 H5.
  repeat split; try assumption. apply options_exec.
Qed.

End Handlers.

End PipelineFrame.

(** ** More on the batch pipeline *)

Module JobSpec.
Import PyStr Gui Pipeline PipelineSpec PipelineFrame.
Local Open Scope nat_scope.

(** *** Errors and files *)

(** Every error recorded has cost the cursor a step, and every summary shown
    was made from an error list no longer than the cursor. *)
Definition Counted (total : nat) (s : Converter) : Prop :=
  total_files s = total
  /\ List.length (conversion_errors s) <= current_conversion_index s
  /\ forall k summary,
       In (ObsFinished k summary) (log s) ->
       exists errors,
         summary = summary_of total errors /\ List.length errors <= k.

Lemma counted_step (total : nat) (s s' : Converter) (more : list Obs) :
  total_files s' = total_files s ->
  List.length (conversion_errors s') + current_conversion_index s
  <= List.length (conversion_errors s) + current_conversion_index s' ->
  log s' = (log s ++ more)%list ->
  forallb (fun o => negb (is_finished o)) more = true ->
  Counted total s -> Counted total s'.
Proof.
  intros Ht He Hl Hm (H1 & H2 & H3). split; [congruence|]. split; [lia|].
  intros k summary Hin. rewrite Hl in Hin. apply in_app_or in Hin.
  destruct Hin as [Hin | Hin]; [now apply H3|].
  rewrite forallb_forall in Hm. apply Hm in Hin. discriminate.
Qed.

Lemma setValue_log (v : Z) (s : Converter) :
  exists p, log (setValue v s) = (log s ++ [ObsProgress p])%list.
Proof. unfold setValue. destruct (_ && _)%bool; eexists; reflexivity. Qed.

Lemma counted_setValue (total : nat) (v : Z) (s : Converter) :
  Counted total s -> Counted total (setValue v s).
Proof.
  destruct (setValue_frame v s) as (_ & Ht & Hi & He & _).
  destruct (setValue_log v s) as [p Hl].
  apply (counted_step total s _ [ObsProgress p]);
    [exact Ht | rewrite He, Hi; lia | exact Hl | reflexivity].
Qed.

Lemma counted_plain (total : nat) (s s' : Converter) (o : Obs) :
  total_files s' = total_files s ->
  conversion_errors s' = conversion_errors s ->
  current_conversion_index s <= current_conversion_index s' ->
  log s' = (log s ++ [o])%list -> is_finished o = false ->
  Counted total s -> Counted total s'.
Proof.
  intros Ht He Hi Hl Ho. apply (counted_step total s s' [o]);
    [exact Ht | rewrite He; lia | exact Hl | simpl; now rewrite Ho].
Qed.

Lemma counted_observe (total : nat) (o : Obs) (s : Converter) :
  is_finished o = false -> Counted total s -> Counted total (observe o s).
Proof. intros Ho. now apply (counted_plain total s _ o). Qed.

Lemma counted_quiet (total : nat) (s s' : Converter) :
  total_files s' = total_files s ->
  conversion_errors s' = conversion_errors s ->
  current_conversion_index s <= current_conversion_index s' ->
  log s' = log s ->
  Counted total s -> Counted total s'.
Proof.
  intros Ht He Hi Hl. apply (counted_step total s s' []);
    [exact Ht | rewrite He; lia | now rewrite app_nil_r | reflexivity].
Qed.

Lemma counted_finished (total : nat) (s : Converter) :
  Counted total s -> Counted total (on_all_conversions_finished s).
Proof.
  intros (H1 & H2 & H3).
  destruct (finished_frame s) as (_ & Hi & He & _).
  assert (total_files (on_all_conversions_finished s) = total_files s) as Ht.
  { unfold on_all_conversions_finished, singleShot. state_simpl.
    now destruct (setValue_frame 100 s) as (_ & Ht & _). }
  split; [congruence|]. split; [rewrite He, Hi; exact H2|].
  intros k summary Hin. rewrite finished_log in Hin.
  apply in_app_or in Hin. destruct Hin as [Hin | [Hin | [Hin | []]]].
  - now apply H3.
  - discriminate.
  - injection Hin as <- <-. exists (conversion_errors s). now rewrite H1.
Qed.

Lemma counted_failed (total : nat) (entry : string) (s : Converter) :
  Counted total s -> Counted total (advance (record_error entry s)).
Proof.
  apply (counted_step total s _ [ObsError (current_conversion_index s) entry]);
    state_simpl; try reflexivity.
  rewrite length_app. simpl. lia.
Qed.

Lemma counted_uncaught (total : nat) (exn : string) (s : Converter) :
  Counted total s -> Counted total (uncaught exn s).
Proof. now apply (counted_plain total s _ (ObsUncaught exn)). Qed.

Section Handlers.

Variable w : World.

Lemma counted_try_block (total : nat) (next : Converter -> Converter)
    (current_file output_path : string) (index : nat) (s : Converter) :
  (forall s2, Counted total s2 -> Counted total (next s2)) ->
  Counted total s ->
  Counted total (try_block w next current_file output_path index s).
Proof.
  intros Hnext Hs. unfold try_block. destruct (read_file w index).
  - eapply (counted_plain total _ _ (ObsSetHtml _ _ _));
      [| | | | |apply counted_setValue, Hs]; reflexivity.
  - apply Hnext. now apply counted_failed.
Qed.

Lemma counted_convert_next_file_from (total : nat) (fuel : nat) :
  forall s, Counted total s -> Counted total (convert_next_file_from w fuel s).
Proof.
  induction fuel as [|fuel IH]; intros s Hs.
  - cbn [convert_next_file_from].
    destruct (_ <=? _); [now apply counted_finished | exact Hs].
  - rewrite convert_next_file_from_unfold.
    destruct (_ <=? _); [now apply counted_finished|].
    destruct (nth_error _ _); [|now apply counted_uncaught].
    cbv zeta.
    pose proof (counted_setValue total
                  (file_progress (current_conversion_index s) (total_files s))
                  s Hs) as H1.
    destruct (_ && _)%bool; [|now apply counted_try_block].
    destruct (overwrite_reply w _).
    + apply counted_try_block; [exact IH|]. now apply counted_observe.
    + apply IH.
      eapply (counted_plain total _ _ (ObsPrompt _ No)); [| | | | |exact H1];
        state_simpl; try reflexivity. lia.
    + apply counted_finished. now apply counted_observe.
Qed.

Lemma counted_convert_next_file (total : nat) (s : Converter) :
  Counted total s -> Counted total (convert_next_file w s).
Proof. apply counted_convert_next_file_from. Qed.

Lemma counted_advance_next (total : nat) (s : Converter) :
  Counted total s -> Counted total (convert_next_file w (advance s)).
Proof.
  intros Hs. apply counted_convert_next_file.
  eapply counted_quiet; [| | | |exact Hs]; state_simpl; try reflexivity. lia.
Qed.

Lemma counted_fail_current (total : nat) (reason : string) (s : Converter) :
  Counted total s -> Counted total (fail_current w reason s).
Proof.
  intros Hs. unfold fail_current.
  destruct (nth_error _ _); [|now apply counted_uncaught].
  now apply counted_convert_next_file, counted_failed.
Qed.

Lemma counted_single (total : nat) (output_path : string) (s : Converter) :
  Counted total s ->
  Counted total (on_single_conversion_finished w true output_path s).
Proof.
  intros Hs. unfold on_single_conversion_finished.
  now apply counted_advance_next, counted_setValue.
Qed.

Lemma counted_on_html_loaded (total : nat) (success : bool) (s : Converter) :
  Counted total s -> Counted total (on_html_loaded w success s).
Proof.
  intros Hs. unfold on_html_loaded.
  assert (Counted total
            (observe (ObsHandler (current_conversion_index s) success) s))
    as H1 by now apply counted_observe.
  destruct (negb success); [now apply counted_fail_current|].
  destruct (connections _); [now apply counted_fail_current|].
  unfold singleShot.
  eapply counted_quiet; [| | | |apply counted_setValue]; try reflexivity.
  eapply counted_quiet; [| | | |exact H1]; reflexivity.
Qed.

Lemma counted_generate_pdf (total : nat) (s : Converter) :
  Counted total s -> Counted total (generate_pdf w s).
Proof.
  intros Hs. unfold generate_pdf.
  pose proof (counted_setValue total
                (file_progress (current_conversion_index s) (total_files s)
                 + step_progress 60 (total_files s)) s Hs) as H1.
  destruct (print_to_pdf w _); [now apply counted_fail_current|].
  unfold singleShot.
  eapply (counted_plain total _ _ (ObsPrint _ _)); [| | | | |exact H1];
    reflexivity.
Qed.

Lemma counted_check (total : nat) (output_path : string) (s : Converter) :
  Counted total s -> Counted total (check_pdf_generation w output_path s).
Proof.
  intros Hs. unfold check_pdf_generation.
  destruct (probe_first w _) as [|n|e].
  - eapply counted_quiet; [| | | |exact Hs]; reflexivity.
  - destruct (1024 <? n)%N; [now apply counted_single|].
    eapply counted_quiet; [| | | |exact Hs]; reflexivity.
  - now apply counted_fail_current.
Qed.

Lemma counted_check_final (total : nat) (output_path : string)
    (s : Converter) :
  Counted total s -> Counted total (check_pdf_generation_final w output_path s).
Proof.
  intros Hs. unfold check_pdf_generation_final.
  destruct (probe_final w _) as [|n|e].
  - now apply counted_fail_current.
  - destruct (0 <? n)%N; [|now apply counted_fail_current].
    destruct (nth_error _ _); [now apply counted_single
                              | now apply counted_uncaught].
  - now apply counted_fail_current.
Qed.

Lemma counted_deliver (total : nat) (n : nat) (success : bool) :
  forall s, Counted total s -> Counted total (deliver w n success s).
Proof.
  induction n as [|n IH]; intros s Hs; simpl; [exact Hs|].
  destruct (crashed s); [exact Hs|].
  destruct (connections s =? 0); [exact Hs|].
  now apply IH, counted_on_html_loaded.
Qed.

Lemma counted_step_event (total : nat) (e : Event) (s : Converter) :
  Counted total s -> Counted total (step w e s).
Proof.
  intros Hs. unfold step. destruct (crashed s); [exact Hs|].
  destruct e as [success | i].
  - unfold emit_loadFinished. destruct (loads s); [exact Hs|].
    apply counted_deliver.
    eapply (counted_plain total _ _ (ObsEmit success)); [| | | | |exact Hs];
      reflexivity.
  - unfold fire_timer. destruct (nth_error _ _) as [t|]; [|exact Hs].
    assert (Counted total (set_timers (remove_nth i (timers s)) s)) as H1
      by (eapply counted_quiet; [| | | |exact Hs]; reflexivity).
    destruct (callback t); simpl.
    + now apply counted_generate_pdf.
    + now apply counted_check.
    + now apply counted_check_final.
    + eapply counted_quiet; [| | | |exact H1]; reflexivity.
Qed.

Lemma counted_exec (total : nat) (events : list Event) :
  forall s, Counted total s -> Counted total (exec w events s).
Proof.
  induction events as [|e events IH]; intros s Hs; [exact Hs|].
  apply (IH (step w e s)), counted_step_event, Hs.
Qed.

Lemma counted_set_convert_btn (total : nat) (b : bool) (s : Converter) :
  Counted total s -> Counted total (set_convert_btn b s).
Proof.
  apply (counted_quiet _ s); [reflexivity | reflexivity | apply le_n
                             | reflexivity].
Qed.

Lemma counted_started (marker : string) (toc confirm : bool)
    (folder : string) (files : list string) :
  Counted (List.length files)
    (started (window marker toc confirm folder files)).
Proof.
  unfold started. apply counted_set_convert_btn, counted_setValue.
  split; [vm_compute; reflexivity|]. split; [apply le_n|].
  intros k summary H. vm_compute in H. destruct H.
Qed.

Lemma counted_start (marker : string) (toc confirm : bool) (folder : string)
    (files : list string) :
  files <> [] -> folder <> EmptyString ->
  Counted (List.length files)
    (convert_to_pdf w (window marker toc confirm folder files)).
Proof.
  intros Hfiles Hfolder. rewrite convert_to_pdf_started by assumption.
  apply counted_convert_next_file, counted_started.
Qed.

Lemma exec_idle (events : list Event) (s : Converter) :
  Idle s -> exec w events s = s.
Proof.
  intros Hi. induction events as [|e events IH]; [reflexivity|].
  change (exec w (e :: events) s) with (exec w events (step w e s)).
  now rewrite step_disabled by now apply idle_disabled.
Qed.

Lemma in_job_log (l : list Obs) (o : Obs) : In o (job_log l) -> In o l.
Proof.
  induction l as [|x l IH]; simpl; [tauto|].
  destruct (is_finished x); simpl; intros [H | H]; auto. destruct H.
Qed.

(** X2.  A job never has more errors than files behind the cursor: every
    error recorded moves the cursor on by one.  Until the job is finalized
    the cursor is below the number of files, and the summary that ends the
    job reports at most as many failures as files were reached, hence a
    number of successes between 0 and the number of files. *)
Theorem failures_never_outnumber_files (marker : string) (toc confirm : bool)
    (folder : string) (files : list string) (events : list Event) :
  let total := List.length files in
  let s :=
    exec w events (convert_to_pdf w (window marker toc confirm folder files)) in
  List.length (conversion_errors s) <= current_conversion_index s
  /\ (log s <> [] -> finished s = false -> current_conversion_index s < total)
  /\ forall k summary,
       In (ObsFinished k summary) (job_log (log s)) ->
       k <= total
       /\ (exists errors,
             summary = summary_of total errors /\ List.length errors <= k)
       /\ (0 <= success_count_of summary <= Z.of_nat total)%Z.
Proof.
  intros total s.
  pose proof (status_exec w total events _
                (status_of_start w marker toc confirm folder files)) as Hst.
  fold s in Hst.
  assert (Counted total s
          \/ (s = window marker toc confirm folder files)) as [Hc | Hidle].
  { destruct (list_eq_dec string_dec files []) as [Ef | Ef].
    - right. subst s files. rewrite convert_to_pdf_idle by now left.
      apply exec_idle. repeat split.
    - destruct (string_dec folder EmptyString) as [Eo | Eo].
      + right. subst s folder.
        rewrite convert_to_pdf_idle by now right.
        apply exec_idle. repeat split.
      + left. subst s total. apply counted_exec.
        now apply counted_start. }
  2:{ rewrite Hidle. simpl. split; [lia|]. split; [congruence|].
      intros k summary []. }
  destruct Hc as (Ht & He & Hf). split; [exact He|]. split.
  - intros Hlog Hfin. destruct Hst as [(Hl & _) | ph Hrun Ht' | Hdone].
    + congruence.
    + rewrite <- Ht'. apply (run_index _ _ Hrun).
    + apply done_finished in Hdone. congruence.
  - intros k summary Hin.
    destruct (status_finalization total s Hst k summary Hin) as [_ Hk].
    destruct (Hf k summary (in_job_log _ _ Hin)) as (errors & -> & Hlen).
    assert (k <= total) as Hle by (destruct Hk as [-> | [Hk _]]; lia).
    split; [exact Hle|]. split; [now exists errors|].
    rewrite summary_success_count. lia.
Qed.

End Handlers.

End JobSpec.

(** ** Where the documents are printed *)

Module PathSpec.
Import PyStr Gui Pipeline PipelineSpec PipelineFrame JobSpec.
Local Open Scope nat_scope.

Lemma job_log_app (l more : list Obs) :
  job_log (l ++ more)
  = if existsb is_finished l then job_log l else (l ++ job_log more)%list.
Proof.
  induction l as [|o l IH]; [reflexivity|]. simpl.
  destruct (is_finished o); [reflexivity|]. simpl. rewrite IH.
  now destruct (existsb is_finished l).
Qed.

Lemma options_list (c c' : Converter) :
  options c' = options c ->
  current_files c' = current_files c /\ output_folder c' = output_folder c.
Proof.
  intros H. split.
  - exact (f_equal (fun t => fst (fst (fst (fst t)))) H).
  - exact (f_equal (fun t => snd (fst (fst (fst t)))) H).
Qed.

Section Paths.

Variable w : World.
Variable folder : string.
Variable files : list string.

(** [p] is the output path of file [i]: the stem of its name with [.pdf],
    in the output folder. *)
Definition expected (i : nat) (p : string) : Prop :=
  exists f, nth_error files i = Some f
            /\ p = joinpath w folder (stem w f ++ ".pdf").

Definition Base (s : Converter) : Prop :=
  current_files s = files /\ output_folder s = folder
  /\ forall i p, In (ObsPrint i p) (job_log (log s)) -> expected i p.

(** [current_output_path] is the path of the file at the cursor. *)
Definition Aimed (s : Converter) : Prop :=
  expected (current_conversion_index s) (current_output_path s).

Definition Tracked (s : Converter) : Prop :=
  Base s /\ (finished s = true \/ crashed s = true \/ Aimed s).

Lemma base_more (s s' : Converter) (more : list Obs) :
  current_files s' = current_files s -> output_folder s' = output_folder s ->
  log s' = (log s ++ more)%list ->
  (finished s = false -> forall i p, In (ObsPrint i p) more -> expected i p) ->
  Base s -> Base s'.
Proof.
  intros Hf Ho Hl Hm (H1 & H2 & H3). split; [congruence|]. split; [congruence|].
  intros i p Hin. rewrite Hl, job_log_app in Hin. fold (finished s) in Hin.
  destruct (finished s) eqn:E; [now apply H3|].
  apply in_app_or in Hin. destruct Hin as [Hin | Hin].
  - apply H3. apply Bool.not_true_iff_false in E.
    rewrite job_log_unfinished; [exact Hin|].
    apply forallb_forall. intros o Ho'. apply negb_true_iff.
    destruct (is_finished o) eqn:Eo; [|reflexivity].
    exfalso. apply E. unfold finished. apply existsb_exists. eauto.
  - apply (Hm eq_refl). now apply in_job_log.
Qed.

Lemma finished_more (s s' : Converter) (more : list Obs) :
  log s' = (log s ++ more)%list -> finished s = true -> finished s' = true.
Proof.
  unfold finished. intros -> H. rewrite existsb_app, H. reflexivity.
Qed.

Definition no_print (more : list Obs) : Prop :=
  forall i p, ~ In (ObsPrint i p) more.

(** Same file, same path, nothing printed or only to the path aimed at. *)
Lemma tracked_keep (s s' : Converter) (more : list Obs) :
  current_files s' = current_files s -> output_folder s' = output_folder s ->
  current_conversion_index s' = current_conversion_index s ->
  current_output_path s' = current_output_path s ->
  crashed s' = crashed s ->
  log s' = (log s ++ more)%list ->
  (forall i p, In (ObsPrint i p) more ->
               i = current_conversion_index s /\ p = current_output_path s) ->
  crashed s = false ->
  Tracked s -> Tracked s'.
Proof.
  intros Hf Ho Hi Hp Hc Hl Hm Halive [Hb Hst]. split.
  - apply (base_more s s' more Hf Ho Hl); [|exact Hb].
    intros Hfin i p Hin. destruct (Hm i p Hin) as [-> ->].
    destruct Hst as [H | [H | H]]; [congruence | congruence | exact H].
  - destruct Hst as [H | [H | H]].
    + left. now apply (finished_more s s' more).
    + congruence.
    + right. right. unfold Aimed. now rewrite Hi, Hp.
Qed.

Lemma base_quiet (s s' : Converter) (more : list Obs) :
  current_files s' = current_files s -> output_folder s' = output_folder s ->
  log s' = (log s ++ more)%list -> no_print more ->
  Base s -> Base s'.
Proof.
  intros Hf Ho Hl Hm. apply (base_more s s' more Hf Ho Hl).
  intros _ i p Hin. now apply Hm in Hin.
Qed.

Lemma base_setValue (v : Z) (s : Converter) : Base s -> Base (setValue v s).
Proof.
  destruct (setValue_frame v s)
    as (Hf & _ & _ & _ & _ & _ & _ & _ & _ & Ho & _).
  destruct (setValue_log v s) as [p Hl].
  apply (base_quiet s _ [ObsProgress p] Hf Ho Hl).
  intros i q [H | []]. discriminate.
Qed.

Lemma base_observe (o : Obs) (s : Converter) :
  is_print o = false -> Base s -> Base (observe o s).
Proof.
  intros Hp. apply (base_quiet s _ [o]); try reflexivity.
  intros i q [H | []]. subst o. discriminate.
Qed.

Lemma base_failed (entry : string) (s : Converter) :
  Base s -> Base (advance (record_error entry s)).
Proof.
  apply (base_quiet s _ [ObsError (current_conversion_index s) entry]);
    try reflexivity.
  intros i q [H | []]. discriminate.
Qed.

Lemma base_advance (s : Converter) : Base s -> Base (advance s).
Proof.
  apply (base_quiet s _ []); try reflexivity.
  - state_simpl. now rewrite app_nil_r.
  - intros i q [].
Qed.

Lemma tracked_finished (s : Converter) :
  Base s -> Tracked (on_all_conversions_finished s).
Proof.
  intros Hb. split.
  - destruct (options_list _ _ (options_finished s)) as [Hf Hfo].
    eapply (base_quiet s _ _ Hf Hfo (finished_log s)); [|exact Hb].
    intros i q [H | [H | []]]; discriminate.
  - left. unfold finished. rewrite finished_log, existsb_app. simpl.
    apply orb_true_r.
Qed.

Lemma tracked_uncaught (exn : string) (s : Converter) :
  Base s -> Tracked (uncaught exn s).
Proof.
  intros Hb. split; [|right; left; reflexivity].
  apply (base_quiet s _ [ObsUncaught exn]); try reflexivity; [|exact Hb].
  intros i q [H | []]. discriminate.
Qed.

Lemma tracked_try_block (next : Converter -> Converter)
    (current_file : string) (s0 s : Converter) :
  (forall s2, Base s2 ->
     total_files s2 - current_conversion_index s2
     = total_files s - S (current_conversion_index s) ->
     Tracked (next s2)) ->
  nth_error files (current_conversion_index s) = Some current_file ->
  output_folder s0 = folder ->
  Base s ->
  Tracked
    (try_block w next current_file
       (joinpath w (output_folder s0) (stem w current_file ++ ".pdf"))
       (current_conversion_index s) s).
Proof.
  intros Hnext Hfile Hfolder Hb. unfold try_block.
  destruct (read_file w (current_conversion_index s)).
  - pose proof (base_setValue
                  (file_progress (current_conversion_index s) (total_files s)
                   + step_progress 20 (total_files s)) s Hb) as H1.
    destruct (setValue_frame
                (file_progress (current_conversion_index s) (total_files s)
                 + step_progress 20 (total_files s)) s)
      as (_ & _ & Hi & _).
    split.
    + eapply (base_quiet _ _ [ObsSetHtml _ _ _]); [| | | |exact H1];
        try reflexivity.
      intros i q [H | []]. discriminate.
    + right. right. unfold Aimed, setHtml, connect. state_simpl.
      rewrite Hi, Hfolder. now exists current_file.
  - apply Hnext; [now apply base_failed | state_simpl; lia].
Qed.

Lemma tracked_convert_next_file_from (fuel : nat) :
  forall s, Base s ->
    fuel = total_files s - current_conversion_index s ->
    Tracked (convert_next_file_from w fuel s).
Proof.
  induction fuel as [|fuel IH]; intros s Hb Hfuel.
  - cbn [convert_next_file_from].
    destruct (Nat.leb_spec (total_files s) (current_conversion_index s));
      [now apply tracked_finished | lia].
  - rewrite convert_next_file_from_unfold.
    destruct (Nat.leb_spec (total_files s) (current_conversion_index s));
      [now apply tracked_finished|].
    destruct (nth_error (current_files s) (current_conversion_index s))
      as [current_file|] eqn:Hfile; [|now apply tracked_uncaught].
    cbv zeta.
    destruct (setValue_frame
                (file_progress (current_conversion_index s) (total_files s)) s)
      as (_ & Ht & Hi & _ & _ & _ & _ & _ & _ & Ho & _).
    pose proof (base_setValue
                  (file_progress (current_conversion_index s) (total_files s))
                  s Hb) as H1.
    set (s1 := setValue _ s) in *.
    assert (nth_error files (current_conversion_index s1) = Some current_file)
      as Hfile1 by (rewrite Hi; destruct Hb as (<- & _); exact Hfile).
    assert (output_folder s1 = folder) as Hfolder
      by (rewrite Ho; apply Hb).
    assert (forall s2, Base s2 ->
              total_files s2 - current_conversion_index s2
              = total_files s1 - S (current_conversion_index s1) ->
              Tracked (convert_next_file_from w fuel s2)) as Hnext.
    { intros s2 H2 E. apply IH; [exact H2|]. rewrite E, Ht, Hi. lia. }
    rewrite <- Hi.
    destruct (_ && _)%bool.
    + destruct (overwrite_reply w _).
      * apply (tracked_try_block _ _ s1
                 (observe (ObsPrompt (current_conversion_index s1) Yes) s1));
          [exact Hnext | exact Hfile1 | exact Hfolder
          | now apply base_observe].
      * apply IH; [now apply base_advance, base_observe|].
        state_simpl. rewrite Ht, Hi. lia.
      * apply tracked_finished. now apply base_observe.
    + now apply (tracked_try_block _ _ s1 s1).
Qed.

Lemma tracked_convert_next_file (s : Converter) :
  Base s -> Tracked (convert_next_file w s).
Proof. intros Hb. now apply tracked_convert_next_file_from. Qed.

Lemma tracked_fail_current (reason : string) (s : Converter) :
  Base s -> Tracked (fail_current w reason s).
Proof.
  intros Hb. unfold fail_current.
  destruct (nth_error _ _); [|now apply tracked_uncaught].
  now apply tracked_convert_next_file, base_failed.
Qed.

Lemma tracked_single (output_path : string) (s : Converter) :
  Base s -> Tracked (on_single_conversion_finished w true output_path s).
Proof.
  intros Hb. unfold on_single_conversion_finished.
  now apply tracked_convert_next_file, base_advance, base_setValue.
Qed.

Lemma tracked_setValue (v : Z) (s : Converter) :
  crashed s = false -> Tracked s -> Tracked (setValue v s).
Proof.
  destruct (setValue_frame v s)
    as (Hf & _ & Hi & _ & _ & _ & _ & Hc & _ & Ho & Hp).
  destruct (setValue_log v s) as [p Hl].
  apply (tracked_keep s _ [ObsProgress p]); try assumption.
  intros i q [H | []]. discriminate.
Qed.

Lemma tracked_still (s s' : Converter) :
  current_files s' = current_files s -> output_folder s' = output_folder s ->
  current_conversion_index s' = current_conversion_index s ->
  current_output_path s' = current_output_path s ->
  crashed s' = crashed s -> log s' = log s ->
  crashed s = false -> Tracked s -> Tracked s'.
Proof.
  intros Hf Ho Hi Hp Hc Hl. apply (tracked_keep s s' []); try assumption.
  - now rewrite app_nil_r.
  - intros i q [].
Qed.

Lemma tracked_on_html_loaded (success : bool) (s : Converter) :
  crashed s = false -> Tracked s -> Tracked (on_html_loaded w success s).
Proof.
  intros Halive Ht. unfold on_html_loaded.
  set (o := observe (ObsHandler (current_conversion_index s) success) s).
  assert (Tracked o) as H1.
  { apply (tracked_keep s _ [ObsHandler (current_conversion_index s) success]);
      try reflexivity; try assumption.
    intros i q [H | []]. discriminate. }
  destruct (negb success); [apply tracked_fail_current, H1|].
  destruct (connections o); [apply tracked_fail_current, H1|].
  assert (Tracked (disconnect o)) as H2 by now apply (tracked_still o).
  pose proof (tracked_setValue
                (file_progress (current_conversion_index (disconnect o))
                   (total_files (disconnect o))
                 + step_progress 40 (total_files (disconnect o)))
                (disconnect o) Halive H2) as H3.
  destruct (setValue_frame
              (file_progress (current_conversion_index (disconnect o))
                 (total_files (disconnect o))
               + step_progress 40 (total_files (disconnect o)))
              (disconnect o))
    as (_ & _ & _ & _ & _ & _ & _ & Hc & _).
  unfold singleShot.
  eapply tracked_still; [| | | | | | |exact H3]; try reflexivity.
  rewrite Hc. exact Halive.
Qed.

Lemma tracked_generate_pdf (s : Converter) :
  crashed s = false -> Tracked s -> Tracked (generate_pdf w s).
Proof.
  intros Halive Ht. unfold generate_pdf.
  pose proof (tracked_setValue
                (file_progress (current_conversion_index s) (total_files s)
                 + step_progress 60 (total_files s)) s Halive Ht) as H1.
  destruct (setValue_frame
              (file_progress (current_conversion_index s) (total_files s)
               + step_progress 60 (total_files s)) s)
    as (_ & _ & Hi & _ & _ & _ & _ & Hc & _ & _ & Hp).
  set (s1 := setValue _ s) in *.
  destruct (print_to_pdf w _); [apply tracked_fail_current, H1|].
  unfold singleShot.
  eapply (tracked_keep s1 _ [ObsPrint (current_conversion_index s1)
                               (current_output_path s1)]);
    [| | | | | | | |exact H1]; try reflexivity; [|congruence].
  intros i q [H | []]. injection H as <- <-. now split.
Qed.

Lemma tracked_check (output_path : string) (s : Converter) :
  crashed s = false -> Tracked s ->
  Tracked (check_pdf_generation w output_path s).
Proof.
  intros Halive Ht. unfold check_pdf_generation.
  destruct (probe_first w _) as [|n|e].
  - now apply (tracked_still s).
  - destruct (1024 <? n)%N; [apply tracked_single, Ht|].
    now apply (tracked_still s).
  - apply tracked_fail_current, Ht.
Qed.

Lemma tracked_check_final (output_path : string) (s : Converter) :
  crashed s = false -> Tracked s ->
  Tracked (check_pdf_generation_final w output_path s).
Proof.
  intros Halive Ht. unfold check_pdf_generation_final.
  destruct (probe_final w _) as [|n|e].
  - apply tracked_fail_current, Ht.
  - destruct (0 <? n)%N; [|apply tracked_fail_current, Ht].
    destruct (nth_error _ _); [apply tracked_single, Ht
                              | apply tracked_uncaught, Ht].
  - apply tracked_fail_current, Ht.
Qed.

Lemma tracked_deliver (n : nat) (success : bool) :
  forall s, Tracked s -> Tracked (deliver w n success s).
Proof.
  induction n as [|n IH]; intros s Hs; simpl; [exact Hs|].
  destruct (crashed s) eqn:Ec; [exact Hs|].
  destruct (connections s =? 0); [exact Hs|].
  now apply IH, tracked_on_html_loaded.
Qed.

Lemma tracked_step (e : Event) (s : Converter) :
  Tracked s -> Tracked (step w e s).
Proof.
  intros Hs. unfold step. destruct (crashed s) eqn:Ec; [exact Hs|].
  destruct e as [success | i].
  - unfold emit_loadFinished. destruct (loads s) eqn:El; [exact Hs|].
    apply tracked_deliver.
    apply (tracked_keep s _ [ObsEmit success]); try reflexivity;
      try assumption.
    intros j q [H | []]. discriminate.
  - unfold fire_timer. destruct (nth_error _ _) as [t|]; [|exact Hs].
    assert (Tracked (set_timers (remove_nth i (timers s)) s)) as H1
      by now apply (tracked_still s).
    destruct (callback t); simpl.
    + now apply tracked_generate_pdf.
    + now apply tracked_check.
    + now apply tracked_check_final.
    + now apply (tracked_still (set_timers (remove_nth i (timers s)) s)).
Qed.

Lemma tracked_exec (events : list Event) :
  forall s, Tracked s -> Tracked (exec w events s).
Proof.
  induction events as [|e events IH]; intros s Hs; [exact Hs|].
  apply (IH (step w e s)), tracked_step, Hs.
Qed.

End Paths.

Lemma base_set_convert_btn (w : World) (folder : string)
    (files : list string) (b : bool) (s : Converter) :
  Base w folder files s -> Base w folder files (set_convert_btn b s).
Proof. intros (H1 & H2 & H3). split; [exact H1|]. split; [exact H2 | exact H3]. Qed.

Lemma base_started (w : World) (marker : string) (toc confirm : bool)
    (folder : string) (files : list string) :
  Base w folder files (started (window marker toc confirm folder files)).
Proof.
  unfold started. apply base_set_convert_btn, base_setValue.
  split; [reflexivity|]. split; [reflexivity|].
  intros j q H. vm_compute in H. destruct H.
Qed.

(** X3.  Every document a job prints goes to the output folder under the
    stem of its source's name with [.pdf]: a print call made for the file
    at cursor [i] before the job is finalized names the path
    [joinpath folder (stem files[i] + ".pdf")]. *)
Theorem prints_go_to_the_stem_path (w : World) (marker : string)
    (toc confirm : bool) (folder : string) (files : list string)
    (events : list Event) (i : nat) (p : string) :
  let s :=
    exec w events (convert_to_pdf w (window marker toc confirm folder files)) in
  In (ObsPrint i p) (job_log (log s)) ->
  exists f, nth_error files i = Some f
            /\ p = joinpath w folder (stem w f ++ ".pdf").
Proof.
  intros s Hin.
  assert (Tracked w folder files s
          \/ s = window marker toc confirm folder files) as [Ht | Hidle].
  { destruct (list_eq_dec string_dec files []) as [Ef | Ef].
    - right. subst s files. rewrite convert_to_pdf_idle by now left.
      apply exec_idle. repeat split.
    - destruct (string_dec folder EmptyString) as [Eo | Eo].
      + right. subst s folder. rewrite convert_to_pdf_idle by now right.
        apply exec_idle. repeat split.
      + left. subst s. apply tracked_exec.
        rewrite convert_to_pdf_started by assumption.
        apply tracked_convert_next_file, base_started. }
  - destruct Ht as [(_ & _ & Hb) _]. exact (Hb i p Hin).
  - rewrite Hidle in Hin. destruct Hin.
Qed.

(** One file whose page has been printed. *)
Local Abbreviation one_printed :=
  (exec smooth [LoadFinished true; Timeout 0]
     (convert_to_pdf smooth
        (window "<!-- pagebreak -->" true false "/out" ["a.md"]))).

Lemma one_printed_call :
  In (ObsPrint 0 "/out/a.pdf") (job_log (log one_printed)).
Proof. vm_compute. repeat (first [left; reflexivity | right]). Qed.

Lemma prints_go_to_the_stem_path_witness :
  exists f, nth_error ["a.md"] 0 = Some f
            /\ "/out/a.pdf" = joinpath smooth "/out" (stem smooth f ++ ".pdf").
Proof.
  exact (prints_go_to_the_stem_path smooth "<!-- pagebreak -->" true false
           "/out" ["a.md"] [LoadFinished true; Timeout 0] 0 "/out/a.pdf"
           one_printed_call).
Defined.

End PathSpec.

(** ** Jobs that go well, and jobs that never reach the view *)

Module RunSpec.
Import PyStr Gui Pipeline PipelineSpec PipelineFrame JobSpec PathSpec.
Local Open Scope nat_scope.

Lemma prints_made_app (l l' : list Obs) :
  prints_made (l ++ l') = (prints_made l ++ prints_made l')%list.
Proof. apply flat_map_app. Qed.

Lemma firstn_snoc {A : Type} (l : list A) :
  forall (i : nat) (x : A),
    nth_error l i = Some x -> firstn (S i) l = (firstn i l ++ [x])%list.
Proof.
  induction l as [|a l IH]; intros [|i] x H; try discriminate.
  - injection H as ->. reflexivity.
  - cbn [nth_error] in H. change (a :: firstn (S i) l = a :: (firstn i l ++ [x])%list).
    now rewrite (IH i x H).
Qed.

Lemma setValue_prints (v : Z) (s : Converter) :
  prints_made (log (setValue v s)) = prints_made (log s).
Proof.
  destruct (setValue_log v s) as [p ->]. rewrite prints_made_app. simpl.
  apply app_nil_r.
Qed.

Lemma setValue_finished (v : Z) (s : Converter) :
  existsb is_finished (log (setValue v s)) = existsb is_finished (log s).
Proof.
  destruct (setValue_log v s) as [p ->].
  rewrite existsb_app. simpl. now rewrite !orb_false_r.
Qed.

Section Frame.

Variables (v : Z) (s : Converter).

Lemma setValue_files : current_files (setValue v s) = current_files s.
Proof. apply setValue_frame. Qed.
Lemma setValue_total : total_files (setValue v s) = total_files s.
Proof. apply setValue_frame. Qed.
Lemma setValue_index :
  current_conversion_index (setValue v s) = current_conversion_index s.
Proof. apply setValue_frame. Qed.
Lemma setValue_errors : conversion_errors (setValue v s) = conversion_errors s.
Proof. apply setValue_frame. Qed.
Lemma setValue_connections : connections (setValue v s) = connections s.
Proof. apply setValue_frame. Qed.
Lemma setValue_loads : loads (setValue v s) = loads s.
Proof. apply setValue_frame. Qed.
Lemma setValue_timers : timers (setValue v s) = timers s.
Proof. apply setValue_frame. Qed.
Lemma setValue_crashed : crashed (setValue v s) = crashed s.
Proof. apply setValue_frame. Qed.
Lemma setValue_confirm : confirm_overwrite (setValue v s) = confirm_overwrite s.
Proof. apply setValue_frame. Qed.
Lemma setValue_folder : output_folder (setValue v s) = output_folder s.
Proof. apply setValue_frame. Qed.
Lemma setValue_path : current_output_path (setValue v s) = current_output_path s.
Proof. apply setValue_frame. Qed.

End Frame.

Create Rewrite HintDb frame.
#[local] Hint Rewrite setValue_files setValue_total setValue_index
  setValue_errors setValue_connections setValue_loads setValue_timers
  setValue_crashed setValue_confirm setValue_folder setValue_path
  setValue_prints setValue_finished : frame.

Ltac frame_simpl :=
  repeat (progress (state_simpl; autorewrite with frame in *)).

(** *** A job in which nothing fails *)

Section Smooth.

Variable w : World.
Variables (folder : string) (files : list string) (confirm : bool).

Local Abbreviation total := (List.length files).

(** The output path of a source file. *)
Definition pdf_path (f : string) : string :=
  joinpath w folder (stem w f ++ ".pdf").

(** The job at file [i], with [printed] files printed: the settings as they
    were, no error, and the state Qt keeps as given. *)
Record At (i printed : nat) (tm : list Timer) (conn lds : nat)
    (s : Converter) : Prop := {
  at_total : total_files s = total;
  at_files : current_files s = files;
  at_folder : output_folder s = folder;
  at_confirm : confirm_overwrite s = confirm;
  at_index : current_conversion_index s = i;
  at_errors : conversion_errors s = [];
  at_connections : connections s = conn;
  at_loads : loads s = lds;
  at_timers : timers s = tm;
  at_alive : crashed s = false;
  at_prints : prints_made (log s) = map pdf_path (firstn printed files);
  at_unfinished : finished s = false
}.

Hypothesis Hprompt :
  forall i, i < total ->
    output_exists w i && confirm = true -> overwrite_reply w i = Yes.
Hypothesis Hread : forall i, i < total -> exists c, read_file w i = Content c.
Hypothesis Hprint : forall i, i < total -> print_to_pdf w i = None.
Hypothesis Hprobe :
  forall i, i < total -> exists n, probe_first w i = Size n /\ (1024 < n)%N.

Ltac at_tac :=
  split; unfold finished in *; frame_simpl;
  rewrite ?prints_made_app, ?existsb_app; frame_simpl;
  rewrite ?prints_made_app, ?existsb_app; frame_simpl;
  cbn [prints_made flat_map existsb is_finished app];
  rewrite ?app_nil_r, ?orb_false_r;
  try assumption; try reflexivity; try congruence;
  try (match goal with H : timers _ = _ |- _ => rewrite H end; reflexivity).

(** Entering a file: its load starts. *)
Lemma enter_file (i : nat) (f : string) (s : Converter) :
  At i i [] 0 0 s -> nth_error files i = Some f ->
  At i i [] 1 1 (convert_next_file w s)
  /\ current_output_path (convert_next_file w s) = pdf_path f.
Proof.
  intros H Hf. assert (i < total) as Hlt by (apply nth_error_Some; congruence).
  destruct H. rewrite convert_next_file_eq.
  rewrite at_total0, at_index0, (proj2 (Nat.leb_gt _ _) Hlt), at_files0, Hf.
  cbv zeta. destruct (Hread i Hlt) as [c Hc].
  assert (forall x,
            At i i [] 0 0 x ->
            At i i [] 1 1
              (try_block w (convert_next_file w) f
                 (joinpath w folder (stem w f ++ ".pdf")) i x)
            /\ current_output_path
                 (try_block w (convert_next_file w) f
                    (joinpath w folder (stem w f ++ ".pdf")) i x)
               = pdf_path f) as Htry.
  { intros x Hx. destruct Hx. unfold try_block. rewrite Hc.
    unfold setHtml, connect. split; [at_tac | reflexivity]. }
  frame_simpl. rewrite at_folder0, at_confirm0.
  destruct (output_exists w i && confirm) eqn:E.
  - rewrite (Hprompt i Hlt E). apply Htry. at_tac.
  - apply Htry. at_tac.
Qed.

(** Leaving the last file: the job is finalized. *)
Lemma leave_last (s : Converter) :
  At total total [] 0 0 s ->
  let s' := convert_next_file w s in
  conversion_errors s' = []
  /\ prints_made (log s') = map pdf_path files
  /\ current_conversion_index s' = total
  /\ progress_bar s' = 100%Z
  /\ In (ObsFinished total (AllDone (Z.of_nat total))) (log s')
  /\ crashed s' = false /\ connections s' = 0 /\ loads s' = 0
  /\ convert_btn_enabled s' = true
  /\ timers s' = [{| delay_ms := 2000; callback := HideProgress |}].
Proof.
  clear Hprompt Hread Hprint Hprobe.
  intros H s'. subst s'. destruct H. rewrite convert_next_file_eq.
  rewrite at_total0, at_index0, Nat.leb_refl.
  destruct (finished_frame s) as (Hbar & Hi & He & Hl & Hc & Ht).
  rewrite Hbar, Hi, He, Hl, Hc, Ht, finished_log, prints_made_app.
  rewrite at_prints0, firstn_all, at_errors0, at_index0, at_total0,
    at_connections0, at_loads0, at_timers0.
  unfold on_all_conversions_finished, singleShot. frame_simpl.
  rewrite at_alive0. simpl. rewrite app_nil_r.
  assert (summary_of total [] = AllDone (Z.of_nat total)) as ->.
  { unfold summary_of. cbn [List.length Z.of_nat Z.eqb]. now rewrite Z.sub_0_r. }
  repeat split; try reflexivity.
  apply in_or_app. right. right. left. reflexivity.
Qed.

(** The load ends: the handler is taken off the signal and the page is left
    to settle. *)
Lemma load_ends (i : nat) (s : Converter) :
  At i i [] 1 1 s ->
  At i i [{| delay_ms := 3000; callback := GeneratePdf |}] 0 0
    (step w (LoadFinished true) s)
  /\ current_output_path (step w (LoadFinished true) s)
     = current_output_path s.
Proof.
  intros H. destruct H. unfold step. rewrite at_alive0.
  unfold emit_loadFinished. rewrite at_loads0. cbv zeta.
  frame_simpl. rewrite at_connections0. cbn [deliver].
  frame_simpl. rewrite at_alive0, at_connections0. cbn [Nat.eqb].
  unfold on_html_loaded. frame_simpl. rewrite at_connections0.
  cbn [negb].
  split; [at_tac | frame_simpl; reflexivity].
Qed.

(** The page has settled: it is printed to the output path. *)
Lemma page_is_printed (i : nat) (f : string) (s : Converter) :
  At i i [{| delay_ms := 3000; callback := GeneratePdf |}] 0 0 s ->
  nth_error files i = Some f -> current_output_path s = pdf_path f ->
  At i (S i) [{| delay_ms := 10000; callback := CheckPdf (pdf_path f) |}] 0 0
    (step w (Timeout 0) s).
Proof.
  intros H Hf Hpath.
  assert (i < total) as Hlt by (apply nth_error_Some; congruence).
  destruct H. unfold step. rewrite at_alive0.
  unfold fire_timer. rewrite at_timers0.
  cbn [nth_error remove_nth callback run_callback].
  unfold generate_pdf. frame_simpl. rewrite at_index0, (Hprint i Hlt), Hpath.
  frame_simpl. at_tac.
  rewrite at_prints0, (firstn_snoc _ _ _ Hf), map_app. reflexivity.
Qed.

(** The output is there: the next file is entered. *)
Lemma output_is_there (i : nat) (p : string) (s : Converter) :
  At i (S i) [{| delay_ms := 10000; callback := CheckPdf p |}] 0 0 s ->
  i < total ->
  exists x,
    step w (Timeout 0) s = convert_next_file w x /\ At (S i) (S i) [] 0 0 x.
Proof.
  intros H Hlt. destruct (Hprobe i Hlt) as (n & Hn & Hbig).
  apply N.ltb_lt in Hbig.
  destruct H. unfold step. rewrite at_alive0.
  unfold fire_timer. rewrite at_timers0.
  cbn [nth_error remove_nth callback run_callback].
  unfold check_pdf_generation. frame_simpl. rewrite at_index0, Hn, Hbig.
  unfold on_single_conversion_finished.
  eexists. split; [reflexivity|]. at_tac.
Qed.

(** One file after the other: three events each. *)
Fixpoint smooth_events (n : nat) : list Event :=
  match n with
  | 0 => []
  | S n' => LoadFinished true :: Timeout 0 :: Timeout 0 :: smooth_events n'
  end.

Lemma files_go_well (n : nat) :
  forall (i : nat) (s : Converter),
    i + n = total -> At i i [] 0 0 s ->
    exists x,
      exec w (smooth_events n) (convert_next_file w s) = convert_next_file w x
      /\ At total total [] 0 0 x.
Proof.
  induction n as [|n IH]; intros i s Hn H.
  - exists s. split; [reflexivity|]. now replace total with i by lia.
  - assert (i < total) as Hlt by lia.
    destruct (nth_error files i) as [f|] eqn:Hf;
      [|apply nth_error_None in Hf; lia].
    destruct (enter_file i f s H Hf) as [H1 Hp1].
    destruct (load_ends i _ H1) as [H2 Hp2].
    rewrite Hp1 in Hp2.
    pose proof (page_is_printed i f _ H2 Hf Hp2) as H3.
    destruct (output_is_there i _ _ H3 Hlt) as (x & Hx & H4).
    cbn [smooth_events exec fold_left]. rewrite Hx.
    apply (IH (S i) x); [lia | exact H4].
Qed.

(** The button's slot leaves the job before its first file. *)
Lemma job_starts (marker : string) (toc : bool) :
  At 0 0 [] 0 0 (started (window marker toc confirm folder files)).
Proof.
  clear. split; vm_compute; reflexivity.
Qed.

End Smooth.

(** X4.  When every source can be read, every page prints and every output is
    larger than 1 KiB at the first check (and the user agrees to every
    overwrite that is asked about), a job over any non-empty list of files
    prints each file, in the order of the list, to
    [<output folder>/<stem>.pdf], records no error, and ends, after three
    events per file, with the summary of [total] successes, the bar at 100,
    the button enabled again, no handler connected and no load pending. *)
Theorem all_files_are_converted (w : World) (marker : string)
    (toc confirm : bool) (folder : string) (files : list string) :
  files <> [] -> folder <> EmptyString ->
  (forall i, i < List.length files ->
     output_exists w i && confirm = true -> overwrite_reply w i = Yes) ->
  (forall i, i < List.length files -> exists c, read_file w i = Content c) ->
  (forall i, i < List.length files -> print_to_pdf w i = None) ->
  (forall i, i < List.length files ->
     exists n, probe_first w i = Size n /\ (1024 < n)%N) ->
  let s :=
    exec w (smooth_events (List.length files))
      (convert_to_pdf w (window marker toc confirm folder files)) in
  conversion_errors s = []
  /\ prints_made (log s)
     = map (fun f => joinpath w folder (stem w f ++ ".pdf")) files
  /\ current_conversion_index s = List.length files
  /\ progress_bar s = 100%Z
  /\ In (ObsFinished (List.length files)
           (AllDone (Z.of_nat (List.length files)))) (log s)
  /\ crashed s = false /\ connections s = 0 /\ loads s = 0
  /\ convert_btn_enabled s = true
  /\ timers s = [{| delay_ms := 2000; callback := HideProgress |}].
Proof.
  intros Hfiles Hfolder Hprompt Hread Hprint Hprobe s. subst s.
  rewrite convert_to_pdf_started by assumption.
  destruct (files_go_well w folder files confirm Hprompt Hread Hprint Hprobe
              (List.length files) 0 _ eq_refl
              (job_starts w folder files confirm marker toc))
    as (y & -> & Hy).
  exact (leave_last w folder files confirm y Hy).
Qed.


(** *** A job that never reaches the view *)

Section Unreadable.

Variable w : World.
Variables (folder : string) (files : list string) (confirm : bool).
Variable reason : nat -> string.

Local Abbreviation total := (List.length files).

(** The entry recorded for the unreadable file at cursor [i]. *)
Definition read_error_entry (i : nat) (f : string) : string :=
  stem w f ++ ".md: " ++ reason i.

(** The job before file [i], every earlier file having been unreadable. *)
Record Unread (i : nat) (s : Converter) : Prop := {
  un_total : total_files s = total;
  un_files : current_files s = files;
  un_folder : output_folder s = folder;
  un_confirm : confirm_overwrite s = confirm;
  un_index : current_conversion_index s = i;
  un_count : List.length (conversion_errors s) = i;
  un_entries :
    forall j f, nth_error files j = Some f -> j < i ->
      nth_error (conversion_errors s) j = Some (read_error_entry j f);
  un_connections : connections s = 0;
  un_loads : loads s = 0;
  un_timers : timers s = [];
  un_alive : crashed s = false;
  un_started : loads_started (log s) = [];
  un_prints : prints_made (log s) = [];
  un_button : convert_btn_enabled s = false
}.

Hypothesis Hprompt :
  forall i, i < total ->
    output_exists w i && confirm = true -> overwrite_reply w i = Yes.
Hypothesis Hread : forall i, i < total -> read_file w i = ReadError (reason i).

Lemma loads_started_app (l l' : list Obs) :
  loads_started (l ++ l') = (loads_started l ++ loads_started l')%list.
Proof. apply flat_map_app. Qed.

Lemma setValue_started (v : Z) (s : Converter) :
  loads_started (log (setValue v s)) = loads_started (log s).
Proof.
  destruct (setValue_log v s) as [p ->]. rewrite loads_started_app. simpl.
  apply app_nil_r.
Qed.

Lemma setValue_button (v : Z) (s : Converter) :
  convert_btn_enabled (setValue v s) = convert_btn_enabled s.
Proof. unfold setValue. now destruct (_ && _)%bool. Qed.

Ltac un_tac :=
  frame_simpl;
  rewrite ?prints_made_app, ?loads_started_app, ?setValue_started,
    ?setValue_button; frame_simpl;
  rewrite ?prints_made_app, ?loads_started_app, ?setValue_started,
    ?setValue_button; frame_simpl;
  cbn [prints_made loads_started flat_map app];
  rewrite ?app_nil_r;
  try assumption; try reflexivity;
  try (f_equal; assumption).

(** An unreadable file is recorded and left behind. *)
Lemma unread_next (i : nat) (f : string) (s : Converter) :
  Unread i s -> nth_error files i = Some f ->
  exists x, convert_next_file w s = convert_next_file w x /\ Unread (S i) x.
Proof.
  intros H Hf. assert (i < total) as Hlt by (apply nth_error_Some; congruence).
  destruct H. rewrite convert_next_file_eq.
  rewrite un_total0, un_index0, (proj2 (Nat.leb_gt _ _) Hlt), un_files0, Hf.
  cbv zeta.
  assert (forall x,
            Unread i x ->
            exists y,
              try_block w (convert_next_file w) f
                 (joinpath w folder (stem w f ++ ".pdf")) i x
              = convert_next_file w y /\ Unread (S i) y) as Htry.
  { intros x Hx. destruct Hx. unfold try_block. rewrite (Hread i Hlt).
    eexists. split; [reflexivity|]. split; un_tac.
    - rewrite length_app, un_count1. simpl. lia.
    - intros j g Hg Hj. destruct (Nat.eq_dec j i) as [->|Hne].
      + rewrite nth_error_app2 by lia. rewrite un_count1, Nat.sub_diag.
        cbn [nth_error]. rewrite Hf in Hg. injection Hg as <-.
        reflexivity.
      + rewrite nth_error_app1 by lia. apply un_entries1; [exact Hg | lia]. }
  frame_simpl. rewrite un_folder0, un_confirm0.
  destruct (output_exists w i && confirm) eqn:E.
  - rewrite (Hprompt i Hlt E). apply Htry. split; un_tac.
  - apply Htry. split; un_tac.
Qed.

Lemma unread_all (n : nat) :
  forall (i : nat) (s : Converter),
    i + n = total -> Unread i s ->
    exists x, convert_next_file w s = convert_next_file w x /\ Unread total x.
Proof.
  induction n as [|n IH]; intros i s Hn H.
  - exists s. split; [reflexivity|]. now replace total with i by lia.
  - destruct (nth_error files i) as [f|] eqn:Hf;
      [|apply nth_error_None in Hf; lia].
    destruct (unread_next i f s H Hf) as (x & -> & Hx).
    apply (IH (S i) x); [lia | exact Hx].
Qed.

Lemma unread_start (marker : string) (toc : bool) :
  Unread 0 (started (window marker toc confirm folder files)).
Proof.
  clear Hprompt Hread.
  split;
    first [ intros j g _ Hj; exfalso; inversion Hj | vm_compute; reflexivity ].
Qed.

Lemma unread_end (s : Converter) :
  Unread total s ->
  let s' := convert_next_file w s in
  List.length (conversion_errors s') = total
  /\ (forall i f, nth_error files i = Some f ->
        nth_error (conversion_errors s') i = Some (read_error_entry i f))
  /\ loads_started (log s') = [] /\ prints_made (log s') = []
  /\ loads s' = 0 /\ connections s' = 0
  /\ current_conversion_index s' = total
  /\ crashed s' = false
  /\ In (ObsFinished total (summary_of total (conversion_errors s')))
        (log s')
  /\ success_count_of (summary_of total (conversion_errors s')) = 0%Z
  /\ progress_bar s' = 100%Z
  /\ convert_btn_enabled s' = true
  /\ timers s' = [{| delay_ms := 2000; callback := HideProgress |}].
Proof.
  clear Hprompt Hread.
  intros H s'. subst s'. destruct H. rewrite convert_next_file_eq.
  rewrite un_total0, un_index0, Nat.leb_refl.
  destruct (finished_frame s) as (Hbar & Hi & He & Hl & Hc & Ht).
  rewrite Hbar, Hi, He, Hl, Hc, Ht, finished_log, prints_made_app,
    loads_started_app.
  rewrite un_prints0, un_started0, un_index0, un_connections0, un_loads0,
    un_timers0, un_count0, summary_success_count, un_count0.
  unfold on_all_conversions_finished. frame_simpl. rewrite un_alive0.
  split; [reflexivity|]. split.
  { intros i f Hf. apply un_entries0; [exact Hf|].
    apply nth_error_Some. congruence. }
  repeat split; try reflexivity.
  - apply in_or_app. right. right. left. now rewrite un_total0.
  - lia.
Qed.

End Unreadable.


(** Two files in the world where nothing fails. *)
Lemma two_files_given : ["a.md"; "b.md"] <> [].
Proof. discriminate. Qed.

Lemma out_folder_given : "/out" <> EmptyString.
Proof. discriminate. Qed.

Lemma smooth_agrees (n : nat) :
  forall i, i < n ->
    output_exists smooth i && false = true -> overwrite_reply smooth i = Yes.
Proof. reflexivity. Qed.

Lemma smooth_reads (n : nat) :
  forall i, i < n -> exists c, read_file smooth i = Content c.
Proof. intros i _. now exists "# Title". Qed.

Lemma smooth_prints (n : nat) :
  forall i, i < n -> print_to_pdf smooth i = None.
Proof. reflexivity. Qed.

Lemma smooth_writes (n : nat) :
  forall i, i < n -> exists k, probe_first smooth i = Size k /\ (1024 < k)%N.
Proof. intros i _. now exists 5000%N. Qed.

Lemma all_files_are_converted_witness :
  prints_made
    (log (exec smooth (smooth_events (List.length ["a.md"; "b.md"]))
            (convert_to_pdf smooth
               (window "<!-- pagebreak -->" true false "/out"
                  ["a.md"; "b.md"]))))
  = map (fun f => joinpath smooth "/out" (stem smooth f ++ ".pdf"))
      ["a.md"; "b.md"].
Proof.
  exact (proj1 (proj2
           (all_files_are_converted smooth "<!-- pagebreak -->" true false
              "/out" ["a.md"; "b.md"] two_files_given out_folder_given
              (smooth_agrees 2) (smooth_reads 2) (smooth_prints 2)
              (smooth_writes 2)))).
Defined.

(** Two files that cannot be opened. *)
Definition locked : World :=
  scripted (fun _ => false) (fun _ => Yes)
    (fun _ => ReadError "Permission denied") (fun _ => None)
    (fun _ => Missing) (fun _ => Missing).

Lemma locked_agrees (n : nat) :
  forall i, i < n ->
    output_exists locked i && false = true -> overwrite_reply locked i = Yes.
Proof. reflexivity. Qed.

Lemma locked_reads (n : nat) :
  forall i, i < n -> read_file locked i = ReadError "Permission denied".
Proof. reflexivity. Qed.


End RunSpec.

(** ** Markers that are replaced without a trace *)

Module MarkerSpec.
Import PyStr PyStrFacts Gui Renderer.

(** The non-empty suffixes of a string, the longest first. *)
Fixpoint suffixes (s : string) : list string :=
  match s with
  | EmptyString => []
  | String _ s' => s :: suffixes s'
  end.

Definition proper_suffixes (s : string) : list string :=
  match s with
  | EmptyString => []
  | String _ s' => suffixes s'
  end.

(** Neither string starts with the other. *)
Definition clash (u v : string) : bool :=
  match strip_prefix u v, strip_prefix v u with
  | None, None => true
  | _, _ => false
  end.

(** A marker [m] and a replacement [d] that cannot be confused: no end of
    [m] is a beginning of [m] or goes on as [d] does, and no end of [d]
    goes on as [m] does. *)
Definition separable (m d : string) : bool :=
  forallb (fun v => clash v m) (proper_suffixes m)
  && forallb (fun v => clash v d) (proper_suffixes m)
  && forallb (fun u => clash u m) (suffixes d).

Lemma clash_sym (u v : string) : clash u v = clash v u.
Proof.
  unfold clash. destruct (strip_prefix u v), (strip_prefix v u); reflexivity.
Qed.

(** A prefix [m] of [u ++ y] ends inside [u] or goes on into [y]. *)
Lemma prefix_split (u : string) :
  forall m y r,
    strip_prefix m (u ++ y) = Some r ->
    (exists r', strip_prefix m u = Some r')
    \/ (exists v, m = u ++ v /\ v <> EmptyString /\ strip_prefix v y = Some r).
Proof.
  induction u as [|c u IH]; intros m y r H.
  - destruct m as [|a m]; [left; now exists EmptyString|].
    right. exists (String a m). repeat split; [discriminate | exact H].
  - destruct m as [|a m]; [left; now exists (String c u)|].
    simpl in H. destruct (Ascii.eqb_spec a c) as [->|]; [|discriminate].
    destruct (IH m y r H) as [[r' Hr] | (v & -> & Hv & Hy)].
    + left. exists r'. simpl. now rewrite Ascii.eqb_refl.
    + right. exists v. repeat split; assumption.
Qed.

Lemma clash_extend (m u y : string) :
  clash u m = true -> strip_prefix m (u ++ y) = None.
Proof.
  intros Hc. destruct (strip_prefix m (u ++ y)) as [r|] eqn:E; [|reflexivity].
  exfalso. unfold clash in Hc.
  destruct (prefix_split u m y r E) as [[r' Hr] | (v & -> & _ & _)].
  - rewrite Hr in Hc. now destruct (strip_prefix u m).
  - now rewrite strip_prefix_app in Hc.
Qed.

Lemma in_suffixes (u v : string) :
  v <> EmptyString -> In v (suffixes (u ++ v)).
Proof.
  intros Hv. induction u as [|c u IH]; simpl.
  - destruct v; [congruence | now left].
  - now right.
Qed.

Lemma in_proper_suffixes (u v : string) :
  u <> EmptyString -> v <> EmptyString -> In v (proper_suffixes (u ++ v)).
Proof.
  intros Hu Hv. destruct u as [|c u]; [congruence|]. simpl.
  now apply in_suffixes.
Qed.

(** Positions at which the marker cannot start add no occurrence. *)
Lemma occurrences_skip (m t rest : string) :
  (forall u, In u (suffixes t) -> strip_prefix m (u ++ rest) = None) ->
  occurrences m (t ++ rest) = occurrences m rest.
Proof.
  induction t as [|c t IH]; intros H; [reflexivity|].
  change (String c t ++ rest) with (String c (t ++ rest)).
  cbn [occurrences].
  change (String c (t ++ rest)) with (String c t ++ rest).
  rewrite (H (String c t)) by now left.
  apply IH. intros u Hu. apply H. now right.
Qed.

Section Marker.

Variables (a : ascii) (p : string) (d : string).
Local Abbreviation m := (String a p).

Hypothesis Hsep : separable m d = true.

Lemma sep_parts :
  (forall v, In v (proper_suffixes m) -> clash v m = true)
  /\ (forall v, In v (proper_suffixes m) -> clash v d = true)
  /\ (forall u, In u (suffixes d) -> clash u m = true).
Proof.
  pose proof Hsep as H. unfold separable in H.
  rewrite !andb_true_iff in H. destruct H as [[H1 H2] H3].
  rewrite forallb_forall in H1, H2, H3. auto.
Qed.

Lemma sep_border (v : string) :
  In v (proper_suffixes m) -> clash v m = true.
Proof. apply sep_parts. Qed.

Lemma sep_tail (v : string) :
  In v (proper_suffixes m) -> clash v d = true.
Proof. apply sep_parts. Qed.

Lemma sep_div (u : string) : In u (suffixes d) -> clash u m = true.
Proof. apply sep_parts. Qed.

Lemma occurrences_match (rest : string) :
  occurrences m (m ++ rest) = S (occurrences m rest).
Proof.
  change (m ++ rest) with (String a (p ++ rest)). cbn [occurrences].
  change (String a (p ++ rest)) with (m ++ rest).
  rewrite strip_prefix_app. simpl. f_equal.
  apply occurrences_skip. intros u Hu.
  apply clash_extend, sep_border. exact Hu.
Qed.

(** Every occurrence is counted, and so replaced. *)
Lemma count_is_occurrences (s : string) : str_count s m = occurrences m s.
Proof.
  induction s as [|rest IH|c s E IH] using (scan_ind a p).
  - reflexivity.
  - now rewrite str_count_match, occurrences_match, IH.
  - rewrite (str_count_skip _ _ _ _ E), IH. cbn [occurrences]. now rewrite E.
Qed.

Lemma replace_cases (t : string) :
  t = EmptyString
  \/ (exists rest, t = m ++ rest
                   /\ str_replace t m d = d ++ str_replace rest m d)
  \/ (exists c t', t = String c t' /\ strip_prefix m t = None
                   /\ str_replace t m d = String c (str_replace t' m d)).
Proof.
  destruct t as [|c t]; [now left|]. right.
  destruct (strip_prefix m (String c t)) as [rest|] eqn:E.
  - left. exists rest. apply strip_prefix_Some in E. rewrite E.
    split; [reflexivity | apply str_replace_match].
  - right. exists c, t. split; [reflexivity|].
    split; [reflexivity | now apply str_replace_skip].
Qed.

(** An end of the marker that starts the text after replacement started the
    text before it. *)
Lemma prefix_of_replaced (v : string) :
  forall u t r,
    m = u ++ v -> v <> EmptyString ->
    strip_prefix v (str_replace t m d) = Some r ->
    exists r', strip_prefix v t = Some r'.
Proof.
  induction v as [|b v IH]; intros u t r Hm Hv H; [congruence|].
  destruct (replace_cases t) as [-> | [(rest & -> & Hr) | (c & t' & -> & E & Hr)]].
  - discriminate.
  - rewrite Hr in H. destruct u as [|c u].
    + simpl in Hm. rewrite <- Hm. exists rest. apply strip_prefix_app.
    + rewrite (clash_extend (String b v) d) in H; [discriminate|].
      rewrite clash_sym. apply sep_tail. rewrite Hm.
      apply in_proper_suffixes; discriminate.
  - rewrite Hr in H. simpl in H |- *.
    destruct (Ascii.eqb b c); [|discriminate].
    destruct v as [|b' v']; [now exists t'|].
    apply (IH (u ++ String b EmptyString) t' r); [|discriminate | exact H].
    rewrite Hm, append_assoc. reflexivity.
Qed.

(** The text after replacement holds no marker. *)
Lemma replaced_is_clean (s : string) : occurrences m (str_replace s m d) = 0.
Proof.
  induction s as [|rest IH|c s E IH] using (scan_ind a p).
  - reflexivity.
  - rewrite str_replace_match, occurrences_skip; [exact IH|].
    intros u Hu. rewrite (clash_extend m u); [reflexivity|].
    now apply sep_div.
  - rewrite (str_replace_skip _ _ _ _ _ E). cbn [occurrences]. rewrite IH.
    destruct (strip_prefix m (String c (str_replace s m d))) as [r|] eqn:E';
      [|reflexivity].
    rewrite <- (str_replace_skip _ _ d _ _ E) in E'.
    destruct (prefix_of_replaced m EmptyString (String c s) r eq_refl
                ltac:(discriminate) E') as [r' Hr'].
    congruence.
Qed.

End Marker.

Lemma default_marker_separable :
  separable page_break_marker page_break_div = true.
Proof. vm_compute. reflexivity. Qed.

Lemma replace_absent (marker new text : string) :
  marker <> EmptyString -> contains marker text = false ->
  str_replace text marker new = text.
Proof.
  intros Hne Hc. destruct marker as [|a p]; [congruence|].
  unfold contains in Hc. rewrite negb_false_iff, Nat.eqb_eq in Hc.
  rewrite replace_join_split.
  destruct (split_unfold a p text) as [[_ ->] | (x & s' & E & H1 & _)].
  - reflexivity.
  - exfalso. rewrite E, <- append_assoc in Hc.
    pose proof (occurrences_app_ge (String a p) (x ++ String a p) s'
                  ltac:(discriminate)) as Hge.
    lia.
Qed.

Section Markdown.

Variable Md : Type.
Variable Markdown : list string -> Md.
Variable convert : Md -> string -> string * Md.

(** X6.  A text that does not hold the marker reaches the Markdown library as
    it is. *)
Theorem text_without_marker_is_unchanged (self : Converter) (text : string) :
  let marker := py_or (pagebreak_input self) page_break_marker in
  contains marker text = false ->
  markdown_to_html Md Markdown convert self text
  = html_template (fst (convert (Markdown (extensions self)) text)).
Proof.
  intros marker Hc. unfold markdown_to_html. fold marker.
  rewrite replace_absent;
    [reflexivity | apply RendererSpec.effective_marker_nonempty | exact Hc].
Qed.

(** X7.  For a marker that cannot be confused with itself or with the
    page-break element (the default marker is one), every occurrence in the
    text is replaced, overlaps being impossible, and the text handed to the
    Markdown library holds no marker any more. *)
Theorem separable_marker_leaves_no_trace (self : Converter) (text : string) :
  let marker := py_or (pagebreak_input self) page_break_marker in
  let sent := str_replace text marker page_break_div in
  separable marker page_break_div = true ->
  markdown_to_html Md Markdown convert self text
  = html_template (fst (convert (Markdown (extensions self)) sent))
  /\ contains marker sent = false
  /\ str_count text marker = occurrences marker text.
Proof.
  intros marker sent Hsep. split; [reflexivity|].
  pose proof (RendererSpec.effective_marker_nonempty self) as Hne.
  fold marker in Hne. subst sent. destruct marker as [|a p]; [congruence|].
  split.
  - unfold contains. now rewrite replaced_is_clean.
  - now apply count_is_occurrences with (d := page_break_div).
Qed.

End Markdown.

Lemma text_without_marker_is_unchanged_witness :
  markdown_to_html unit (fun _ => tt) RendererSpec.echo
    (window "" true true "/out" ["a.md"]) "# Title"
  = html_template
      (fst (RendererSpec.echo
              (tt : unit) "# Title")).
Proof.
  exact (text_without_marker_is_unchanged unit (fun _ => tt) RendererSpec.echo
           (window "" true true "/out" ["a.md"]) "# Title" eq_refl).
Defined.

Lemma separable_marker_leaves_no_trace_witness :
  contains
    (py_or (pagebreak_input (window "" true true "/out" ["a.md"]))
       page_break_marker)
    (str_replace "one<!-- pagebreak -->two"
       (py_or (pagebreak_input (window "" true true "/out" ["a.md"]))
          page_break_marker)
       page_break_div)
  = false.
Proof.
  exact (proj1 (proj2 (separable_marker_leaves_no_trace unit (fun _ => tt)
                         RendererSpec.echo
                         (window "" true true "/out" ["a.md"])
                         "one<!-- pagebreak -->two"
                         default_marker_separable))).
Defined.

End MarkerSpec.

(** ** Properties of the file list and the preview *)

Module FileListSpec.
Import PyStr Gui Pipeline PipelineFrame FileList.
Local Open Scope nat_scope.

(** *** Python's list operations *)

Lemma find_index_Some {A : Type} (p : A -> bool) (l : list A) (i : nat) :
  find_index p l = Some i ->
  exists x, nth_error l i = Some x /\ p x = true
            /\ forall j y, j < i -> nth_error l j = Some y -> p y = false.
Proof.
  revert i. induction l as [|a l IH]; intros i H; [discriminate|].
  simpl in H. destruct (p a) eqn:Ea.
  - injection H as <-. exists a. repeat split; [exact Ea|]. intros j y Hj. lia.
  - destruct (find_index p l) as [k|]; [|discriminate].
    injection H as <-. destruct (IH k eq_refl) as (x & Hx & Hp & Hbefore).
    exists x. repeat split; [exact Hx | exact Hp |].
    intros [|j] y Hj Hy.
    + simpl in Hy. now injection Hy as <-.
    + apply (Hbefore j); [lia | exact Hy].
Qed.

Lemma find_index_None {A : Type} (p : A -> bool) (l : list A) :
  find_index p l = None <-> existsb p l = false.
Proof.
  induction l as [|a l IH]; simpl; [tauto|].
  destruct (p a); simpl; [split; discriminate|].
  destruct (find_index p l); simpl; split; intros H; try discriminate.
  - apply IH in H. discriminate.
  - now apply IH.
  - reflexivity.
Qed.

Lemma find_index_first {A : Type} (p : A -> bool) (l : list A) (i : nat)
    (x : A) :
  nth_error l i = Some x -> p x = true ->
  (forall j y, j < i -> nth_error l j = Some y -> p y = false) ->
  find_index p l = Some i.
Proof.
  revert i. induction l as [|a l IH]; intros [|i] Hx Hp Hbefore;
    try discriminate; simpl in *.
  - injection Hx as ->. now rewrite Hp.
  - rewrite (Hbefore 0 a); [|lia|reflexivity].
    rewrite (IH i Hx Hp); [reflexivity|].
    intros j y Hj Hy. apply (Hbefore (S j)); [lia | exact Hy].
Qed.

(** In a list whose keys differ, the test for a key finds its owner. *)
Lemma nth_error_key_inj {A : Type} (key : A -> nat) (l : list A) (i j : nat)
    (x y : A) :
  NoDup (map key l) -> nth_error l i = Some x -> nth_error l j = Some y ->
  key x = key y -> i = j.
Proof.
  intros Hnd Hx Hy Hk.
  apply (proj1 (NoDup_nth_error (map key l)) Hnd).
  - rewrite length_map. apply nth_error_Some. congruence.
  - rewrite !nth_error_map, Hx, Hy. simpl. now rewrite Hk.
Qed.

Lemma find_index_key {A : Type} (key : A -> nat) (l : list A) (i : nat)
    (x : A) :
  NoDup (map key l) -> nth_error l i = Some x ->
  find_index (fun y => key y =? key x) l = Some i.
Proof.
  intros Hnd Hx. apply (find_index_first _ l i x Hx).
  - apply Nat.eqb_refl.
  - intros j y Hj Hy. apply Nat.eqb_neq. intros Hk.
    pose proof (nth_error_key_inj key l j i y x Hnd Hy Hx Hk). lia.
Qed.

Lemma remove_first_split {A : Type} (p : A -> bool) (l : list A) (i : nat) :
  find_index p l = Some i ->
  remove_first p l = (firstn i l ++ skipn (S i) l)%list.
Proof.
  revert i. induction l as [|a l IH]; intros i H; [discriminate|].
  simpl in *. destruct (p a).
  - now injection H as <-.
  - destruct (find_index p l) as [k|]; [|discriminate].
    injection H as <-. simpl. now rewrite (IH k eq_refl).
Qed.

Lemma remove_first_absent {A : Type} (p : A -> bool) (l : list A) :
  find_index p l = None -> remove_first p l = l.
Proof.
  induction l as [|a l IH]; [reflexivity|]. simpl.
  destruct (p a); [discriminate|].
  destruct (find_index p l); [discriminate|]. intros _. now rewrite IH.
Qed.

Lemma find_index_map {A B : Type} (f : A -> B) (p : B -> bool) (l : list A) :
  find_index p (map f l) = find_index (fun x => p (f x)) l.
Proof.
  induction l as [|a l IH]; [reflexivity|]. simpl. now rewrite IH.
Qed.

Lemma remove_first_map {A B : Type} (f : A -> B) (p : B -> bool) (l : list A) :
  remove_first p (map f l) = map f (remove_first (fun x => p (f x)) l).
Proof.
  induction l as [|a l IH]; [reflexivity|]. simpl.
  destruct (p (f a)); [reflexivity|]. simpl. now rewrite IH.
Qed.

Lemma remove_first_ext {A : Type} (p q : A -> bool) (l : list A) :
  (forall x, p x = q x) -> remove_first p l = remove_first q l.
Proof.
  intros H. induction l as [|a l IH]; [reflexivity|]. simpl.
  now rewrite H, IH.
Qed.

Lemma find_index_ext {A : Type} (p q : A -> bool) (l : list A) :
  (forall x, p x = q x) -> find_index p l = find_index q l.
Proof.
  intros H. induction l as [|a l IH]; [reflexivity|]. simpl.
  now rewrite H, IH.
Qed.

Lemma find_index_lt {A : Type} (p : A -> bool) (l : list A) (i : nat) :
  find_index p l = Some i -> i < List.length l.
Proof.
  intros H. destruct (find_index_Some p l i H) as (x & Hx & _).
  apply nth_error_Some. congruence.
Qed.

(** What is where once position [i] is gone. *)
Lemma nth_error_without {A : Type} (l : list A) (i j : nat) :
  i < List.length l ->
  nth_error (firstn i l ++ skipn (S i) l) j
  = if j <? i then nth_error l j else nth_error l (S j).
Proof.
  intros Hi. rewrite nth_error_app, length_firstn.
  replace (Nat.min i (List.length l)) with i by lia.
  destruct (j <? i) eqn:E.
  - apply Nat.ltb_lt in E. now rewrite nth_error_firstn, (proj2 (Nat.ltb_lt _ _) E).
  - apply Nat.ltb_ge in E. rewrite nth_error_skipn. f_equal. lia.
Qed.

Lemma length_without {A : Type} (l : list A) (i : nat) :
  i < List.length l ->
  List.length (firstn i l ++ skipn (S i) l) = List.length l - 1.
Proof.
  intros Hi. rewrite length_app, length_firstn, length_skipn. lia.
Qed.

Lemma NoDup_without {A : Type} (l : list A) (i : nat) :
  NoDup l -> NoDup (firstn i l ++ skipn (S i) l).
Proof.
  intros H. rewrite <- (firstn_skipn i l) in H.
  destruct (skipn i l) as [|a t] eqn:E.
  - assert (skipn (S i) l = []) as ->.
    { apply skipn_all2. assert (List.length (skipn i l) = 0) by now rewrite E.
      rewrite length_skipn in *. lia. }
    now rewrite app_nil_r in *.
  - assert (skipn (S i) l = t) as ->.
    { change (S i) with (1 + i). rewrite <- skipn_skipn, E. reflexivity. }
    now apply NoDup_remove_1 in H.
Qed.

Lemma In_without {A : Type} (l : list A) (i : nat) (x y : A) :
  NoDup l -> nth_error l i = Some x ->
  (In y (firstn i l ++ skipn (S i) l) <-> In y l /\ y <> x).
Proof.
  intros Hnd Hx.
  pose proof (firstn_skipn_middle i l Hx) as Hl.
  rewrite <- Hl in Hnd. pose proof (NoDup_remove_2 _ _ _ Hnd) as Hnot.
  rewrite <- Hl at 3. rewrite !in_app_iff in *. simpl.
  split.
  - intros H. split; [tauto|]. intros ->. tauto.
  - intros [[H | [H | H]] Hne]; [tauto | congruence | tauto].
Qed.

(** *** Reading the window *)

Ltac win_simpl :=
  cbn [converter file_items created current_file_index
       clear_files_btn_enabled status_label drop_area page_info
       prev_page_btn_enabled next_page_btn_enabled web_view critical
       set_converter set_file_items set_created set_current_file_index
       set_clear_files_btn set_status_label set_drop_area set_page_info
       set_page_btns set_web_view set_critical view_setHtml
       pagebreak_input include_toc confirm_overwrite output_folder
       current_files current_conversion_index total_files conversion_errors
       current_output_path progress_bar progress_visible convert_btn_enabled
       connections loads timers crashed log
       set_output_folder set_current_files set_loads set_convert_btn
       set_crashed set_log observe uncaught
       uid file_path selected set_selected] in *.

(** The window a method leaves, returned from or not. *)
Definition window_of (o : Outcome) : Window :=
  match o with
  | Returns s => s
  | Raises _ s => s
  end.

(** The item with identity [u] highlighted, the others not. *)
Definition highlight (u : nat) (items : list FileItem) : list FileItem :=
  map (fun item => set_selected (uid item =? u) item) items.

Lemma highlight_uid (u : nat) (items : list FileItem) :
  map uid (highlight u items) = map uid items.
Proof. unfold highlight. rewrite map_map. now apply map_ext. Qed.

Lemma highlight_path (u : nat) (items : list FileItem) :
  map file_path (highlight u items) = map file_path items.
Proof. unfold highlight. rewrite map_map. now apply map_ext. Qed.

Lemma highlight_length (u : nat) (items : list FileItem) :
  List.length (highlight u items) = List.length items.
Proof. apply length_map. Qed.

Lemma highlight_nth (u : nat) (items : list FileItem) (j : nat) :
  nth_error (highlight u items) j
  = option_map (fun item => set_selected (uid item =? u) item)
      (nth_error items j).
Proof. apply nth_error_map. Qed.

Lemma highlight_find (u : nat) (items : list FileItem) :
  find_index (fun item => uid item =? u) (highlight u items)
  = find_index (fun item => uid item =? u) items.
Proof. unfold highlight. now rewrite find_index_map. Qed.

Lemma highlight_twice (u : nat) (items : list FileItem) :
  map (fun item => if uid item =? u then set_selected true item else item)
    (map (set_selected false) items)
  = highlight u items.
Proof.
  unfold highlight. rewrite map_map. apply map_ext. intros [i p b]. simpl.
  now destruct (i =? u).
Qed.

Section Handlers.

Variable w : World.

(** What a preview leaves alone: the list, the cursor, the buttons. *)
Lemma load_markdown_file_frame (r : Read) (path : string) (s : Window) :
  let s' := load_markdown_file w r path s in
  file_items s' = file_items s /\ created s' = created s
  /\ current_file_index s' = current_file_index s
  /\ clear_files_btn_enabled s' = clear_files_btn_enabled s
  /\ current_files (converter s') = current_files (converter s)
  /\ crashed (converter s') = crashed (converter s)
  /\ convert_btn_enabled (converter s') = convert_btn_enabled (converter s).
Proof.
  cbv zeta. unfold load_markdown_file, update_page_info.
  destruct r as [content | e]; [|win_simpl; repeat split; reflexivity].
  destruct (output_folder (converter s)); win_simpl;
    destruct (current_files (converter s)) eqn:E; win_simpl;
    rewrite ?E; repeat split; reflexivity.
Qed.

Lemma update_ui_state_frame (s : Window) :
  let s' := update_ui_state s in
  file_items s' = file_items s /\ created s' = created s
  /\ current_file_index s' = current_file_index s
  /\ current_files (converter s') = current_files (converter s)
  /\ crashed (converter s') = crashed (converter s)
  /\ convert_btn_enabled (converter s')
     = (0 <? List.length (current_files (converter s)))
  /\ clear_files_btn_enabled s'
     = (0 <? List.length (current_files (converter s))).
Proof.
  cbv zeta. unfold update_ui_state.
  destruct (0 <? List.length (current_files (converter s))); win_simpl;
    repeat split; reflexivity.
Qed.

(** Selecting a widget of the list: it is found, the cursor moves to it and
    its file is previewed. *)
Lemma select_file_item_found (r : Read) (item : FileItem) (s : Window)
    (i : nat) :
  NoDup (map uid (file_items s)) -> nth_error (file_items s) i = Some item ->
  select_file_item w r item s
  = Returns
      (load_markdown_file w r (file_path item)
         (set_current_file_index i
            (set_file_items (highlight (uid item) (file_items s)) s))).
Proof.
  intros Hnd Hi. unfold select_file_item. win_simpl.
  rewrite highlight_twice, highlight_find.
  now rewrite (find_index_key uid (file_items s) i item Hnd Hi).
Qed.

(** A widget that is not in the list: [list.index] raises. *)
Lemma select_file_item_stale (r : Read) (item : FileItem) (s : Window) :
  existsb (fun other => uid other =? uid item) (file_items s) = false ->
  exists s', select_file_item w r item s = Raises "ValueError" s'.
Proof.
  intros H. unfold select_file_item. win_simpl.
  rewrite highlight_twice, highlight_find.
  apply find_index_None in H. rewrite H. eauto.
Qed.

End Handlers.

(** *** The loop of [add_files] *)

(** The paths a call of [add_files] appends: those not in the list yet, each
    once, in the order they are met. *)
Fixpoint fresh_paths (files paths : list string) : list string :=
  match paths with
  | [] => []
  | p :: paths' =>
      if existsb (String.eqb p) files then fresh_paths files paths'
      else p :: fresh_paths (files ++ [p]) paths'
  end.

(** The widgets made for them. *)
Fixpoint new_items (next : nat) (paths : list string) : list FileItem :=
  match paths with
  | [] => []
  | p :: paths' =>
      {| uid := next; file_path := p; selected := false |}
      :: new_items (S next) paths'
  end.

Definition grown (s : Window) (fresh : list string) : Window :=
  set_file_items (file_items s ++ new_items (created s) fresh)
    (set_created (created s + List.length fresh)
       (set_converter
          (set_current_files (current_files (converter s) ++ fresh)
             (converter s)) s)).

Lemma existsb_eqb_In (p : string) (l : list string) :
  existsb (String.eqb p) l = true <-> In p l.
Proof.
  rewrite existsb_exists. split.
  - intros (x & Hx & E). apply String.eqb_eq in E. now subst.
  - intros H. exists p. split; [exact H | apply String.eqb_refl].
Qed.

Lemma existsb_eqb_not_In (p : string) (l : list string) :
  existsb (String.eqb p) l = false <-> ~ In p l.
Proof.
  rewrite <- existsb_eqb_In. destruct (existsb (String.eqb p) l); split;
    congruence.
Qed.

Lemma grown_nil (s : Window) : grown s [] = s.
Proof.
  unfold grown. destruct s as [c items n i b st d pi pb nb v cr].
  destruct c. win_simpl. simpl. now rewrite !app_nil_r, Nat.add_0_r.
Qed.

Lemma add_files_loop (paths : list string) (s : Window) :
  fold_left add_file paths s
  = grown s (fresh_paths (current_files (converter s)) paths).
Proof.
  revert s. induction paths as [|p paths IH]; intros s; simpl.
  - now rewrite grown_nil.
  - rewrite IH. unfold add_file.
    destruct (existsb (String.eqb p) (current_files (converter s)));
      [reflexivity|].
    win_simpl. unfold grown. win_simpl. simpl.
    now rewrite <- !app_assoc, Nat.add_succ_r.
Qed.

Lemma fresh_paths_In (paths files : list string) (p : string) :
  In p (fresh_paths files paths) <-> In p paths /\ ~ In p files.
Proof.
  revert files. induction paths as [|q paths IH]; intros files; simpl;
    [tauto|].
  destruct (existsb (String.eqb q) files) eqn:E.
  - apply existsb_eqb_In in E. rewrite IH. split; [tauto|].
    intros [[-> | H] Hn]; tauto.
  - apply existsb_eqb_not_In in E. simpl. rewrite IH, in_app_iff. simpl.
    split.
    + intros [-> | (H & Hn)]; tauto.
    + intros [[-> | H] Hn]; [tauto|].
      destruct (String.eqb q p) eqn:Eq.
      * apply String.eqb_eq in Eq. tauto.
      * apply String.eqb_neq in Eq. right. split; [exact H|]. tauto.
Qed.

Lemma fresh_paths_NoDup (paths files : list string) :
  NoDup files -> NoDup (files ++ fresh_paths files paths).
Proof.
  revert files. induction paths as [|q paths IH]; intros files Hnd; simpl.
  - now rewrite app_nil_r.
  - destruct (existsb (String.eqb q) files) eqn:E; [now apply IH|].
    apply existsb_eqb_not_In in E.
    change (q :: fresh_paths (files ++ [q]) paths)
      with ([q] ++ fresh_paths (files ++ [q]) paths)%list.
    rewrite app_assoc. apply IH.
    apply NoDup_app; [exact Hnd | repeat constructor; simpl; tauto |].
    intros x Hx [<- | []]. tauto.
Qed.

Lemma fresh_paths_distinct (paths files : list string) :
  NoDup (fresh_paths files paths).
Proof.
  revert files. induction paths as [|q paths IH]; intros files; simpl.
  - constructor.
  - destruct (existsb (String.eqb q) files); [apply IH|].
    constructor; [|apply IH].
    rewrite fresh_paths_In, in_app_iff. simpl. tauto.
Qed.

(** Adding the same paths once more appends nothing. *)
Lemma fresh_paths_again (paths files : list string) :
  fresh_paths (files ++ fresh_paths files paths) paths = [].
Proof.
  destruct (fresh_paths (files ++ fresh_paths files paths) paths) as [|p l]
    eqn:E; [reflexivity|].
  assert (In p (fresh_paths (files ++ fresh_paths files paths) paths)) as H
    by (rewrite E; now left).
  rewrite fresh_paths_In, in_app_iff, fresh_paths_In in H. tauto.
Qed.

Lemma new_items_path (next : nat) (paths : list string) :
  map file_path (new_items next paths) = paths.
Proof.
  revert next. induction paths as [|p paths IH]; intros next; simpl;
    [reflexivity|]. now rewrite IH.
Qed.

Lemma new_items_uid (next : nat) (paths : list string) :
  map uid (new_items next paths) = seq next (List.length paths).
Proof.
  revert next. induction paths as [|p paths IH]; intros next; simpl;
    [reflexivity|]. now rewrite IH.
Qed.

Lemma new_items_plain (next : nat) (paths : list string) :
  Forall (fun item => selected item = false) (new_items next paths).
Proof.
  revert next. induction paths as [|p paths IH]; intros next; simpl;
    constructor; [reflexivity | apply IH].
Qed.

(** *** What the list functions keep *)

(** The widgets mirror the list: same paths in the same order, no path
    twice, every widget an object of its own. *)
Record Mirrored (s : Window) : Prop := {
  mirror_paths : map file_path (file_items s) = current_files (converter s);
  mirror_nodup : NoDup (current_files (converter s));
  mirror_uids : NoDup (map uid (file_items s));
  mirror_created : Forall (fun u => u < created s) (map uid (file_items s))
}.

(** No exception has left a slot, the widgets mirror the list, the cursor is
    0 for an empty list and points into the list otherwise, and the widget
    under the cursor is the highlighted one. *)
Record Sound (s : Window) : Prop := {
  sound_alive : crashed (converter s) = false;
  sound_mirrored : Mirrored s;
  sound_empty : file_items s = [] -> current_file_index s = 0;
  sound_index :
    file_items s <> [] -> current_file_index s < List.length (file_items s);
  sound_highlight :
    forall i item,
      nth_error (file_items s) i = Some item ->
      selected item = (i =? current_file_index s)
}.

(** Convert and Clear are enabled exactly when the list is not empty. *)
Definition Buttons (s : Window) : Prop :=
  convert_btn_enabled (converter s)
  = (0 <? List.length (current_files (converter s)))
  /\ clear_files_btn_enabled s
     = (0 <? List.length (current_files (converter s))).

(** The part of the window the pipeline works on and no list function
    writes. *)
Definition job_state (c : Converter) :=
  (pagebreak_input c, include_toc c, confirm_overwrite c,
   current_conversion_index c, total_files c, conversion_errors c,
   current_output_path c, progress_bar c, progress_visible c,
   connections c, timers c, log c).

Lemma mirrored_same (s s' : Window) :
  map uid (file_items s') = map uid (file_items s) ->
  map file_path (file_items s') = map file_path (file_items s) ->
  current_files (converter s') = current_files (converter s) ->
  created s' = created s ->
  Mirrored s -> Mirrored s'.
Proof.
  intros Hu Hp Hf Hc [H1 H2 H3 H4].
  split; rewrite ?Hu, ?Hp, ?Hf, ?Hc; assumption.
Qed.

Lemma mirrored_grown (s : Window) (paths : list string) :
  Mirrored s ->
  Mirrored (grown s (fresh_paths (current_files (converter s)) paths)).
Proof.
  intros [H1 H2 H3 H4]. unfold grown. split; win_simpl.
  - now rewrite map_app, new_items_path, H1.
  - now apply fresh_paths_NoDup.
  - rewrite map_app, new_items_uid. apply NoDup_app; [exact H3 | apply seq_NoDup |].
    intros u Hu Hin. rewrite Forall_forall in H4. apply H4 in Hu.
    apply in_seq in Hin. lia.
  - rewrite map_app, new_items_uid. apply Forall_app. split.
    + eapply Forall_impl; [|exact H4]. simpl. intros. lia.
    + apply Forall_forall. intros u Hin. apply in_seq in Hin. lia.
Qed.

Section Handlers.

Variable w : World.

Lemma load_markdown_file_job (r : Read) (path : string) (s : Window) :
  job_state (converter (load_markdown_file w r path s))
  = job_state (converter s).
Proof.
  unfold load_markdown_file, update_page_info, job_state.
  destruct r as [content | e]; [|reflexivity].
  destruct (output_folder (converter s)); win_simpl;
    destruct (current_files (converter s)) eqn:E; win_simpl; reflexivity.
Qed.

Lemma load_markdown_file_folder (r : Read) (path : string) (s : Window) :
  output_folder (converter s) <> EmptyString ->
  output_folder (converter (load_markdown_file w r path s))
  = output_folder (converter s).
Proof.
  intros Hne. unfold load_markdown_file, update_page_info.
  destruct r as [content | e]; [|reflexivity].
  destruct (output_folder (converter s)) eqn:Ef; [congruence|]. win_simpl.
  destruct (current_files (converter s)); win_simpl; now rewrite Ef.
Qed.

Lemma update_ui_state_folder (s : Window) :
  output_folder (converter (update_ui_state s)) = output_folder (converter s).
Proof.
  unfold update_ui_state.
  destruct (0 <? List.length (current_files (converter s))); reflexivity.
Qed.

Lemma update_ui_state_job (s : Window) :
  job_state (converter (update_ui_state s)) = job_state (converter s).
Proof.
  unfold update_ui_state, job_state.
  destruct (0 <? List.length (current_files (converter s))); reflexivity.
Qed.

(** Selecting a widget of a mirrored list. *)
Lemma select_file_item_sound (r : Read) (item : FileItem) (s : Window)
    (i : nat) :
  crashed (converter s) = false -> Mirrored s ->
  nth_error (file_items s) i = Some item ->
  exists s',
    select_file_item w r item s = Returns s'
    /\ Sound s' /\ current_file_index s' = i
    /\ file_items s' = highlight (uid item) (file_items s)
    /\ created s' = created s
    /\ current_files (converter s') = current_files (converter s)
    /\ convert_btn_enabled (converter s') = convert_btn_enabled (converter s)
    /\ clear_files_btn_enabled s' = clear_files_btn_enabled s
    /\ job_state (converter s') = job_state (converter s)
    /\ (output_folder (converter s) <> EmptyString ->
        output_folder (converter s') = output_folder (converter s)).
Proof.
  intros Halive Hm Hi.
  rewrite (select_file_item_found w r item s i (mirror_uids s Hm) Hi).
  eexists. split; [reflexivity|].
  destruct (load_markdown_file_frame w r (file_path item)
              (set_current_file_index i
                 (set_file_items (highlight (uid item) (file_items s)) s)))
    as (Hitems & Hcreated & Hidx & Hclear & Hfiles & Hcrashed & Hbtn).
  rewrite load_markdown_file_job. win_simpl.
  assert (i < List.length (file_items s)) as Hlt
    by (apply nth_error_Some; congruence).
  split;
    [|repeat split; try assumption; intros Hne;
      exact (load_markdown_file_folder r (file_path item)
               (set_current_file_index i
                  (set_file_items (highlight (uid item) (file_items s)) s))
               Hne)].
  split.
  - congruence.
  - apply (mirrored_same s); try assumption.
    + now rewrite Hitems, highlight_uid.
    + now rewrite Hitems, highlight_path.
  - rewrite Hitems. intros E. apply (f_equal (@List.length _)) in E.
    rewrite highlight_length in E. simpl in E. lia.
  - rewrite Hitems, Hidx, highlight_length. intros _. exact Hlt.
  - rewrite Hitems, Hidx. intros j it. rewrite highlight_nth.
    destruct (nth_error (file_items s) j) as [it0|] eqn:Ej; [|discriminate].
    simpl. intros [= <-]. win_simpl.
    destruct (uid it0 =? uid item) eqn:Eu.
    + apply Nat.eqb_eq in Eu. symmetry. apply Nat.eqb_eq.
      exact (nth_error_key_inj uid _ _ _ _ _ (mirror_uids s Hm) Ej Hi Eu).
    + symmetry. apply Nat.eqb_neq. intros ->.
      rewrite Hi in Ej. injection Ej as <-. now rewrite Nat.eqb_refl in Eu.
Qed.

End Handlers.

Lemma sound_same (s s' : Window) :
  file_items s' = file_items s -> created s' = created s ->
  current_file_index s' = current_file_index s ->
  current_files (converter s') = current_files (converter s) ->
  crashed (converter s') = crashed (converter s) ->
  Sound s -> Sound s'.
Proof.
  intros Hi Hc Hx Hf Hr [H1 H2 H3 H4 H5].
  split; rewrite ?Hi, ?Hx, ?Hr; try assumption.
  apply (mirrored_same s); congruence.
Qed.

Lemma sound_update_ui_state (s : Window) :
  Sound s -> Sound (update_ui_state s) /\ Buttons (update_ui_state s).
Proof.
  intros H.
  destruct (update_ui_state_frame s) as (Hi & Hc & Hx & Hf & Hr & Hb1 & Hb2).
  split; [now apply (sound_same s)|]. unfold Buttons. now rewrite Hf.
Qed.

Lemma sound_clear_files (s : Window) :
  crashed (converter s) = false ->
  Sound (clear_files s) /\ Buttons (clear_files s)
  /\ current_files (converter (clear_files s)) = []
  /\ job_state (converter (clear_files s)) = job_state (converter s)
  /\ output_folder (converter (clear_files s)) = output_folder (converter s).
Proof.
  intros Halive. unfold clear_files.
  match goal with |- Sound (update_ui_state ?t) /\ _ => set (s1 := t) end.
  assert (Sound s1) as H1.
  { subst s1. split; win_simpl.
    - exact Halive.
    - split; win_simpl; constructor.
    - reflexivity.
    - congruence.
    - intros [|i] item; discriminate. }
  destruct (sound_update_ui_state s1 H1) as [Hs Hb].
  destruct (update_ui_state_frame s1) as (_ & _ & _ & Hf & _).
  split; [exact Hs|]. split; [exact Hb|]. split; [exact Hf|].
  split; [now rewrite update_ui_state_job | now rewrite update_ui_state_folder].
Qed.

Section Handlers.

Variable w : World.

Lemma sound_add_files (r : Read) (paths : list string) (s : Window) :
  Sound s ->
  exists s',
    add_files w r paths s = Returns s'
    /\ Sound s' /\ Buttons s'
    /\ current_files (converter s')
       = (current_files (converter s)
          ++ fresh_paths (current_files (converter s)) paths)%list
    /\ (file_items s' <> [] -> current_file_index s' = 0)
    /\ job_state (converter s') = job_state (converter s)
    /\ (output_folder (converter s) <> EmptyString ->
        output_folder (converter s') = output_folder (converter s)).
Proof.
  intros Hs. unfold add_files. rewrite add_files_loop.
  set (fresh := fresh_paths (current_files (converter s)) paths).
  pose proof (mirrored_grown s paths (sound_mirrored s Hs)) as Hg.
  fold fresh in Hg.
  destruct (update_ui_state_frame (grown s fresh))
    as (Hi & Hc & Hx & Hf & Hr & Hb1 & Hb2).
  set (u := update_ui_state (grown s fresh)) in *.
  assert (Mirrored u) as Hu by (apply (mirrored_same (grown s fresh)); congruence).
  assert (current_files (converter (grown s fresh))
          = (current_files (converter s) ++ fresh)%list) as Hfiles
    by reflexivity.
  assert (job_state (converter u) = job_state (converter s)) as Hjob
    by (subst u; now rewrite update_ui_state_job).
  assert (crashed (converter u) = false) as Halive
    by (rewrite Hr; apply Hs).
  assert (output_folder (converter u) = output_folder (converter s)) as Hfo
    by (subst u; now rewrite update_ui_state_folder).
  destruct (file_items u) as [|first rest] eqn:E.
  - exists u. split; [reflexivity|].
    assert (file_items s = []) as Hnil.
    { assert (file_items (grown s fresh) = []) as E' by congruence.
      unfold grown in E'. win_simpl. now apply app_eq_nil in E'. }
    split; [|split; [|split; [|split; [|split]]]].
    + split.
      * exact Halive.
      * exact Hu.
      * intros _. rewrite Hx. unfold grown. win_simpl.
        now apply (sound_empty s Hs).
      * congruence.
      * rewrite E. intros [|i] item; discriminate.
    + unfold Buttons. now rewrite Hf.
    + congruence.
    + congruence.
    + exact Hjob.
    + intros _. exact Hfo.
  - destruct (select_file_item_sound w r first u 0 Halive Hu)
      as (s' & Hsel & Hsound & Hidx & Hitems & Hcreated & Hfiles' & Hbtn
          & Hclear & Hjob' & Hfold').
    { now rewrite E. }
    exists s'. split; [exact Hsel|]. split; [exact Hsound|].
    split; [|split; [|split; [|split]]].
    + unfold Buttons. now rewrite Hfiles', Hbtn, Hclear, Hf.
    + congruence.
    + intros _. exact Hidx.
    + congruence.
    + intros Hne. rewrite Hfold'; [exact Hfo | now rewrite Hfo].
Qed.

End Handlers.

Definition without {A : Type} (k : nat) (l : list A) : list A :=
  (firstn k l ++ skipn (S k) l)%list.

Lemma map_without {A B : Type} (f : A -> B) (k : nat) (l : list A) :
  map f (without k l) = without k (map f l).
Proof. unfold without. now rewrite map_app, firstn_map, skipn_map. Qed.

Lemma incl_without {A : Type} (k : nat) (l : list A) : incl (without k l) l.
Proof.
  unfold without. revert k. induction l as [|a l IH]; intros k x Hx.
  - now destruct k.
  - destruct k as [|k]; simpl in *; [now right|].
    destruct Hx as [Hx | Hx]; [now left | right; exact (IH k x Hx)].
Qed.

Lemma mirrored_without (s : Window) (k : nat) :
  Mirrored s ->
  Mirrored
    (set_file_items (without k (file_items s))
       (set_converter
          (set_current_files (without k (current_files (converter s)))
             (converter s)) s)).
Proof.
  intros [H1 H2 H3 H4]. split; win_simpl.
  - now rewrite map_without, H1.
  - now apply NoDup_without.
  - rewrite map_without. now apply NoDup_without.
  - rewrite map_without. rewrite Forall_forall in *. intros u Hu.
    apply H4. now apply incl_without in Hu.
Qed.

Section Handlers.

Variable w : World.

(** Where a path of the list sits, in the list and among the widgets. *)
Lemma find_widget (s : Window) (path : string) (k : nat) :
  Mirrored s ->
  find_index (String.eqb path) (current_files (converter s)) = Some k ->
  find_index (fun item => String.eqb (file_path item) path) (file_items s)
  = Some k.
Proof.
  intros Hm Hk. rewrite <- (mirror_paths s Hm), find_index_map in Hk.
  rewrite <- Hk. apply find_index_ext. intros x. apply String.eqb_sym.
Qed.

(** [remove_single_file] for a path of the list, at position [k]: list and
    widgets lose position [k], the cursor steps back when [k] is not behind
    it, and what is then under the cursor gets selected. *)
Definition removed_at (k : nat) (s : Window) : Window :=
  set_current_file_index
    (if k <=? current_file_index s then Nat.pred (current_file_index s)
     else current_file_index s)
    (set_file_items (without k (file_items s))
       (set_converter
          (set_current_files (without k (current_files (converter s)))
             (converter s)) s)).

Lemma remove_single_file_found (r : Read) (path : string) (s : Window)
    (k : nat) :
  Mirrored s ->
  find_index (String.eqb path) (current_files (converter s)) = Some k ->
  remove_single_file w r path s
  = and_then
      match file_items (removed_at k s) with
      | _ :: _ =>
          let s2 :=
            if List.length (file_items (removed_at k s))
               <=? current_file_index (removed_at k s)
            then
              set_current_file_index
                (List.length (file_items (removed_at k s)) - 1)
                (removed_at k s)
            else removed_at k s in
          match nth_error (file_items s2) (current_file_index s2) with
          | Some item => select_file_item w r item s2
          | None => Raises "IndexError" s2
          end
      | [] =>
          Returns
            (set_current_file_index 0 (view_setHtml "" "" (removed_at k s)))
      end
      (fun s => Returns (update_ui_state s)).
Proof.
  intros Hm Hk. pose proof (find_widget s path k Hm Hk) as Hk'.
  unfold remove_single_file, removed_at. cbv zeta. rewrite Hk.
  cbn [file_items set_converter converter current_files set_current_files].
  rewrite (remove_first_split _ _ _ Hk), (remove_first_split _ _ _ Hk').
  fold (without k (current_files (converter s))).
  fold (without k (file_items s)).
  cbn [current_file_index set_file_items set_converter].
  destruct (k <=? current_file_index s); reflexivity.
Qed.

Lemma sound_remove_single_file (r : Read) (path : string) (s : Window) :
  Sound s ->
  exists s',
    remove_single_file w r path s = Returns s'
    /\ Sound s' /\ (Buttons s -> Buttons s')
    /\ current_files (converter s')
       = remove_first (String.eqb path) (current_files (converter s))
    /\ job_state (converter s') = job_state (converter s)
    /\ (forall k,
          find_index (String.eqb path) (current_files (converter s)) = Some k ->
          file_items s' <> [] ->
          current_file_index s'
          = if k <=? current_file_index s then Nat.pred (current_file_index s)
            else current_file_index s)
    /\ (output_folder (converter s) <> EmptyString ->
        output_folder (converter s') = output_folder (converter s)).
Proof.
  intros Hs. pose proof (sound_mirrored s Hs) as Hm.
  destruct (find_index (String.eqb path) (current_files (converter s)))
    as [k|] eqn:Hk.
  2:{ exists s. unfold remove_single_file. rewrite Hk.
      split; [reflexivity|]. split; [exact Hs|]. split; [tauto|].
      split; [now rewrite remove_first_absent|]. split; [reflexivity|].
      split; [discriminate | reflexivity]. }
  rewrite (remove_single_file_found r path s k Hm Hk).
  rewrite (remove_first_split _ _ _ Hk).
  fold (without k (current_files (converter s))).
  pose proof (find_widget s path k Hm Hk) as Hk'.
  pose proof (mirrored_without s k Hm) as Hm1.
  pose proof (find_index_lt _ _ _ Hk') as Hlt.
  set (c := current_file_index s).
  set (c' := if k <=? c then Nat.pred c else c).
  set (s2 := removed_at k s).
  assert (current_file_index s2 = c') as Hidx2 by reflexivity.
  assert (Mirrored s2) as Hm2.
  { eapply mirrored_same; [| | | |exact Hm1]; reflexivity. }
  assert (file_items s2 = without k (file_items s)) as Hitems2 by reflexivity.
  assert (List.length (file_items s2) = List.length (file_items s) - 1) as Hlen2.
  { rewrite Hitems2. now apply length_without. }
  assert (c < List.length (file_items s)) as Hc.
  { apply (sound_index s Hs). intros E. rewrite E in Hlt. simpl in Hlt. lia. }
  destruct (Nat.eq_dec (List.length (file_items s2)) 0) as [Hz | Hnz].
  - apply length_zero_iff_nil in Hz. rewrite Hz. cbn [and_then].
    match goal with |- exists s', Returns (update_ui_state ?t) = _ /\ _ =>
      set (s3 := t) end.
    assert (Sound s3) as Hs3.
    { split.
      - apply Hs.
      - eapply mirrored_same; [| | | |exact Hm2]; reflexivity.
      - reflexivity.
      - change (file_items s3) with (file_items s2). congruence.
      - change (file_items s3) with (file_items s2). rewrite Hz.
        intros [|i] item; discriminate. }
    destruct (sound_update_ui_state s3 Hs3) as [Hs4 Hb4].
    exists (update_ui_state s3). split; [reflexivity|]. split; [exact Hs4|].
    split; [intros _; exact Hb4|].
    destruct (update_ui_state_frame s3) as (Hi & _ & _ & Hf & _).
    split; [exact Hf|]. split; [now rewrite update_ui_state_job|].
    split; [|intros _; now rewrite update_ui_state_folder].
    intros k0 _ Hne. exfalso. apply Hne. rewrite Hi. exact Hz.
  - assert (c' < List.length (file_items s2)) as Hc'.
    { rewrite Hlen2 in *. subst c'.
      destruct (k <=? c) eqn:Ekc.
      - apply Nat.leb_le in Ekc. destruct c; simpl; lia.
      - apply Nat.leb_gt in Ekc. lia. }
    destruct (file_items s2) as [|a rest] eqn:E2; [simpl in Hnz; lia|].
    rewrite <- E2 in *. cbv zeta.
    rewrite Hidx2, (proj2 (Nat.leb_gt _ _) Hc'), Hidx2.
    destruct (nth_error (file_items s2) c') as [item|] eqn:Eitem.
    2:{ apply nth_error_None in Eitem. lia. }
    destruct (select_file_item_sound w r item s2 c' (sound_alive s Hs) Hm2 Eitem)
      as (s3 & Hsel & Hs3 & Hidx & Hitems & Hcreated & Hfiles & Hbtn
          & Hclear & Hjob & Hfold).
    rewrite Hsel. cbn [and_then].
    destruct (sound_update_ui_state s3 Hs3) as [Hs4 Hb4].
    destruct (update_ui_state_frame s3) as (Hi & _ & Hx & Hf & _).
    exists (update_ui_state s3). split; [reflexivity|]. split; [exact Hs4|].
    split; [intros _; exact Hb4|].
    split; [now rewrite Hf, Hfiles|].
    split; [now rewrite update_ui_state_job, Hjob|].
    split; [intros k0 [= <-] _; now rewrite Hx, Hidx|].
    intros Hne. rewrite update_ui_state_folder. now apply Hfold.
Qed.

End Handlers.

Section Slots.

Variable w : World.
Variable lower : string -> string.

(** The folder an action chooses, if it does. *)
Definition folder_choice (a : Action) : option string :=
  match a with
  | BrowseFolder (String c f) => Some (String c f)
  | _ => None
  end.

(** What every slot of the list keeps, and that it returns.  An output
    folder once set only changes when the user chooses one. *)
Definition Kept (chosen : option string) (s : Window) (o : Outcome) : Prop :=
  exists s',
    o = Returns s' /\ Sound s' /\ (Buttons s -> Buttons s')
    /\ job_state (converter s') = job_state (converter s)
    /\ match chosen with
       | Some folder => output_folder (converter s') = folder
       | None =>
           output_folder (converter s) <> EmptyString ->
           output_folder (converter s') = output_folder (converter s)
       end.

Lemma kept_same (s : Window) : Sound s -> Kept None s (Returns s).
Proof.
  intros H. exists s. split; [reflexivity|]. split; [exact H|].
  split; [tauto|]. split; reflexivity.
Qed.

Lemma kept_select (r : Read) (item : FileItem) (s : Window) (i : nat) :
  Sound s -> nth_error (file_items s) i = Some item ->
  Kept None s (select_file_item w r item s).
Proof.
  intros Hs Hi.
  destruct (select_file_item_sound w r item s i (sound_alive s Hs)
              (sound_mirrored s Hs) Hi)
    as (s' & Hsel & Hs' & _ & _ & _ & Hfiles & Hbtn & Hclear & Hjob & Hfold).
  exists s'. split; [exact Hsel|]. split; [exact Hs'|].
  split; [|split; [exact Hjob | exact Hfold]].
  unfold Buttons. rewrite Hfiles, Hbtn, Hclear. tauto.
Qed.

Lemma kept_add_files (r : Read) (paths : list string) (s : Window) :
  Sound s -> Kept None s (add_files w r paths s).
Proof.
  intros Hs.
  destruct (sound_add_files w r paths s Hs)
    as (s' & Hadd & Hs' & Hb & _ & _ & Hjob & Hfold).
  exists s'. split; [exact Hadd|]. split; [exact Hs'|].
  split; [|split; [exact Hjob | exact Hfold]].
  intros _. exact Hb.
Qed.

Lemma kept_prev_page (r : Read) (s : Window) :
  Sound s -> Kept None s (prev_page w r s).
Proof.
  intros Hs. unfold prev_page.
  destruct (0 <? current_file_index s) eqn:E; [|now apply kept_same].
  apply Nat.ltb_lt in E.
  destruct (nth_error (file_items s) (current_file_index s - 1)) as [item|]
    eqn:Ei; [now apply (kept_select r item s _ Hs Ei)|].
  apply nth_error_None in Ei.
  destruct (file_items s) as [|a l] eqn:El.
  - pose proof (sound_empty s Hs El). lia.
  - pose proof (sound_index s Hs) as Hi. rewrite El in Hi.
    specialize (Hi ltac:(discriminate)). lia.
Qed.

Lemma kept_next_page (r : Read) (s : Window) :
  Sound s -> Kept None s (next_page w r s).
Proof.
  intros Hs. unfold next_page.
  destruct (current_file_index s + 1 <? List.length (file_items s)) eqn:E;
    [|now apply kept_same].
  apply Nat.ltb_lt in E.
  destruct (nth_error (file_items s) (current_file_index s + 1)) as [item|]
    eqn:Ei; [now apply (kept_select r item s _ Hs Ei)|].
  apply nth_error_None in Ei. lia.
Qed.

Lemma kept_remove_single_file (r : Read) (path : string) (s : Window) :
  Sound s -> Kept None s (remove_single_file w r path s).
Proof.
  intros Hs.
  destruct (sound_remove_single_file w r path s Hs)
    as (s' & Hrm & Hs' & Hb & _ & Hjob & _ & Hfold).
  exists s'. split; [exact Hrm|]. split; [exact Hs'|].
  split; [exact Hb|]. split; [exact Hjob | exact Hfold].
Qed.

Lemma kept_slot (a : Action) (s : Window) :
  Sound s -> Kept (folder_choice a) s (slot w lower a s).
Proof.
  intros Hs. destruct a as [paths r | files r | | i r | i r | r | r | folder];
    cbn [slot folder_choice].
  - unfold browse_input_files. destruct paths; [now apply kept_same|].
    now apply kept_add_files.
  - unfold dropEvent.
    destruct (filter _ files); [now apply kept_same|].
    now apply kept_add_files.
  - destruct (sound_clear_files s (sound_alive s Hs))
      as (H1 & H2 & _ & H3 & H4).
    exists (clear_files s). split; [reflexivity|]. split; [exact H1|].
    split; [intros _; exact H2|]. split; [exact H3 | intros _; exact H4].
  - destruct (nth_error (file_items s) i) as [item|] eqn:Ei;
      [now apply (kept_select r item s i)| now apply kept_same].
  - destruct (nth_error (file_items s) i) as [item|] eqn:Ei;
      [now apply kept_remove_single_file | now apply kept_same].
  - now apply kept_prev_page.
  - now apply kept_next_page.
  - unfold browse_output_folder. destruct folder; [now apply kept_same|].
    eexists. split; [reflexivity|].
    split; [|split; [|split; reflexivity]].
    + now apply (sound_same s).
    + tauto.
Qed.

Lemma kept_act (a : Action) (s : Window) :
  Sound s ->
  Sound (act w lower s a) /\ (Buttons s -> Buttons (act w lower s a))
  /\ job_state (converter (act w lower s a)) = job_state (converter s)
  /\ slot w lower a s = Returns (act w lower s a)
  /\ match folder_choice a with
     | Some folder => output_folder (converter (act w lower s a)) = folder
     | None =>
         output_folder (converter s) <> EmptyString ->
         output_folder (converter (act w lower s a))
         = output_folder (converter s)
     end.
Proof.
  intros Hs. unfold act. rewrite (sound_alive s Hs).
  destruct (kept_slot a s Hs) as (s' & -> & H1 & H2 & H3 & H4). tauto.
Qed.

Lemma kept_run (actions : list Action) (s : Window) :
  Sound s ->
  Sound (run w lower actions s)
  /\ (Buttons s -> Buttons (run w lower actions s))
  /\ job_state (converter (run w lower actions s)) = job_state (converter s).
Proof.
  revert s. induction actions as [|a actions IH]; intros s Hs;
    [simpl; tauto|].
  destruct (kept_act a s Hs) as (H1 & H2 & H3 & _ & _).
  destruct (IH _ H1) as (H4 & H5 & H6).
  change (run w lower (a :: actions) s)
    with (run w lower actions (act w lower s a)).
  split; [exact H4|]. split; [tauto | congruence].
Qed.

(** [Sound] without the condition that the program is alive. *)
Definition Tidy (s : Window) : Prop :=
  Mirrored s
  /\ (file_items s = [] -> current_file_index s = 0)
  /\ (file_items s <> [] -> current_file_index s < List.length (file_items s))
  /\ (forall i item,
        nth_error (file_items s) i = Some item ->
        selected item = (i =? current_file_index s)).

Lemma sound_tidy (s : Window) :
  Sound s <-> crashed (converter s) = false /\ Tidy s.
Proof.
  split.
  - intros [H1 H2 H3 H4 H5]. split; [exact H1|]. split; [exact H2|].
    split; [exact H3|]. split; [exact H4 | exact H5].
  - intros (H1 & H2 & H3 & H4 & H5). now split.
Qed.

Lemma tidy_set_converter (c : Converter) (s : Window) :
  options c = options (converter s) -> Tidy s -> Tidy (set_converter c s).
Proof.
  intros Ho (Hm & H3 & H4 & H5). unfold options in Ho.
  injection Ho as Hf _ _ _ _.
  split; [|now split].
  eapply mirrored_same; [| | | |exact Hm]; try reflexivity. exact Hf.
Qed.

Lemma tidy_react (i : Input) (s : Window) : Tidy s -> Tidy (react w lower s i).
Proof.
  intros Ht. destruct i as [a | | e]; cbn [react].
  - destruct (crashed (converter s)) eqn:Ec.
    + unfold act. now rewrite Ec.
    + apply sound_tidy, kept_act, sound_tidy. now split.
  - destruct (crashed (converter s)); [exact Ht|].
    destruct (convert_btn_enabled (converter s)); [|exact Ht].
    apply tidy_set_converter; [apply options_convert_to_pdf | exact Ht].
  - apply tidy_set_converter; [apply options_step | exact Ht].
Qed.

Lemma tidy_session (inputs : list Input) (s : Window) :
  Tidy s -> Tidy (session w lower inputs s).
Proof.
  revert s. induction inputs as [|i inputs IH]; intros s Ht; [exact Ht|].
  apply (IH (react w lower s i)), tidy_react, Ht.
Qed.

Lemma session_of_actions (actions : list Action) (s : Window) :
  session w lower (map User actions) s = run w lower actions s.
Proof.
  revert s. induction actions as [|a actions IH]; intros s; [reflexivity|].
  apply (IH (act w lower s a)).
Qed.

Lemma sound_initial : Sound initial /\ Buttons initial.
Proof.
  split; [|split; reflexivity]. split.
  - reflexivity.
  - split; constructor.
  - reflexivity.
  - intros H. now elim H.
  - intros [|i] item; discriminate.
Qed.

(** A window reached by the user and the event loop, the program alive. *)
Lemma sound_reachable (inputs : list Input) :
  crashed (converter (session w lower inputs initial)) = false ->
  Sound (session w lower inputs initial).
Proof.
  intros H. apply sound_tidy. split; [exact H|].
  apply tidy_session, sound_tidy, sound_initial.
Qed.

End Slots.

(** *** The list *)

Section Properties.

Variable w : World.
Variable lower : string -> string.

Lemma select_file_item_files (r : Read) (item : FileItem) (s : Window) :
  current_files (converter (window_of (select_file_item w r item s)))
  = current_files (converter s).
Proof.
  unfold select_file_item.
  destruct (find_index _ _); cbn [window_of]; [|reflexivity].
  now destruct (load_markdown_file_frame w r (file_path item)
                  (set_current_file_index n
                     (set_file_items
                        (map (fun item0 =>
                                if uid item0 =? uid item
                                then set_selected true item0 else item0)
                           (file_items
                              (set_file_items
                                 (map (set_selected false) (file_items s)) s)))
                        (set_file_items
                           (map (set_selected false) (file_items s)) s))))
    as (_ & _ & _ & _ & H & _).
Qed.

Lemma add_files_files (r : Read) (paths : list string) (s : Window) :
  current_files (converter (window_of (add_files w r paths s)))
  = (current_files (converter s)
     ++ fresh_paths (current_files (converter s)) paths)%list.
Proof.
  unfold add_files. rewrite add_files_loop.
  destruct (update_ui_state_frame
              (grown s (fresh_paths (current_files (converter s)) paths)))
    as (_ & _ & _ & Hf & _).
  destruct (file_items (update_ui_state _)); cbn [window_of];
    [|rewrite select_file_item_files]; exact Hf.
Qed.


Definition is_user (i : Input) : bool :=
  match i with User _ => true | _ => false end.

Lemma user_inputs (inputs : list Input) :
  forallb is_user inputs = true -> exists actions, inputs = map User actions.
Proof.
  induction inputs as [|i inputs IH]; intros H; [now exists []|].
  simpl in H. apply andb_prop in H. destruct H as [Hi H].
  destruct (IH H) as [actions ->]. destruct i as [a| |]; try discriminate.
  now exists (a :: actions).
Qed.

(** X9.  Whatever the user does with the list, and whatever conversions are
    started and run in between, starting from the window as the program
    opens it: the list holds no path twice, the widgets show the paths of
    the list in its order, the cursor is 0 for an empty list and points into
    the list otherwise, and exactly the widget under the cursor is
    highlighted.  As long as only the list is used, no slot raises and the
    buttons Convert and Clear are enabled exactly when the list is not
    empty. *)
Theorem list_stays_consistent (inputs : list Input) :
  let s := session w lower inputs initial in
  let files := current_files (converter s) in
  NoDup files
  /\ map file_path (file_items s) = files
  /\ (files = [] -> current_file_index s = 0)
  /\ (files <> [] -> current_file_index s < List.length files)
  /\ map selected (file_items s)
     = map (fun i => i =? current_file_index s) (seq 0 (List.length files))
  /\ (forallb is_user inputs = true ->
      crashed (converter s) = false
      /\ convert_btn_enabled (converter s) = (0 <? List.length files)
      /\ clear_files_btn_enabled s = (0 <? List.length files)).
Proof.
  intros s files.
  assert (Tidy s) as (Hm & He & Hi & Hh)
    by (apply tidy_session, sound_tidy, sound_initial).
  pose proof (mirror_paths s Hm) as Hp. fold files in Hp.
  assert (List.length (file_items s) = List.length files) as Hlen
    by (now rewrite <- Hp, length_map).
  split; [apply Hm|]. split; [exact Hp|]. split; [|split; [|split]].
  - intros E. apply He. rewrite E in Hlen. now apply length_zero_iff_nil.
  - intros E. rewrite <- Hlen. apply Hi. intros E'. rewrite E' in Hlen.
    symmetry in Hlen. now apply length_zero_iff_nil in Hlen.
  - rewrite <- Hlen. apply nth_error_ext. intros i.
    rewrite !nth_error_map.
    destruct (nth_error (file_items s) i) as [item|] eqn:Ei.
    + assert (i < List.length (file_items s)) as Hlt
        by (apply nth_error_Some; congruence).
      rewrite nth_error_seq, (proj2 (Nat.ltb_lt _ _) Hlt). simpl.
      now rewrite (Hh i item Ei).
    + apply nth_error_None in Ei.
      now rewrite nth_error_seq, (proj2 (Nat.ltb_ge _ _) Ei).
  - intros Hu. destruct (user_inputs inputs Hu) as [actions ->].
    subst s files. rewrite session_of_actions.
    destruct sound_initial as [H0 B0].
    destruct (kept_run w lower actions initial H0) as (Hs & Hb & _).
    split; [apply Hs|]. now apply Hb.
Qed.

End Properties.

(** *** The cursor *)

(** The file under the cursor. *)
Definition selected_file (s : Window) : option string :=
  nth_error (current_files (converter s)) (current_file_index s).

Lemma find_index_nodup (files : list string) (i : nat) (path : string) :
  NoDup files -> nth_error files i = Some path ->
  find_index (String.eqb path) files = Some i.
Proof.
  intros Hnd Hi. apply (find_index_first _ files i path Hi).
  - apply String.eqb_refl.
  - intros j y Hj Hy. apply String.eqb_neq. intros <-.
    assert (j = i); [|lia].
    apply (proj1 (NoDup_nth_error files) Hnd); [|congruence].
    apply nth_error_Some. congruence.
Qed.

Section Cursor.

Variable w : World.
Variable lower : string -> string.

Lemma act_select (r : Read) (item : FileItem) (s : Window) (i : nat)
    (a : Action) :
  Sound s -> nth_error (file_items s) i = Some item ->
  slot w lower a s = select_file_item w r item s ->
  Sound (act w lower s a) /\ current_file_index (act w lower s a) = i
  /\ current_files (converter (act w lower s a)) = current_files (converter s)
  /\ act w lower s a
     = load_markdown_file w r (file_path item)
         (set_current_file_index i
            (set_file_items (highlight (uid item) (file_items s)) s)).
Proof.
  intros Hs Hi Hslot. unfold act. rewrite (sound_alive s Hs), Hslot.
  destruct (select_file_item_sound w r item s i (sound_alive s Hs)
              (sound_mirrored s Hs) Hi)
    as (s' & Hsel & Hs' & Hidx & _ & _ & Hfiles & _).
  rewrite Hsel. split; [exact Hs'|]. split; [exact Hidx|].
  split; [exact Hfiles|].
  rewrite (select_file_item_found w r item s i
             (mirror_uids s (sound_mirrored s Hs)) Hi) in Hsel.
  now injection Hsel.
Qed.

Lemma act_unchanged (s : Window) (a : Action) :
  Sound s -> slot w lower a s = Returns s -> act w lower s a = s.
Proof. intros Hs H. unfold act. now rewrite (sound_alive s Hs), H. Qed.

Lemma sound_length (s : Window) :
  Sound s ->
  List.length (file_items s) = List.length (current_files (converter s)).
Proof.
  intros Hs. now rewrite <- (mirror_paths s (sound_mirrored s Hs)), length_map.
Qed.

Lemma sound_cursor (s : Window) :
  Sound s ->
  current_file_index s < List.length (current_files (converter s))
  \/ (current_files (converter s) = [] /\ current_file_index s = 0).
Proof.
  intros Hs. pose proof (sound_length s Hs) as Hl.
  destruct (file_items s) as [|a l] eqn:E.
  - right. split; [|now apply (sound_empty s Hs)].
    simpl in Hl. now destruct (current_files (converter s)).
  - left. rewrite <- Hl, <- E. apply (sound_index s Hs). congruence.
Qed.

(** X10.  Previous and Next move the cursor by one file inside the list and
    do nothing at its ends, whether or not the file they move to can be
    read; neither changes the list.  So Next followed by Previous, when Next
    could move, comes back to the same file. *)
Theorem prev_next_move_by_one (inputs : list Input) (r r' : Read) :
  let s := session w lower inputs initial in
  let total := List.length (current_files (converter s)) in
  let c := current_file_index s in
  crashed (converter s) = false ->
  current_file_index (act w lower s (NextPage r))
  = (if c + 1 <? total then c + 1 else c)
  /\ current_file_index (act w lower s (PrevPage r)) = Nat.pred c
  /\ current_files (converter (act w lower s (NextPage r)))
     = current_files (converter s)
  /\ current_files (converter (act w lower s (PrevPage r)))
     = current_files (converter s)
  /\ (total <= c + 1 -> act w lower s (NextPage r) = s)
  /\ (c = 0 -> act w lower s (PrevPage r) = s)
  /\ (c + 1 < total ->
      selected_file
        (act w lower (act w lower s (NextPage r)) (PrevPage r'))
      = selected_file s).
Proof.
  intros s total c Halive. pose proof (sound_reachable w lower inputs Halive) as Hs. fold s in Hs.
  pose proof (sound_length s Hs) as Hlen. fold total in Hlen.
  assert (forall r,
            (c + 1 < total ->
             Sound (act w lower s (NextPage r))
             /\ current_file_index (act w lower s (NextPage r)) = c + 1
             /\ current_files (converter (act w lower s (NextPage r)))
                = current_files (converter s))
            /\ (total <= c + 1 -> act w lower s (NextPage r) = s)) as Hnext.
  { intros r0. split; intros H.
    - destruct (nth_error (file_items s) (c + 1)) as [item|] eqn:Ei.
      2:{ apply nth_error_None in Ei. lia. }
      destruct (act_select r0 item s (c + 1) (NextPage r0) Hs Ei)
        as (H1 & H2 & H3 & _); [|tauto].
      cbn [slot]. unfold next_page. fold c.
      now rewrite Hlen, (proj2 (Nat.ltb_lt _ _) H), Ei.
    - apply act_unchanged; [exact Hs|]. cbn [slot]. unfold next_page. fold c.
      now rewrite Hlen, (proj2 (Nat.ltb_ge _ _) H). }
  assert (forall (s0 : Window) r,
            Sound s0 ->
            (0 < current_file_index s0 ->
             current_file_index (act w lower s0 (PrevPage r))
             = current_file_index s0 - 1
             /\ current_files (converter (act w lower s0 (PrevPage r)))
                = current_files (converter s0))
            /\ (current_file_index s0 = 0 -> act w lower s0 (PrevPage r) = s0))
    as Hprev.
  { intros s0 r0 Hs0. split; intros H.
    - destruct (nth_error (file_items s0) (current_file_index s0 - 1))
        as [item|] eqn:Ei.
      2:{ apply nth_error_None in Ei.
          destruct (sound_cursor s0 Hs0) as [Hc | [_ Hc]]; [|lia].
          rewrite (sound_length s0 Hs0) in Ei. lia. }
      destruct (act_select r0 item s0 _ (PrevPage r0) Hs0 Ei)
        as (H1 & H2 & H3 & _); [|tauto].
      cbn [slot]. unfold prev_page.
      now rewrite (proj2 (Nat.ltb_lt _ _) H), Ei.
    - apply act_unchanged; [exact Hs0|]. cbn [slot]. unfold prev_page.
      now rewrite H. }
  destruct (Hnext r) as [Hn1 Hn2]. destruct (Hprev s r Hs) as [Hp1 Hp2].
  fold c in Hp1, Hp2.
  split; [|split; [|split; [|split; [|split; [|split]]]]].
  - destruct (c + 1 <? total) eqn:E.
    + apply Nat.ltb_lt in E. now apply Hn1.
    + apply Nat.ltb_ge in E. now rewrite Hn2.
  - destruct c as [|c0] eqn:Ec.
    + now rewrite Hp2.
    + simpl. rewrite (proj1 (Hp1 ltac:(lia))). lia.
  - destruct (Nat.lt_ge_cases (c + 1) total) as [E | E].
    + now apply Hn1.
    + now rewrite Hn2.
  - destruct c as [|c0] eqn:Ec.
    + now rewrite Hp2.
    + apply Hp1. lia.
  - exact Hn2.
  - exact Hp2.
  - intros H. destruct (Hn1 H) as (Hs1 & Hi1 & Hf1).
    destruct (Hprev _ r' Hs1) as [Hq _].
    destruct (Hq ltac:(lia)) as [Hi2 Hf2].
    unfold selected_file. rewrite Hi2, Hf2, Hi1, Hf1. f_equal. lia.
Qed.

End Cursor.

Section Widgets.

Variable w : World.
Variable lower : string -> string.

Lemma set_output_folder_same (c : Converter) :
  set_output_folder (output_folder c) c = c.
Proof. now destruct c. Qed.

(** X11.  Deleting a file of the list takes exactly this file out and leaves
    the others in their order.  If another file was selected it stays
    selected; if the selected file is deleted, the file before it gets
    selected, or the file after it when it was the first. *)
Theorem delete_keeps_the_selection (inputs : list Input) (i : nat)
    (r : Read) (path : string) :
  let s := session w lower inputs initial in
  let s' := act w lower s (DeleteItem i r) in
  let files := current_files (converter s) in
  let c := current_file_index s in
  crashed (converter s) = false ->
  nth_error files i = Some path ->
  current_files (converter s') = without i files
  /\ (forall p, In p (current_files (converter s')) <-> In p files /\ p <> path)
  /\ selected_file s'
     = (if i =? c then
          (if c =? 0 then nth_error files 1 else nth_error files (c - 1))
        else selected_file s).
Proof.
  intros s s' files c Halive Hpath.
  pose proof (sound_reachable w lower inputs Halive) as Hs. fold s in Hs.
  pose proof (sound_mirrored s Hs) as Hm.
  pose proof (mirror_nodup s Hm) as Hnd. fold files in Hnd.
  assert (i < List.length files) as Hi by (apply nth_error_Some; congruence).
  destruct (nth_error (file_items s) i) as [item|] eqn:Eitem.
  2:{ apply nth_error_None in Eitem. rewrite (sound_length s Hs) in Eitem.
      fold files in Eitem. lia. }
  assert (file_path item = path) as Hitem.
  { pose proof (mirror_paths s Hm) as Hp. fold files in Hp.
    rewrite <- Hp, nth_error_map, Eitem in Hpath. now injection Hpath. }
  pose proof (find_index_nodup files i path Hnd Hpath) as Hk.
  destruct (sound_remove_single_file w r path s Hs)
    as (s1 & Hrm & Hs1 & _ & Hfiles & _ & Hidx & _).
  fold files in Hfiles, Hidx. specialize (Hidx i Hk).
  assert (s' = s1) as ->.
  { subst s'. unfold act. rewrite (sound_alive s Hs). cbn [slot].
    now rewrite Eitem, Hitem, Hrm. }
  rewrite (remove_first_split _ _ _ Hk) in Hfiles. fold (without i files) in Hfiles.
  split; [exact Hfiles|]. split.
  { intros p. rewrite Hfiles. now apply In_without. }
  unfold selected_file. rewrite Hfiles. fold files. fold c in Hidx |- *.
  destruct (sound_cursor s Hs) as [Hc | [Hc _]];
    [fold files c in Hc | fold files in Hc; rewrite Hc in Hi; simpl in Hi; lia].
  clearbody c.
  destruct (file_items s1) as [|a l] eqn:E1.
  - pose proof (sound_length s1 Hs1) as Hl. rewrite E1, Hfiles in Hl.
    unfold without in Hl. rewrite length_without in Hl by exact Hi.
    simpl in Hl. assert (List.length files = 1) as Hone by lia.
    assert (i = 0) as -> by lia. assert (c = 0) as Hc0 by lia.
    rewrite Hc0. simpl.
    destruct files as [|f [|g rest]]; simpl in Hone; try lia.
    unfold without. simpl. now destruct (current_file_index s1).
  - rewrite Hidx by congruence. unfold without.
    rewrite nth_error_without by exact Hi.
    destruct (i <=? c) eqn:Eic.
    + apply Nat.leb_le in Eic. destruct (i =? c) eqn:Eeq.
      * apply Nat.eqb_eq in Eeq. subst i. destruct c as [|c0].
        -- reflexivity.
        -- simpl Nat.pred. rewrite (proj2 (Nat.ltb_lt _ _)) by lia.
           simpl. now rewrite Nat.sub_0_r.
      * apply Nat.eqb_neq in Eeq. destruct c as [|c0]; [lia|].
        simpl Nat.pred. rewrite (proj2 (Nat.ltb_ge _ _)) by lia.
        reflexivity.
    + apply Nat.leb_gt in Eic.
      rewrite (proj2 (Nat.eqb_neq _ _)) by lia.
      now rewrite (proj2 (Nat.ltb_lt _ _)) by lia.
Qed.

(** A preview of a readable file, in full. *)
Lemma load_markdown_file_content (content path : string) (s : Window) :
  let s' := load_markdown_file w (Content content) path s in
  let total := List.length (current_files (converter s)) in
  (exists c,
     web_view s' = Some (render w c content, parent w path ++ "/")
     /\ pagebreak_input c = pagebreak_input (converter s)
     /\ include_toc c = include_toc (converter s))
  /\ output_folder (converter s')
     = py_or (output_folder (converter s)) (parent w path)
  /\ status_label s' = "プレビュー中: " ++ stem w path ++ ".md"
  /\ (current_files (converter s) <> [] ->
      page_info s'
      = str_of_nat (current_file_index s + 1) ++ " / " ++ str_of_nat total
      /\ prev_page_btn_enabled s' = (1 <? current_file_index s + 1)
      /\ next_page_btn_enabled s' = (current_file_index s + 1 <? total))
  /\ critical s' = critical s
  /\ loads (converter s') = S (loads (converter s)).
Proof.
  cbv zeta. unfold load_markdown_file, update_page_info.
  destruct (output_folder (converter s)) eqn:Ef; win_simpl;
    destruct (current_files (converter s)) eqn:Ec; win_simpl;
    rewrite ?Ef, ?Ec;
    (split; [eexists; split; [reflexivity|split; reflexivity]|]);
    repeat split; try reflexivity; congruence.
Qed.

(** X12.  Pressing a widget of the list moves the cursor to it.  When its
    file can be read, the view gets the document rendered with the marker
    and the contents box as they are now, rooted at the file's folder; an
    empty output folder becomes that folder while a chosen one is kept; the
    page label reads [i+1 / total]; Previous is enabled unless the file is
    the first, Next unless it is the last.  When the file cannot be read,
    an error dialog is all that happens besides the move: view, output
    folder, labels and both buttons stay as they were. *)
Theorem pressing_a_file_previews_it (inputs : list Input) (i : nat)
    (item : FileItem) (r : Read) :
  let s := session w lower inputs initial in
  let s' := act w lower s (PressItem i r) in
  let total := List.length (current_files (converter s)) in
  crashed (converter s) = false ->
  nth_error (file_items s) i = Some item ->
  current_file_index s' = i
  /\ current_files (converter s') = current_files (converter s)
  /\ match r with
     | Content content =>
         (exists c,
            web_view s'
            = Some (render w c content, parent w (file_path item) ++ "/")
            /\ pagebreak_input c = pagebreak_input (converter s)
            /\ include_toc c = include_toc (converter s))
         /\ output_folder (converter s')
            = py_or (output_folder (converter s)) (parent w (file_path item))
         /\ status_label s'
            = "プレビュー中: " ++ stem w (file_path item) ++ ".md"
         /\ page_info s' = str_of_nat (i + 1) ++ " / " ++ str_of_nat total
         /\ prev_page_btn_enabled s' = (0 <? i)
         /\ next_page_btn_enabled s' = (i + 1 <? total)
         /\ critical s' = critical s
     | ReadError e =>
         web_view s' = web_view s
         /\ output_folder (converter s') = output_folder (converter s)
         /\ status_label s' = status_label s
         /\ page_info s' = page_info s
         /\ prev_page_btn_enabled s' = prev_page_btn_enabled s
         /\ next_page_btn_enabled s' = next_page_btn_enabled s
         /\ critical s'
            = (critical s
               ++ [("ファイルの読み込みに失敗しました:" ++ nl ++ e)%string])%list
     end.
Proof.
  intros s s' total Halive Hi.
  pose proof (sound_reachable w lower inputs Halive) as Hs. fold s in Hs.
  destruct (act_select w lower r item s i (PressItem i r) Hs Hi)
    as (_ & Hidx & Hfiles & Heq).
  { cbn [slot]. now rewrite Hi. }
  fold s' in Hidx, Hfiles, Heq.
  split; [exact Hidx|]. split; [exact Hfiles|].
  rewrite Heq.
  destruct r as [content | e];
    [|unfold load_markdown_file; win_simpl; repeat split; reflexivity].
  assert (current_files (converter s) <> []) as Hne.
  { intros E. pose proof (sound_length s Hs) as Hl. rewrite E in Hl.
    assert (i < List.length (file_items s))
      by (apply nth_error_Some; congruence).
    simpl in Hl. lia. }
  destruct (load_markdown_file_content content (file_path item)
              (set_current_file_index i
                 (set_file_items (highlight (uid item) (file_items s)) s)))
    as (Hview & Hfolder & Hstatus & Hpage & Hcrit & _).
  win_simpl. destruct (Hpage Hne) as (Hp1 & Hp2 & Hp3).
  split; [exact Hview|]. split; [exact Hfolder|]. split; [exact Hstatus|].
  split; [exact Hp1|]. split; [|split; [exact Hp3 | exact Hcrit]].
  rewrite Hp2, Nat.add_1_r. destruct i; reflexivity.
Qed.

End Widgets.

(** *** [str.endswith] *)

Lemma substring_whole (s : string) : substring 0 (String.length s) s = s.
Proof. induction s as [|c s IH]; simpl; [reflexivity | now rewrite IH]. Qed.

Lemma substring_suffix (pre suf : string) :
  substring (String.length pre) (String.length suf) (pre ++ suf) = suf.
Proof.
  induction pre as [|c pre IH]; simpl; [apply substring_whole | exact IH].
Qed.

Lemma substring_split (s : string) (k : nat) :
  k <= String.length s ->
  s = substring 0 k s ++ substring k (String.length s - k) s.
Proof.
  revert k. induction s as [|c s IH]; intros k Hk.
  - simpl in Hk. assert (k = 0) as -> by lia. reflexivity.
  - destruct k as [|k].
    + simpl. now rewrite substring_whole.
    + simpl in *. f_equal. apply IH. lia.
Qed.

Lemma string_length_app (s t : string) :
  String.length (s ++ t) = String.length s + String.length t.
Proof. induction s as [|c s IH]; simpl; [reflexivity | now rewrite IH]. Qed.

Lemma endswith_spec (s suffix : string) :
  endswith s suffix = true <-> exists stem, s = stem ++ suffix.
Proof.
  unfold endswith. rewrite andb_true_iff, Nat.leb_le, String.eqb_eq. split.
  - intros [Hlen Hsub].
    exists (substring 0 (String.length s - String.length suffix) s).
    rewrite (substring_split s (String.length s - String.length suffix))
      at 1 by lia.
    f_equal. rewrite <- Hsub at 3. f_equal. lia.
  - intros [stem ->]. rewrite string_length_app. split; [lia|].
    replace (String.length stem + String.length suffix - String.length suffix)
      with (String.length stem) by lia.
    apply substring_suffix.
Qed.

Section Adding.

Variable w : World.
Variable lower : string -> string.

(** X13.  A drop adds the dropped paths whose lower-cased name ends in [.md]
    or [.markdown] and no other; what the file dialog returns is added as it
    is, whatever the names.  Paths already listed stay. *)
Theorem drop_takes_markdown_files_only (r : Read) (files : list string)
    (s : Window) (p : string) :
  let listed := current_files (converter s) in
  (In p (current_files (converter (window_of (dropEvent w lower r files s))))
   <-> In p listed
       \/ (In p files
           /\ exists stem,
                lower p = stem ++ ".md" \/ lower p = stem ++ ".markdown"))
  /\ (In p (current_files
              (converter (window_of (browse_input_files w r files s))))
      <-> In p listed \/ In p files).
Proof.
  intros listed.
  assert (forall paths,
            In p (listed ++ fresh_paths listed paths)%list
            <-> In p listed \/ In p paths) as Hadd.
  { intros paths. rewrite in_app_iff, fresh_paths_In.
    destruct (in_dec string_dec p listed); tauto. }
  split.
  - unfold dropEvent.
    set (keep := fun f => endswith (lower f) ".md"
                          || endswith (lower f) ".markdown").
    assert (In p (filter keep files)
            <-> In p files
                /\ exists stem,
                     lower p = stem ++ ".md" \/ lower p = stem ++ ".markdown")
      as Hkeep.
    { rewrite filter_In. unfold keep.
      rewrite orb_true_iff, !endswith_spec. split.
      - intros [H [[stem E] | [stem E]]]; eauto.
      - intros [H [stem [E | E]]]; eauto. }
    rewrite <- Hkeep.
    destruct (filter keep files) as [|f l] eqn:E; cbn [window_of].
    + simpl. tauto.
    + rewrite add_files_files. apply Hadd.
  - unfold browse_input_files. destruct files as [|f l]; cbn [window_of].
    + simpl. tauto.
    + rewrite add_files_files. apply Hadd.
Qed.

(** X14.  Adding files, when any are offered, puts the cursor on the first
    file of the list, whichever file was selected before. *)
Theorem adding_files_selects_the_first (inputs : list Input)
    (paths : list string) (r : Read) :
  let s := session w lower inputs initial in
  let s' := act w lower s (BrowseFiles paths r) in
  crashed (converter s) = false -> paths <> [] ->
  current_file_index s' = 0
  /\ current_files (converter s') <> []
  /\ selected_file s' = hd_error (current_files (converter s'))
  /\ hd_error (current_files (converter s'))
     = hd_error (current_files (converter s) ++ paths).
Proof.
  intros s s' Halive Hne.
  pose proof (sound_reachable w lower inputs Halive) as Hs. fold s in Hs.
  destruct paths as [|p paths]; [congruence|].
  destruct (sound_add_files w r (p :: paths) s Hs)
    as (s1 & Hadd & Hs1 & _ & Hfiles & Hidx & _).
  assert (s' = s1) as ->.
  { subst s'. unfold act. rewrite (sound_alive s Hs). cbn [slot].
    unfold browse_input_files. now rewrite Hadd. }
  assert (In p (current_files (converter s1))) as Hin.
  { rewrite Hfiles, in_app_iff, fresh_paths_In. simpl.
    destruct (in_dec string_dec p (current_files (converter s))); tauto. }
  assert (current_files (converter s1) <> []) as Hne1
    by (intros E; now rewrite E in Hin).
  assert (current_file_index s1 = 0) as H0.
  { apply Hidx. intros E. apply Hne1.
    now rewrite <- (mirror_paths s1 (sound_mirrored s1 Hs1)), E. }
  split; [exact H0|]. split; [exact Hne1|]. unfold selected_file. rewrite H0.
  split; [now destruct (current_files (converter s1))|].
  rewrite Hfiles. now destruct (current_files (converter s)).
Qed.

End Adding.

(** *** The list and the job *)

Section Job.

Variable w : World.
Variable lower : string -> string.

Definition chooses_folder (i : Input) : bool :=
  match i with
  | User (BrowseFolder (String _ _)) => true
  | _ => false
  end.

Lemma act_crashed (s : Window) (a : Action) :
  crashed (converter s) = true -> act w lower s a = s.
Proof. intros H. unfold act. now rewrite H. Qed.

Lemma run_crashed (actions : list Action) (s : Window) :
  crashed (converter s) = true -> run w lower actions s = s.
Proof.
  intros H. induction actions as [|a actions IH]; [reflexivity|].
  change (run w lower (a :: actions) s)
    with (run w lower actions (act w lower s a)).
  now rewrite act_crashed.
Qed.

(** X15.  The slots of the list never write what the pipeline works on:
    cursor, totals, errors, output path, progress bar, receivers, timers and
    history of the job, the marker field and the boxes are the same after
    any sequence of list actions, at any moment of a session; and none of
    them raises. *)
Theorem list_slots_leave_the_job_alone (inputs : list Input)
    (actions : list Action) :
  let s := session w lower inputs initial in
  let s' := run w lower actions s in
  job_state (converter s') = job_state (converter s)
  /\ crashed (converter s') = crashed (converter s).
Proof.
  intros s s'. destruct (crashed (converter s)) eqn:Ec.
  - subst s'. now rewrite run_crashed, Ec.
  - pose proof (sound_reachable w lower inputs Ec) as Hs. fold s in Hs.
    destruct (kept_run w lower actions s Hs) as (Hs' & _ & Hjob).
    split; [exact Hjob | apply Hs'].
Qed.

Lemma folder_react (i : Input) (s : Window) :
  Tidy s -> chooses_folder i = false ->
  output_folder (converter s) <> EmptyString ->
  output_folder (converter (react w lower s i)) = output_folder (converter s).
Proof.
  intros Ht Hi Hne.
  assert (forall c, options c = options (converter s) ->
                    output_folder c = output_folder (converter s)) as Hopt.
  { intros c H. unfold options in H. now injection H. }
  destruct i as [a | | e]; cbn [react].
  - destruct (crashed (converter s)) eqn:Ec; [now rewrite act_crashed|].
    assert (Sound s) as Hs by (apply sound_tidy; now split).
    destruct (kept_act w lower a s Hs) as (_ & _ & _ & _ & Hf).
    assert (folder_choice a = None) as Hnone.
    { destruct a as [| | | | | | |[|c f]]; try reflexivity. discriminate. }
    rewrite Hnone in Hf. now apply Hf.
  - destruct (crashed (converter s)); [reflexivity|].
    destruct (convert_btn_enabled (converter s)); [|reflexivity].
    apply Hopt, options_convert_to_pdf.
  - apply Hopt, options_step.
Qed.


End Job.

(** *** Preview and conversion *)

Section Preview.

Variable w : World.
Variables (Md : Type) (Markdown : list string -> Md)
          (convert : Md -> string -> string * Md).

Lemma render_same (c c' : Converter) (text : string) :
  render w = Renderer.markdown_to_html Md Markdown convert ->
  pagebreak_input c = pagebreak_input c' -> include_toc c = include_toc c' ->
  render w c text = render w c' text.
Proof.
  intros -> Hm Ht. rewrite !RendererSpec.markdown_to_html_unfold.
  unfold Renderer.extensions. now rewrite Hm, Ht.
Qed.

Lemma options_marker (c c' : Converter) :
  options c = options c' ->
  pagebreak_input c = pagebreak_input c' /\ include_toc c = include_toc c'.
Proof. unfold options. intros [= _ _ H1 H2 _]. now split. Qed.

(** X17.  What the preview shows is what gets converted: with the marker field
    and the contents box unchanged, a job that reaches a file hands the view
    the same document, with the same base URL, as a preview of that file
    with the same content. *)
Theorem preview_is_what_gets_converted (s : Window) (job : Converter)
    (path content : string) :
  let i := current_conversion_index job in
  render w = Renderer.markdown_to_html Md Markdown convert ->
  i < total_files job ->
  nth_error (current_files job) i = Some path ->
  read_file w i = Content content ->
  (output_exists w i && confirm_overwrite job = true ->
   overwrite_reply w i = Yes) ->
  pagebreak_input job = pagebreak_input (converter s) ->
  include_toc job = include_toc (converter s) ->
  exists html before,
    web_view (load_markdown_file w (Content content) path s)
    = Some (html, parent w path ++ "/")
    /\ log (convert_next_file w job)
       = (before ++ [ObsSetHtml i html (parent w path ++ "/")])%list.
Proof.
  intros i Hrender Hlt Hpath Hread Hreply Hm Ht.
  destruct (load_markdown_file_content w content path s)
    as ((c & Hview & Hcm & Hct) & _).
  exists (render w c content).
  rewrite PipelineSpec.convert_next_file_eq. fold i.
  rewrite (proj2 (Nat.leb_gt _ _) Hlt), Hpath. cbv zeta.
  set (s1 := setValue (file_progress i (total_files job)) job).
  assert (options s1 = options job) as Ho1 by apply options_setValue.
  assert (confirm_overwrite s1 = confirm_overwrite job) as Hc1
    by (unfold options in Ho1; now injection Ho1).
  rewrite Hc1.
  assert (forall s2,
            options s2 = options job ->
            exists before,
              log (PipelineSpec.try_block w (convert_next_file w) path
                     (joinpath w (output_folder s1) (stem w path ++ ".pdf"))
                     i s2)
              = (before ++ [ObsSetHtml i (render w c content)
                              (parent w path ++ "/")])%list) as Htry.
  { intros s2 Ho2. unfold PipelineSpec.try_block. rewrite Hread.
    eexists. unfold setHtml, connect. PipelineSpec.state_simpl. f_equal. f_equal. f_equal.
    destruct (options_marker _ _ Ho2) as [H1 H2].
    apply render_same; [exact Hrender | congruence | congruence]. }
  destruct (output_exists w i && confirm_overwrite job) eqn:Eprompt.
  - rewrite (Hreply eq_refl).
    destruct (Htry (observe (ObsPrompt i Yes) s1)) as [before Hlog];
      [exact Ho1|].
    exists before. split; [exact Hview | exact Hlog].
  - destruct (Htry s1 Ho1) as [before Hlog].
    exists before. split; [exact Hview | exact Hlog].
Qed.

End Preview.

(** *** The theorems at work *)

(** Three files chosen in the dialog of a fresh window, the first one
    readable; no lower-casing is needed for the names used here. *)
Local Abbreviation three_listed :=
  (session PipelineSpec.smooth (fun f => f)
     [User (BrowseFiles ["a.md"; "b.md"; "c.md"] (Content "# A"))] initial).

Lemma three_listed_alive : crashed (converter three_listed) = false.
Proof. vm_compute. reflexivity. Qed.

Lemma three_listed_second :
  nth_error (current_files (converter three_listed)) 1 = Some "b.md".
Proof. vm_compute. reflexivity. Qed.

Lemma three_listed_widget :
  nth_error (file_items three_listed) 1
  = Some {| uid := 1; file_path := "b.md"; selected := false |}.
Proof. vm_compute. reflexivity. Qed.

Lemma prev_next_move_by_one_witness :
  current_file_index
    (act PipelineSpec.smooth (fun f => f) three_listed
       (NextPage (Content "# B")))
  = (if current_file_index three_listed + 1
        <? List.length (current_files (converter three_listed))
     then current_file_index three_listed + 1
     else current_file_index three_listed).
Proof.
  exact (proj1 (prev_next_move_by_one PipelineSpec.smooth (fun f => f)
                  [User (BrowseFiles ["a.md"; "b.md"; "c.md"] (Content "# A"))]
                  (Content "# B") (Content "# A") three_listed_alive)).
Defined.

Lemma delete_keeps_the_selection_witness :
  current_files
    (converter
       (act PipelineSpec.smooth (fun f => f) three_listed
          (DeleteItem 1 (Content "# A"))))
  = without 1 (current_files (converter three_listed)).
Proof.
  exact (proj1 (delete_keeps_the_selection PipelineSpec.smooth (fun f => f)
                  [User (BrowseFiles ["a.md"; "b.md"; "c.md"] (Content "# A"))]
                  1 (Content "# A") "b.md" three_listed_alive
                  three_listed_second)).
Defined.

Lemma pressing_a_file_previews_it_witness :
  current_file_index
    (act PipelineSpec.smooth (fun f => f) three_listed
       (PressItem 1 (Content "# B")))
  = 1.
Proof.
  exact (proj1 (pressing_a_file_previews_it PipelineSpec.smooth (fun f => f)
                  [User (BrowseFiles ["a.md"; "b.md"; "c.md"] (Content "# A"))]
                  1 {| uid := 1; file_path := "b.md"; selected := false |}
                  (Content "# B") three_listed_alive three_listed_widget)).
Defined.

Lemma one_path_offered : ["d.md"] <> [].
Proof. discriminate. Qed.

Lemma adding_files_selects_the_first_witness :
  current_file_index
    (act PipelineSpec.smooth (fun f => f) three_listed
       (BrowseFiles ["d.md"] (Content "# A")))
  = 0.
Proof.
  exact (proj1 (adding_files_selects_the_first PipelineSpec.smooth
                  (fun f => f)
                  [User (BrowseFiles ["a.md"; "b.md"; "c.md"] (Content "# A"))]
                  ["d.md"] (Content "# A") three_listed_alive
                  one_path_offered)).
Defined.

(** A folder is chosen first; then a file is added and converted. *)
Local Abbreviation folder_chosen :=
  (session PipelineSpec.smooth (fun f => f) [User (BrowseFolder "/out")]
     initial).

Lemma folder_chosen_set : output_folder (converter folder_chosen) <> EmptyString.
Proof. vm_compute. discriminate. Qed.


Lemma no_prompt_expected :
  output_exists PipelineSpec.smooth 0 && true = true ->
  overwrite_reply PipelineSpec.smooth 0 = Yes.
Proof. reflexivity. Qed.

Lemma preview_is_what_gets_converted_witness :
  exists html before,
    web_view
      (load_markdown_file PipelineSpec.smooth (Content "# Title") "a.md"
         initial)
    = Some (html, parent PipelineSpec.smooth "a.md" ++ "/")
    /\ log (convert_next_file PipelineSpec.smooth
              (set_total 1
                 (window Renderer.page_break_marker true true "/out"
                    ["a.md"])))
       = (before
          ++ [ObsSetHtml
                (current_conversion_index
                   (set_total 1
                      (window Renderer.page_break_marker true true "/out"
                         ["a.md"])))
                html (parent PipelineSpec.smooth "a.md" ++ "/")])%list.
Proof.
  exact (preview_is_what_gets_converted PipelineSpec.smooth unit
           (fun _ => tt) RendererSpec.echo initial
           (set_total 1
              (window Renderer.page_break_marker true true "/out" ["a.md"]))
           "a.md" "# Title" eq_refl (le_n 1) eq_refl eq_refl
           no_prompt_expected eq_refl eq_refl).
Defined.

End FileListSpec.
